(** * AutoData AI: the client-side data pipeline of [src/utils.ts] and [src/App.tsx]

    A shallow embedding of the record model ([types.ts]), the sort, the
    delimited-text codec, the duplicate predicate ([utils.ts]) and the
    state handlers of the [App] component ([App.tsx]): key derivation,
    merge on confirmation, merge on import, bulk deletion, pagination and
    the auto-save effect.

    Modelling conventions.
    - A JavaScript string is a [string]: a sequence of code units, here
      the code units 0..255 (the Latin-1 block of UTF-16).  [toLowerCase]
      and [trim] follow ECMAScript on that block.
    - A JavaScript number that the program uses as an integer
      ([Start_Year], array lengths, page numbers) is a [Z].  The model is
      exact on the safe integers, [|n| <= 2^53 - 1].
    - [String.prototype.localeCompare] depends on the host's collation and
      is a parameter ([localeCompare]) of the definitions that sort.
    - A thrown exception is the [Err] branch of [Result]. *)

From Stdlib Require Import ZArith Ascii String List Lia Bool.
From Stdlib Require Import Decimal DecimalZ DecimalN DecimalPos.
From Stdlib Require Import Sorting.Sorted.
From stdpp Require Import base option list gmap strings.

Local Open Scope string_scope.
Local Open Scope list_scope.
Local Open Scope Z_scope.

(** ** Code units *)

Module CodeUnit.

Definition code (c : ascii) : N := N_of_ascii c.

(** [\d] of a JavaScript regular expression: the ten ASCII digits. *)
Definition isDigit (c : ascii) : bool :=
  (48 <=? code c)%N && (code c <=? 57)%N.

(** WhiteSpace and LineTerminator of ECMAScript below U+0100:
    TAB, LF, VT, FF, CR, SP and NBSP. *)
Definition isWhiteSpace (c : ascii) : bool :=
  ((9 <=? code c)%N && (code c <=? 13)%N)
  || (code c =? 32)%N || (code c =? 160)%N.

(** Simple lower-case mapping below U+0100: [A-Z], and U+00C0..U+00DE
    without the multiplication sign U+00D7, move up by 32. *)
Definition toLower (c : ascii) : ascii :=
  let n := code c in
  if ((65 <=? n)%N && (n <=? 90)%N)
     || ((192 <=? n)%N && (n <=? 222)%N && negb (n =? 215)%N)
  then ascii_of_N (n + 32)
  else c.

End CodeUnit.

(** ** Strings *)

Module Str.

Fixpoint map (f : ascii -> ascii) (s : string) : string :=
  match s with
  | EmptyString => EmptyString
  | String c s' => String (f c) (map f s')
  end.

Fixpoint forallb (p : ascii -> bool) (s : string) : bool :=
  match s with
  | EmptyString => true
  | String c s' => p c && forallb p s'
  end.

Fixpoint existsb (p : ascii -> bool) (s : string) : bool :=
  match s with
  | EmptyString => false
  | String c s' => p c || existsb p s'
  end.

(** Whether the first code unit exists and satisfies [p]. *)
Definition headSatisfies (p : ascii -> bool) (s : string) : bool :=
  match s with EmptyString => false | String c _ => p c end.

(** The code unit of ['\n']. *)
Definition lineFeed : ascii := "010"%char.

Definition isEmpty (s : string) : bool :=
  match s with EmptyString => true | String _ _ => false end.

(** [s.toLowerCase()] *)
Definition toLowerCase (s : string) : string := map CodeUnit.toLower s.

Fixpoint trimStart (s : string) : string :=
  match s with
  | EmptyString => EmptyString
  | String c s' => if CodeUnit.isWhiteSpace c then trimStart s' else s
  end.

Fixpoint trimEnd (s : string) : string :=
  match s with
  | EmptyString => EmptyString
  | String c s' =>
      let t := trimEnd s' in
      if CodeUnit.isWhiteSpace c && isEmpty t then EmptyString
      else String c t
  end.

(** [s.trim()] *)
Definition trim (s : string) : string := trimEnd (trimStart s).

(** [s.split(sep)] for a one-character separator, as the non-empty
    list (first piece, remaining pieces): splitting the empty string
    gives one empty piece. *)
Fixpoint splitNE (sep : ascii) (s : string) : string * list string :=
  match s with
  | EmptyString => (EmptyString, [])
  | String c s' =>
      let '(h, t) := splitNE sep s' in
      if Ascii.eqb c sep then (EmptyString, h :: t)
      else (String c h, t)
  end.

Definition split (sep : ascii) (s : string) : list string :=
  let '(h, t) := splitNE sep s in h :: t.

(** [parts.join(sep)] *)
Definition join (sep : string) (parts : list string) : string :=
  String.concat sep parts.

Fixpoint takeWhile (p : ascii -> bool) (s : string) : string :=
  match s with
  | EmptyString => EmptyString
  | String c s' => if p c then String c (takeWhile p s') else EmptyString
  end.

(** The longest prefix made of digits, as a decimal numeral. *)
Definition digitOf (c : ascii) : option (uint -> uint) :=
  match CodeUnit.code c with
  | 48%N => Some D0 | 49%N => Some D1 | 50%N => Some D2 | 51%N => Some D3
  | 52%N => Some D4 | 53%N => Some D5 | 54%N => Some D6 | 55%N => Some D7
  | 56%N => Some D8 | 57%N => Some D9
  | _ => None
  end.

Fixpoint digitPrefix (s : string) : uint :=
  match s with
  | EmptyString => Nil
  | String c s' =>
      match digitOf c with
      | Some d => d (digitPrefix s')
      | None => Nil
      end
  end.

Fixpoint ofUint (u : uint) : string :=
  match u with
  | Nil => EmptyString
  | D0 u' => String "0" (ofUint u')
  | D1 u' => String "1" (ofUint u')
  | D2 u' => String "2" (ofUint u')
  | D3 u' => String "3" (ofUint u')
  | D4 u' => String "4" (ofUint u')
  | D5 u' => String "5" (ofUint u')
  | D6 u' => String "6" (ofUint u')
  | D7 u' => String "7" (ofUint u')
  | D8 u' => String "8" (ofUint u')
  | D9 u' => String "9" (ofUint u')
  end.

End Str.

(** ** Numbers *)

Module Num.

(** [Number.isSafeInteger]: the integers a double holds exactly. *)
Definition isSafeInteger (n : Z) : Prop := Z.abs n <= 2 ^ 53 - 1.

(** [String(n)] for an integer [n]: its decimal numeral, with a minus
    sign when negative. *)
Definition toString (n : Z) : string :=
  match Z.to_int n with
  | Pos u => Str.ofUint u
  | Neg u => String "-" (Str.ofUint u)
  end.

(** [parseInt(s, 10)]: leading white space is skipped, one sign is
    read, then the longest run of digits; [None] is NaN.  The result is
    the integer the digits denote, which is the number the code gets
    when that integer is safe ([isSafeInteger]); beyond, the code's
    number is rounded, and statements on parsed years carry that
    bound. *)
Definition parseDigits (s : string) : option Z :=
  match Str.digitPrefix s with
  | Nil => None
  | u => Some (Z.of_uint u)
  end.

Definition parseInt (s : string) : option Z :=
  match Str.trimStart s with
  | String "-" s' => Z.opp <$> parseDigits s'
  | String "+" s' => parseDigits s'
  | s' => parseDigits s'
  end.

End Num.

(** ** The record model ([types.ts]) *)

Record VehicleRecord : Type := mkVehicle {
  Manufacturer : string;
  Model : string;
  Generation : string;
  Model_Code : string;
  Start_Year : Z;
  End_Year : string
}.

(** [ExpansionSuggestion] has the fields of [VehicleRecord]. *)
Abbreviation ExpansionSuggestion := VehicleRecord (only parsing).

#[global] Instance VehicleRecord_eq_dec : EqDecision VehicleRecord.
Proof. solve_decision. Defined.

(** ** JavaScript values, objects and exceptions *)

Inductive JsValue : Type :=
| JsUndefined
| JsString (s : string)
| JsNumber (n : Z).

#[global] Instance JsValue_eq_dec : EqDecision JsValue.
Proof. solve_decision. Defined.

(** An object built by [record[header] = val]: a finite map from
    property names to values. *)
Abbreviation JsObject := (gmap string JsValue) (only parsing).

Module Js.

(** [String(v)], also the conversion of a template literal and of the
    argument of [parseInt]. *)
Definition toString (v : JsValue) : string :=
  match v with
  | JsUndefined => "undefined"
  | JsString s => s
  | JsNumber n => Num.toString n
  end.

(** The conversion [Array.prototype.join] applies to an element:
    [undefined] gives the empty string. *)
Definition joinText (v : JsValue) : string :=
  match v with
  | JsUndefined => ""
  | _ => toString v
  end.

(** [values[index]]: reading past the end of an array gives [undefined]. *)
Definition element (values : list string) (index : nat) : JsValue :=
  match values !! index with
  | Some s => JsString s
  | None => JsUndefined
  end.

(** [record[header] = val] on an object literal with a primitive [val]:
    the inherited setter of ["__proto__"] ignores primitives, every
    other name becomes an own property. *)
Definition setProperty (record : JsObject) (header : string) (val : JsValue)
  : JsObject :=
  if decide (header = "__proto__") then record else <[header := val]> record.

(** [record[header]] on a [VehicleRecord]. *)
Definition property (record : VehicleRecord) (header : string) : JsValue :=
  if decide (header = "Manufacturer") then JsString (Manufacturer record)
  else if decide (header = "Model") then JsString (Model record)
  else if decide (header = "Generation") then JsString (Generation record)
  else if decide (header = "Model_Code") then JsString (Model_Code record)
  else if decide (header = "Start_Year") then JsNumber (Start_Year record)
  else if decide (header = "End_Year") then JsString (End_Year record)
  else JsUndefined.

(** A [VehicleRecord] seen as an object. *)
Definition ofVehicle (r : VehicleRecord) : JsObject :=
  <["End_Year" := JsString (End_Year r)]>
  (<["Start_Year" := JsNumber (Start_Year r)]>
  (<["Model_Code" := JsString (Model_Code r)]>
  (<["Generation" := JsString (Generation r)]>
  (<["Model" := JsString (Model r)]>
  (<["Manufacturer" := JsString (Manufacturer r)]> ∅))))).

Definition stringProperty (o : JsObject) (name : string) : option string :=
  match o !! name with
  | Some (JsString s) => Some s
  | _ => None
  end.

Definition numberProperty (o : JsObject) (name : string) : option Z :=
  match o !! name with
  | Some (JsNumber n) => Some n
  | _ => None
  end.

(** [record as VehicleRecord]: the cast is unchecked in the source; an
    object is a [VehicleRecord] of the model when its six properties
    have the declared types.  Further properties are not part of the
    typed record. *)
Definition asVehicle (o : JsObject) : option VehicleRecord :=
  m ← stringProperty o "Manufacturer";
  md ← stringProperty o "Model";
  g ← stringProperty o "Generation";
  mc ← stringProperty o "Model_Code";
  sy ← numberProperty o "Start_Year";
  ey ← stringProperty o "End_Year";
  Some (mkVehicle m md g mc sy ey).

End Js.

(** Exceptions of the decoder: the two [Error]s thrown by [parseCSV] and
    the [TypeError] of a method call on [undefined]. *)
Inductive Error : Type :=
| FormatError
| RowParseError (line : Z) (text : string)
| TypeError.

#[global] Instance Error_eq_dec : EqDecision Error.
Proof. solve_decision. Defined.

Inductive Result (A : Type) : Type :=
| Ok (a : A)
| Err (e : Error).
Arguments Ok {A} a.
Arguments Err {A} e.

Definition bindResult {A B} (r : Result A) (k : A -> Result B) : Result B :=
  match r with
  | Ok a => k a
  | Err e => Err e
  end.

Declare Scope result_scope.
Delimit Scope result_scope with result.
Notation "'try' x ':=' r 'in' k" := (bindResult r (fun x => k))
  (at level 10, x name, r at level 100, k at level 200) : result_scope.

(** ** [utils.ts] *)

Module Utils.

Section Sorting.

(** [a.localeCompare(b)]: negative, zero or positive. *)
Variable localeCompare : string -> string -> Z.

(** The comparator handed to [Array.prototype.sort]. *)
Definition compareRecords (a b : VehicleRecord) : Z :=
  let mCompare := localeCompare (Manufacturer a) (Manufacturer b) in
  if negb (mCompare =? 0) then mCompare
  else
    let modelCompare := localeCompare (Model a) (Model b) in
    if negb (modelCompare =? 0) then modelCompare
    else Start_Year a - Start_Year b.

(** [Array.prototype.sort] is stable: an element moves past exactly
    the elements the comparator puts strictly before it. *)
Fixpoint insertSorted (a : VehicleRecord) (l : list VehicleRecord)
  : list VehicleRecord :=
  match l with
  | [] => [a]
  | b :: l' =>
      if compareRecords a b >? 0 then b :: insertSorted a l'
      else a :: l
  end.

(** [sortDatabase]: a sorted copy, the input is left as it is. *)
Definition sortDatabase (data : list VehicleRecord) : list VehicleRecord :=
  foldr insertSorted [] data.

End Sorting.

Definition expectedHeaders : list string :=
  ["Manufacturer"; "Model"; "Generation"; "Model_Code"; "Start_Year";
   "End_Year"].

(** [headers.map(header => record[header]).join(',')] *)
Definition csvRow (record : VehicleRecord) : string :=
  Str.join "," (map (fun header => Js.joinText (Js.property record header))
                    expectedHeaders).

Definition convertToCSV (data : list VehicleRecord) : string :=
  let headers := expectedHeaders in
  let rows := map csvRow data in
  Str.join (String Str.lineFeed EmptyString) (Str.join "," headers :: rows).

(** [val.match(/\d+/)]: the leftmost match of a greedy digit run. *)
Fixpoint matchDigits (val : string) : option string :=
  match val with
  | EmptyString => None
  | String c val' =>
      if CodeUnit.isDigit c then Some (Str.takeWhile CodeUnit.isDigit val)
      else matchDigits val'
  end.

Definition cleanGeneration (val : string) : string :=
  match matchDigits val with
  | Some m => m
  | None => val
  end.

(** [content.split('\n').filter(line => line.trim() !== '')] *)
Definition nonBlank (line : string) : bool :=
  negb (Str.isEmpty (Str.trim line)).

Definition nonBlankLines (content : string) : list string :=
  List.filter nonBlank (Str.split Str.lineFeed content).

(** [line.split(',').map(v => v.trim())] *)
Definition cells (line : string) : list string :=
  map Str.trim (Str.split ","%char line).

(** [headers.includes(h)] *)
Definition includes (headers : list string) (h : string) : bool :=
  bool_decide (h ∈ headers).

Definition isValidHeader (headers : list string) : bool :=
  forallb (includes headers) expectedHeaders.

Local Open Scope result_scope.

(** The body of the [headers.forEach] callback up to the assignment:
    the value stored under [header] for the row of loop index [i]. *)
Definition fieldValue (i : Z) (header : string) (val : JsValue)
  : Result JsValue :=
  try val := (if decide (header = "Start_Year") then
                match Num.parseInt (Js.toString val) with
                | None => Err (RowParseError (i + 1) (Js.toString val))
                | Some parsedYear => Ok (JsNumber parsedYear)
                end
              else Ok val) in
  if decide (header = "Generation") then
    match val with
    | JsString s => Ok (JsString (cleanGeneration s))
    | _ => Err TypeError
    end
  else Ok val.

(** [headers.forEach((header, index) => ...)] from position [index] on. *)
Fixpoint fillRecord (i : Z) (values : list string) (headers : list string)
  (index : nat) (record : JsObject) : Result JsObject :=
  match headers with
  | [] => Ok record
  | header :: headers' =>
      try val := fieldValue i header (Js.element values index) in
      fillRecord i values headers' (S index)
                 (Js.setProperty record header val)
  end.

(** The [for] loop over [lines[i]], [lines[i+1]], ... *)
Fixpoint parseRows (headers : list string) (rows : list string) (i : Z)
  : Result (list JsObject) :=
  match rows with
  | [] => Ok []
  | line :: rows' =>
      let values := cells line in
      if (length values <? length expectedHeaders)%nat then
        parseRows headers rows' (i + 1)
      else
        try record := fillRecord i values headers 0 ∅ in
        try results := parseRows headers rows' (i + 1) in
        Ok (record :: results)
  end.

Definition parseCSV (content : string) : Result (list JsObject) :=
  match nonBlankLines content with
  | [] | [_] => Ok []
  | line0 :: rows =>
      let headers := cells line0 in
      if isValidHeader headers then parseRows headers rows 1
      else Err FormatError
  end.

(** One test of the [some] callback. *)
Definition sameVehicle (item record : VehicleRecord) : bool :=
  bool_decide (Str.toLowerCase (Manufacturer item)
               = Str.toLowerCase (Manufacturer record))
  && bool_decide (Str.toLowerCase (Model item)
                  = Str.toLowerCase (Model record))
  && bool_decide (Str.toLowerCase (Generation item)
                  = Str.toLowerCase (Generation record))
  && bool_decide (Str.toLowerCase (Model_Code item)
                  = Str.toLowerCase (Model_Code record))
  && bool_decide (Start_Year item = Start_Year record).

Definition isDuplicate (existing : list VehicleRecord)
  (record : VehicleRecord) : bool :=
  existsb (fun item => sameVehicle item record) existing.

End Utils.

(** ** [internalData.ts] *)

Definition INTERNAL_DB_MAIN : list VehicleRecord :=
  [ mkVehicle "Toyota" "Corolla" "12" "E210" 2018 "Present";
    mkVehicle "Toyota" "RAV4" "5" "XA50" 2018 "Present";
    mkVehicle "Hyundai" "Tucson" "4" "NX4" 2020 "Present";
    mkVehicle "Hyundai" "Ioniq 5" "1" "NE" 2021 "Present";
    mkVehicle "Skoda" "Octavia" "4" "NX" 2020 "Present";
    mkVehicle "Suzuki" "Swift" "6" "A2L" 2017 "2023" ].

Definition INTERNAL_DB_PREMIUM : list VehicleRecord :=
  [ mkVehicle "BMW" "3 Series" "7" "G20" 2018 "Present";
    mkVehicle "BMW" "5 Series" "8" "G60" 2023 "Present";
    mkVehicle "Mercedes-Benz" "C-Class" "5" "W206" 2021 "Present";
    mkVehicle "Mercedes-Benz" "S-Class" "7" "W223" 2020 "Present" ].

(** ** [App.tsx] *)

Module App.

Definition RECORDS_PER_PAGE : Z := 50.

(** *** Key derivation *)

(** [p || '']: [undefined], the empty string and the number 0 are falsy. *)
Definition orEmpty (p : JsValue) : JsValue :=
  match p with
  | JsUndefined => JsString ""
  | JsString EmptyString => JsString ""
  | JsNumber 0 => JsString ""
  | _ => p
  end.

(** [String(p || '').trim().toLowerCase()] *)
Definition keyPart (p : JsValue) : string :=
  Str.toLowerCase (Str.trim (Js.toString (orEmpty p))).

(** [getRecordKey]; [None] is a null or undefined argument. *)
Definition getRecordKey (v : option VehicleRecord) : string :=
  match v with
  | None => ""
  | Some v =>
      let parts :=
        [ JsString (Manufacturer v);
          JsString (Model v);
          JsString (Generation v);
          JsString (Model_Code v);
          JsNumber (Start_Year v);
          JsString (End_Year v) ] in
      Str.join "##" (map keyPart parts)
  end.

(** *** Pagination *)

(** [Math.ceil(a / b)] for integers [a >= 0] and [b > 0]. *)
Definition ceilDiv (a b : Z) : Z := (a + b - 1) / b.

Definition totalPages (filteredData : list VehicleRecord) : Z :=
  Z.max 1 (ceilDiv (Z.of_nat (length filteredData)) RECORDS_PER_PAGE).

(** The page-bounds effect: the value of [currentPage] once the effect
    has run for the given [totalPages]. *)
Definition pageBoundsEffect (totalPages currentPage : Z) : Z :=
  if (currentPage >? totalPages) && (totalPages >? 0) then totalPages
  else currentPage.

(** *** The component state *)

(** The item stored under [STORAGE_KEY]: the text of a dataset, or a
    text [JSON.parse] rejects. *)
Inductive Stored : Type :=
| Snapshot (data : list VehicleRecord)
| Unparsable.

Record State : Type := mkState {
  database : list VehicleRecord;
  storage : option Stored;
  suggestions : list ExpansionSuggestion;
  selectedRowKeys : gset string;
  currentPage : Z
}.

(** The auto-save effect, run after a render in which [database] changed. *)
Definition autoSave (st : State) : State :=
  if (0 <? length (database st))%nat then
    mkState (database st) (Some (Snapshot (database st))) (suggestions st)
            (selectedRowKeys st) (currentPage st)
  else st.

(** [setDatabase(db)] followed by the auto-save effect of the next
    render.  The page-bounds effect of that render changes [currentPage]
    only and depends on the filters; it is [pageBoundsEffect]. *)
Definition setDatabase (db : list VehicleRecord) (st : State) : State :=
  autoSave (mkState db (storage st) (suggestions st) (selectedRowKeys st)
                    (currentPage st)).

Definition setSelectedRowKeys (keys : gset string) (st : State) : State :=
  mkState (database st) (storage st) (suggestions st) keys (currentPage st).

Definition setSuggestions (l : list ExpansionSuggestion) (st : State)
  : State :=
  mkState (database st) (storage st) l (selectedRowKeys st) (currentPage st).

(** *** Merging *)

(** The [suggestions.forEach] loop of [confirmAddition]. *)
Definition newRecords (database : list VehicleRecord)
  (suggestions : list ExpansionSuggestion) : list VehicleRecord :=
  fold_left
    (fun newRecords s =>
       if negb (Utils.isDuplicate database s) then newRecords ++ [s]
       else newRecords)
    suggestions [].

(** The [importedData.forEach] loop of [handleImportCSV], on
    [mergedData] and [addedCount]. *)
Definition mergeImported (database importedData : list VehicleRecord)
  : list VehicleRecord * Z :=
  fold_left
    (fun '(mergedData, addedCount) record =>
       if negb (Utils.isDuplicate mergedData record) then
         (mergedData ++ [record], addedCount + 1)
       else (mergedData, addedCount))
    importedData (database, 0).

Section Handlers.

Variable localeCompare : string -> string -> Z.

Let sortDatabase := Utils.sortDatabase localeCompare.

(** The initial-load effect. *)
Definition initialLoad (st : State) : State :=
  match storage st with
  | Some (Snapshot parsed) => setDatabase parsed st
  | Some Unparsable | None =>
      let combined :=
        sortDatabase (INTERNAL_DB_MAIN ++ INTERNAL_DB_PREMIUM) in
      setDatabase combined st
  end.

(** [updatedDb] of [confirmAddition]. *)
Definition updatedDb (database : list VehicleRecord)
  (suggestions : list ExpansionSuggestion) : list VehicleRecord :=
  sortDatabase (database ++ newRecords database suggestions).

Definition confirmAddition (st : State) : State :=
  setSuggestions [] (setDatabase (updatedDb (database st) (suggestions st)) st).

(** [sorted] of [handleImportCSV]. *)
Definition importSorted (database importedData : list VehicleRecord)
  : list VehicleRecord :=
  sortDatabase (mergeImported database importedData).1.

(** [reader.onload] of [handleImportCSV].  An exception of [parseCSV]
    is caught and logged.  [None]: a decoded row leaves one of the six
    fields [undefined] (a header wider than the row).  The code goes on
    with such an object, cast to [VehicleRecord]: [isDuplicate] raises
    a TypeError on it or the merge takes it in.  The model does not
    follow the run there; statements on imports name the texts they
    cover ([decodesToRecords]). *)
Definition handleImportCSV (content : string) (st : State)
  : option State :=
  match Utils.parseCSV content with
  | Err _ => Some st
  | Ok importedData =>
      records ← mapM Js.asVehicle importedData;
      Some (setDatabase (importSorted (database st) records) st)
  end.

(** [handleDeleteSelected]; [confirmed] is the answer of
    [window.confirm]. *)
Definition handleDeleteSelected (confirmed : bool) (st : State) : State :=
  let count := size (selectedRowKeys st) in
  if (count =? 0)%nat then st
  else if confirmed then
    let keysToDelete := selectedRowKeys st in
    setSelectedRowKeys ∅
      (setDatabase
         (List.filter
            (fun record =>
               negb (bool_decide (getRecordKey (Some record) ∈ keysToDelete)))
            (database st))
         st)
  else st.

(** [handleCreateNew]: the dataset is emptied and the stored item
    removed. *)
Definition handleCreateNew (confirmed : bool) (st : State) : State :=
  if confirmed then
    mkState [] None (suggestions st) ∅ (currentPage st)
  else st.

(** [handleToggleRow] *)
Definition handleToggleRow (key : string) (st : State) : State :=
  let prev := selectedRowKeys st in
  setSelectedRowKeys
    (if bool_decide (key ∈ prev) then prev ∖ {[ key ]} else prev ∪ {[ key ]})
    st.

(** *** The component as a state machine *)

(** The component state when the page is loaded: every [useState] has its
    initial value; the stored item is what the browser kept. *)
Definition freshState (st : State) : State :=
  mkState [] (storage st) [] ∅ 1.

(** What happens to the component: it mounts, the provider answers with
    suggestions, the user confirms them, imports a text, ticks a row,
    deletes the selection or clears the dataset. *)
Inductive Event : Type :=
| Mount
| Suggested (newSuggestions : list ExpansionSuggestion)
| ConfirmAddition
| ImportCSV (content : string)
| ToggleRow (key : string)
| DeleteSelected (confirmed : bool)
| CreateNew (confirmed : bool).

Definition step (ev : Event) (st : State) : option State :=
  match ev with
  | Mount => Some (initialLoad (freshState st))
  | Suggested newSuggestions => Some (setSuggestions newSuggestions st)
  | ConfirmAddition => Some (confirmAddition st)
  | ImportCSV content => handleImportCSV content st
  | ToggleRow key => Some (handleToggleRow key st)
  | DeleteSelected confirmed => Some (handleDeleteSelected confirmed st)
  | CreateNew confirmed => Some (handleCreateNew confirmed st)
  end.

Fixpoint run (evs : list Event) (st : State) : option State :=
  match evs with
  | [] => Some st
  | ev :: evs' =>
      match step ev st with
      | Some st' => run evs' st'
      | None => None
      end
  end.

End Handlers.

(** The state before the component mounts, on a browser without a
    stored item. *)
Definition initialState : State := mkState [] None [] ∅ 1.

(** The stored item is the dataset in memory. *)
Definition writtenThrough (st : State) : Prop :=
  storage st = Some (Snapshot (database st)).

End App.

(** ** Sample data used by the examples *)

Module Sample.

(** A collation to run the sort on: comparison by code units.  No
    statement depends on which collation is taken. *)
Definition codeUnitCompare (a b : string) : Z :=
  match String.compare a b with
  | Lt => -1
  | Eq => 0
  | Gt => 1
  end.

Definition bmwPresent : VehicleRecord :=
  mkVehicle "BMW" "3 Series" "7" "G20" 2018 "Present".

Definition bmw2023 : VehicleRecord :=
  mkVehicle "BMW" "3 Series" "7" "G20" 2018 "2023".

Definition bmwYearZero : VehicleRecord :=
  mkVehicle "BMW" "3 Series" "7" "G20" 0 "Present".

Definition bmwPadded : VehicleRecord :=
  mkVehicle "BMW " "3 Series" "7" "G20" 2018 "Present".

Definition header : string :=
  "Manufacturer,Model,Generation,Model_Code,Start_Year,End_Year".

(** A header and the row of the specification whose year is "abc". *)
Definition badYearText : string :=
  header +:+ String Str.lineFeed "Toyota,Corolla,Mk5,E210,abc,Present".

(** A header with the columns in another order and one more column,
    and one row. *)
Definition reorderedText : string :=
  "End_Year,Note,Start_Year,Model_Code,Generation,Model,Manufacturer"
  +:+ String Str.lineFeed "Present,x,2018,G20,Mk7,3 Series,BMW".

(** The header of the specification that lacks three columns, and a row. *)
Definition missingColumnsText : string :=
  "Manufacturer,Model,Start_Year"
  +:+ String Str.lineFeed "Toyota,Corolla,2018".

(** A header, a blank line, and on line 3 a row whose year is "abc". *)
Definition blankLineText : string :=
  header +:+ String Str.lineFeed
    (String Str.lineFeed "Toyota,Corolla,Mk5,E210,abc,Present").

(** A header of seven columns with Generation last; a row of six cells
    with a good year; a row of seven cells whose year is "abc". *)
Definition wideHeader : string :=
  "Manufacturer,Model,Model_Code,Start_Year,End_Year,Note,Generation".

Definition wideHeaderText : string :=
  wideHeader
  +:+ String Str.lineFeed "Toyota,Corolla,E210,2018,Present,x"
  +:+ String Str.lineFeed "Toyota,Corolla,E210,abc,Present,x,Mk5".

(** A header and one row. *)
Definition oneRowText : string :=
  header +:+ String Str.lineFeed "BMW,3 Series,7,G20,2018,Present".

(** A header and three rows: a BMW, a Toyota, the same Toyota again. *)
Definition repeatedRowText : string :=
  header
  +:+ String Str.lineFeed "BMW,3 Series,7,G20,2018,2023"
  +:+ String Str.lineFeed "Toyota,Corolla,12,E210,2018,Present"
  +:+ String Str.lineFeed "toyota,corolla,12,e210,2018,2024".

Definition toyotaCorolla : VehicleRecord :=
  mkVehicle "Toyota" "Corolla" "12" "E210" 2018 "Present".

(** The user clears the seeded dataset, imports one record, ticks its
    row and deletes the selection. *)
Definition deleteTheOnlyRecord : list App.Event :=
  [ App.Mount;
    App.CreateNew true;
    App.ImportCSV (header +:+ String Str.lineFeed
                     "BMW,3 Series,7,G20,2018,Present");
    App.ToggleRow (App.getRecordKey (Some bmwPresent));
    App.DeleteSelected true ].

(** One record, saved, and selected for deletion. *)
Definition oneSelected : App.State :=
  App.mkState [bmwPresent] (Some (App.Snapshot [bmwPresent])) []
              {[ App.getRecordKey (Some bmwPresent) ]} 1.

End Sample.

(** ** Notions the statements are phrased with *)

(** The same record with another [End_Year]. *)
Definition withEndYear (e : string) (r : VehicleRecord) : VehicleRecord :=
  mkVehicle (Manufacturer r) (Model r) (Generation r) (Model_Code r)
            (Start_Year r) e.

(** The case-insensitive, trimmed form of a field's text. *)
Definition normalizedText (text : string) : string :=
  Str.toLowerCase (Str.trim text).

(** The identity key as the specification words it: the six field
    values, each in normalized form, joined by the delimiter. *)
Definition identityKeyAsSpecified (v : VehicleRecord) : string :=
  Str.join "##"
    (map normalizedText
       [ Manufacturer v; Model v; Generation v; Model_Code v;
         Num.toString (Start_Year v); End_Year v ]).

(** A text without the code unit [c]. *)
Definition freeOf (c : ascii) (text : string) : Prop :=
  Str.existsb (Ascii.eqb c) text = false.

(** A field the codec carries unchanged: no comma, no line feed, no
    white space at either end. *)
Definition plainText (text : string) : Prop :=
  freeOf "," text /\ freeOf Str.lineFeed text /\ Str.trim text = text.

(** A record the codec carries unchanged: plain text fields, a
    Generation that normalisation leaves alone, a Start_Year in the
    range where numbers are exact. *)
Definition roundTrips (r : VehicleRecord) : Prop :=
  plainText (Manufacturer r) /\ plainText (Model r)
  /\ plainText (Generation r) /\ plainText (Model_Code r)
  /\ plainText (End_Year r)
  /\ Utils.cleanGeneration (Generation r) = Generation r
  /\ Num.isSafeInteger (Start_Year r).

Definition commaFree (r : VehicleRecord) : Prop :=
  freeOf "," (Manufacturer r) /\ freeOf "," (Model r)
  /\ freeOf "," (Generation r) /\ freeOf "," (Model_Code r)
  /\ freeOf "," (End_Year r).

(** Conformance to the data model as the round-trip claim lists it:
    sorted, no two records with one identity key, comma-free fields,
    Generation already normalised. *)
Definition conformsAsClaimed (localeCompare : string -> string -> Z)
  (D : list VehicleRecord) : Prop :=
  Utils.sortDatabase localeCompare D = D
  /\ NoDup (map (fun r => App.getRecordKey (Some r)) D)
  /\ Forall commaFree D
  /\ Forall (fun r => Utils.cleanGeneration (Generation r) = Generation r) D.

(** A data row the decoder accepts: at least six cells. *)
Definition accepted (row : string) : bool :=
  negb (length (Utils.cells row) <? length Utils.expectedHeaders)%nat.

(** An accepted row with a Start_Year cell [parseInt] cannot read;
    [text] is that cell as the error message shows it. *)
Definition badYear (headers : list string) (row text : string) : Prop :=
  accepted row = true
  /\ exists j,
       headers !! j = Some "Start_Year"
       /\ Num.parseInt (Js.toString (Js.element (Utils.cells row) j)) = None
       /\ text = Js.toString (Js.element (Utils.cells row) j).

(** An accepted row that ends before a Generation column of the header. *)
Definition lacksGeneration (headers : list string) (row : string) : Prop :=
  accepted row = true
  /\ exists j,
       headers !! j = Some "Generation"
       /\ (length (Utils.cells row) <= j)%nat.

(** The object decoded from a row holds, under each expected name, the
    cell of the column of that name (the last one, if the header
    repeats the name): the parsed year, the normalised generation, the
    trimmed cell for the other fields. *)
Definition decodedByName (headers : list string) (row : string)
  (o : gmap string JsValue) : Prop :=
  forall j h,
    headers !! j = Some h -> h ∉ drop (S j) headers ->
    h ∈ Utils.expectedHeaders ->
    let cell := Js.element (Utils.cells row) j in
    if decide (h = "Start_Year") then
      exists n, Num.parseInt (Js.toString cell) = Some n
                /\ o !! h = Some (JsNumber n)
    else if decide (h = "Generation") then
      exists s, cell = JsString s
                /\ o !! h = Some (JsString (Utils.cleanGeneration s))
    else o !! h = Some cell.

(** The candidates of a batch that duplicate neither a record of [seen]
    nor a candidate before them in the batch: [seen] grows by every
    candidate passed. *)
Fixpoint firstOfKind (seen candidates : list VehicleRecord)
  : list VehicleRecord :=
  match candidates with
  | [] => []
  | c :: candidates' =>
      if Utils.isDuplicate seen c then firstOfKind (seen ++ [c]) candidates'
      else c :: firstOfKind (seen ++ [c]) candidates'
  end.

(** The predicate of the bulk deletion: the record's key is not selected. *)
Definition keyNotIn (keys : gset string) (record : VehicleRecord) : bool :=
  negb (bool_decide (App.getRecordKey (Some record) ∈ keys)).

(** What the auto-save effect maintains: a non-empty dataset is the
    stored item. *)
Definition savedWhenNonEmpty (st : App.State) : Prop :=
  App.database st <> [] -> App.writtenThrough st.

(** ** Further parts of [App.tsx]: filters, facets, pages, selection, log *)

Module Text.

(** [s.includes(sub)]: [sub] occurs in [s] at some position. *)
Fixpoint includes (s sub : string) : bool :=
  String.prefix sub s
  || match s with
     | EmptyString => false
     | String _ s' => includes s' sub
     end.

End Text.

Module View.

Definition PREDEFINED_MANUFACTURERS : list string :=
  ["Toyota"; "Hyundai"; "Skoda"; "Suzuki"; "BMW"; "Mercedes-Benz"].

(** [array.slice(start, end)]: a negative index counts from the end,
    every index is brought into [0, length]. *)
Definition sliceIndex (len k : Z) : Z :=
  if k <? 0 then Z.max (len + k) 0 else Z.min k len.

Definition slice {A} (l : list A) (start finish : Z) : list A :=
  let len := Z.of_nat (length l) in
  let from := sliceIndex len start in
  let to := sliceIndex len finish in
  take (Z.to_nat (to - from)) (drop (Z.to_nat from) l).

(** [Array.from(new Set(names))]: the first occurrence of each name, in
    order. *)
Fixpoint uniqueNames (names : list string) : list string :=
  match names with
  | [] => []
  | x :: names' =>
      x :: List.filter (fun y => negb (bool_decide (y = x))) (uniqueNames names')
  end.

Section Collation.

Variable localeCompare : string -> string -> Z.

(** [names.sort((a, b) => a.localeCompare(b))], a stable sort. *)
Fixpoint insertName (a : string) (l : list string) : list string :=
  match l with
  | [] => [a]
  | b :: l' => if localeCompare a b >? 0 then b :: insertName a l' else a :: l
  end.

Definition sortNames (names : list string) : list string :=
  foldr insertName [] names.

Definition availableManufacturers (database : list VehicleRecord)
  : list string :=
  let dbManufacturers := map Manufacturer database in
  let combined := PREDEFINED_MANUFACTURERS ++ dbManufacturers in
  sortNames (uniqueNames combined).

Definition availableModels (database : list VehicleRecord)
  (selectedManufacturer : string) : list string :=
  if bool_decide (selectedManufacturer = "ALL")
     || bool_decide (selectedManufacturer = "NEW")
  then []
  else
    let modelsForBrand :=
      map Model
        (List.filter
           (fun v => bool_decide (Str.toLowerCase (Manufacturer v)
                                  = Str.toLowerCase selectedManufacturer))
           database) in
    sortNames (uniqueNames modelsForBrand).

End Collation.

(** The names every object inherits from [Object.prototype].  Reading
    [counts[name]] for one of them gives a function or an object, not a
    count. *)
Definition inheritedNames : list string :=
  [ "constructor"; "__defineGetter__"; "__defineSetter__"; "hasOwnProperty";
    "__lookupGetter__"; "__lookupSetter__"; "isPrototypeOf";
    "propertyIsEnumerable"; "toString"; "valueOf"; "__proto__";
    "toLocaleString" ].

(** [manufacturerCounts]: [counts[m] = (counts[m] || 0) + 1] for every
    record.  [None]: a Manufacturer is an inherited name, and the value
    read for it is not a count. *)
Definition manufacturerCounts (database : list VehicleRecord)
  : option (gmap string Z) :=
  fold_left
    (fun counts v =>
       counts ← counts;
       if bool_decide (Manufacturer v ∈ inheritedNames) then None
       else
         Some (<[Manufacturer v := default 0 (counts !! Manufacturer v) + 1]>
                 counts))
    database (Some ∅).

(** The three filter inputs. *)
Record FilterState : Type := mkFilter {
  searchTerm : string;
  filterManufacturers : list string;
  filterYearRange : Z * Z
}.

(** The callback of [database.filter] in [filteredData]. *)
Definition matchesFilter (f : FilterState) (record : VehicleRecord) : bool :=
  let term := Str.toLowerCase (searchTerm f) in
  let matchesSearch :=
    Str.isEmpty (searchTerm f)
    || Text.includes (Str.toLowerCase (Manufacturer record)) term
    || Text.includes (Str.toLowerCase (Model record)) term
    || Text.includes (Str.toLowerCase (Model_Code record)) term in
  let matchesManufacturer :=
    (length (filterManufacturers f) =? 0)%nat
    || bool_decide (Manufacturer record ∈ filterManufacturers f) in
  let matchesYear :=
    (Start_Year record >=? (filterYearRange f).1)
    && (Start_Year record <=? (filterYearRange f).2) in
  matchesSearch && matchesManufacturer && matchesYear.

Definition filteredData (database : list VehicleRecord) (f : FilterState)
  : list VehicleRecord :=
  List.filter (matchesFilter f) database.

(** The filter inputs after [clearFilters]. *)
Definition clearFilters : FilterState := mkFilter "" [] (1950, 2025).

Definition toggleFilterManufacturer (m : string) (prev : list string)
  : list string :=
  if bool_decide (m ∈ prev) then
    List.filter (fun item => negb (bool_decide (item = m))) prev
  else prev ++ [m].

Definition paginatedData (filteredData : list VehicleRecord)
  (currentPage : Z) : list VehicleRecord :=
  let start := (currentPage - 1) * App.RECORDS_PER_PAGE in
  slice filteredData start (start + App.RECORDS_PER_PAGE).

Definition startRange (filteredData : list VehicleRecord) (currentPage : Z)
  : Z :=
  if (length filteredData =? 0)%nat then 0
  else (currentPage - 1) * App.RECORDS_PER_PAGE + 1.

Definition endRange (filteredData : list VehicleRecord) (currentPage : Z)
  : Z :=
  Z.min (currentPage * App.RECORDS_PER_PAGE) (Z.of_nat (length filteredData)).

(** The two page buttons. *)
Definition previousPage (prev : Z) : Z := Z.max 1 (prev - 1).

Definition nextPage (totalPages prev : Z) : Z := Z.min totalPages (prev + 1).

(** [allOnPageSelected] of the render. *)
Definition allOnPageSelected (paginatedData : list VehicleRecord)
  (selectedRowKeys : gset string) : bool :=
  (0 <? length paginatedData)%nat
  && forallb
       (fun v => bool_decide (App.getRecordKey (Some v) ∈ selectedRowKeys))
       paginatedData.

(** [handleToggleSelectPage]: the selection it sets. *)
Definition handleToggleSelectPage (paginatedData : list VehicleRecord)
  (selectedRowKeys : gset string) : gset string :=
  let pageKeys := map (fun v => App.getRecordKey (Some v)) paginatedData in
  let allOnPageSelected :=
    forallb (fun k => bool_decide (k ∈ selectedRowKeys)) pageKeys in
  if allOnPageSelected then
    fold_left (fun next k => next ∖ {[ k ]}) pageKeys selectedRowKeys
  else
    fold_left (fun next k => next ∪ {[ k ]}) pageKeys selectedRowKeys.

(** [addLog]; [time] is the text of [new Date().toLocaleTimeString()]. *)
Definition addLog (time message : string) (prev : list string)
  : list string :=
  slice (("[" +:+ time +:+ "] " +:+ message) :: prev) 0 50.

End View.

(** ** Further notions *)

(** A collation whose answer changes sign when its arguments are
    swapped. *)
Definition signAntisymmetric (localeCompare : string -> string -> Z) : Prop :=
  forall a b, Z.sgn (localeCompare b a) = - Z.sgn (localeCompare a b).

(** The comparator of [sortDatabase] does not put [b] before [a]. *)
Definition inOrder (localeCompare : string -> string -> Z)
  (a b : VehicleRecord) : Prop :=
  Utils.compareRecords localeCompare a b <= 0.

(** No record is a duplicate, in the sense of [isDuplicate], of a later
    one. *)
Fixpoint duplicateFree (l : list VehicleRecord) : bool :=
  match l with
  | [] => true
  | a :: l' => negb (Utils.isDuplicate l' a) && duplicateFree l'
  end.

(** The number of records of a manufacturer. *)
Definition countOf (m : string) (database : list VehicleRecord) : Z :=
  Z.of_nat (length (List.filter
                      (fun v => bool_decide (Manufacturer v = m)) database)).

(** [f] applied to the last element of a list. *)
Fixpoint mapLast {A} (f : A -> A) (l : list A) : list A :=
  match l with
  | [] => []
  | [x] => [f x]
  | x :: l' => x :: mapLast f l'
  end.

(** The text of a line with a carriage return at its end. *)
Definition withCR (line : string) : string :=
  line +:+ String "013" EmptyString.

(** A line, or that line with a carriage return at its end. *)
Definition sameLine (line' line : string) : Prop :=
  line' = line \/ line' = withCR line.

(** The five text fields are plain and the Generation is normalised. *)
Definition plainRecord (v : VehicleRecord) : Prop :=
  plainText (Manufacturer v) /\ plainText (Model v)
  /\ plainText (Generation v) /\ plainText (Model_Code v)
  /\ plainText (End_Year v)
  /\ Utils.cleanGeneration (Generation v) = Generation v.

(** The five text fields hold no ["#"]. *)
Definition hashFree (v : VehicleRecord) : Prop :=
  freeOf "#" (Manufacturer v) /\ freeOf "#" (Model v)
  /\ freeOf "#" (Generation v) /\ freeOf "#" (Model_Code v)
  /\ freeOf "#" (End_Year v).

(** Every Start_Year is an integer a number holds exactly. *)
Definition safeYears (l : list VehicleRecord) : Prop :=
  Forall (fun r => Num.isSafeInteger (Start_Year r)) l.

(** A text whose import stays within [VehicleRecord] and within exact
    numbers: its decode fails, or every object it yields has the six
    fields (no cell of theirs is missing from the row) and a Start_Year
    that is a safe integer. *)
Definition decodesToRecords (content : string) : Prop :=
  match Utils.parseCSV content with
  | Err _ => True
  | Ok objects =>
      match mapM Js.asVehicle objects with
      | Some records => safeYears records
      | None => False
      end
  end.

(** Every Start_Year the decode of a text yields is a safe integer. *)
Definition decodedYearsSafe (content : string) : Prop :=
  forall objects o n,
    Utils.parseCSV content = Ok objects -> o ∈ objects ->
    o !! "Start_Year" = Some (JsNumber n) -> Num.isSafeInteger n.

(** An event whose data is of that kind: suggestions with safe years,
    an imported text that decodes to records. *)
Definition eventInRange (ev : App.Event) : Prop :=
  match ev with
  | App.Suggested newSuggestions => safeYears newSuggestions
  | App.ImportCSV content => decodesToRecords content
  | _ => True
  end.

(** A state whose years are safe integers: those of the dataset, of the
    suggestions and of the stored item. *)
Definition stateInRange (st : App.State) : Prop :=
  safeYears (App.database st)
  /\ safeYears (App.suggestions st)
  /\ match App.storage st with
     | Some (App.Snapshot data) => safeYears data
     | _ => True
     end.

(** * Properties *)

(** ** Pagination *)

Lemma ceilDiv_spec (a b : Z) :
  0 < b -> (App.ceilDiv a b - 1) * b < a <= App.ceilDiv a b * b.
Proof.
  intros Hb. unfold App.ceilDiv.
  pose proof (Z.div_mod (a + b - 1) b ltac:(lia)) as Hdm.
  pose proof (Z.mod_pos_bound (a + b - 1) b Hb) as Hm.
  nia.
Qed.

(** C8: the page count is the ceiling of (view length / page size), at
    least 1 (so 1 for an empty view); a current page above the page
    count is set to the page count by the page-bounds effect, a page
    within bounds is left alone; a view of 120 records has 3 pages and
    page 5 becomes page 3. *)
Theorem C8_totalPages_is_clamped_ceiling :
  forall (view : list VehicleRecord) (currentPage : Z),
    let n := Z.of_nat (length view) in
    let pages := App.totalPages view in
    (exists c, (c - 1) * App.RECORDS_PER_PAGE < n <= c * App.RECORDS_PER_PAGE
               /\ pages = Z.max 1 c)
    /\ 1 <= pages
    /\ (view = [] -> pages = 1)
    /\ (currentPage > pages -> App.pageBoundsEffect pages currentPage = pages)
    /\ (currentPage <= pages ->
        App.pageBoundsEffect pages currentPage = currentPage)
    /\ App.pageBoundsEffect pages currentPage <= pages
    /\ (length view = 120%nat ->
        pages = 3 /\ App.pageBoundsEffect pages 5 = 3).
Proof.
  intros view currentPage n pages.
  assert (Hpos : 0 < App.RECORDS_PER_PAGE) by reflexivity.
  assert (H1 : 1 <= pages) by (unfold pages, App.totalPages; lia).
  repeat split.
  - exists (App.ceilDiv n App.RECORDS_PER_PAGE). split.
    + apply ceilDiv_spec, Hpos.
    + reflexivity.
  - exact H1.
  - intros ->. reflexivity.
  - intros Hgt. unfold App.pageBoundsEffect.
    destruct (Z.gtb_spec currentPage pages); [|lia].
    destruct (Z.gtb_spec pages 0); [reflexivity|lia].
  - intros Hle. unfold App.pageBoundsEffect.
    destruct (Z.gtb_spec currentPage pages); [lia|reflexivity].
  - unfold App.pageBoundsEffect.
    destruct (Z.gtb_spec currentPage pages); destruct (Z.gtb_spec pages 0);
      simpl; lia.
  - unfold pages, App.totalPages. rewrite H. reflexivity.
  - unfold pages, App.totalPages. rewrite H. reflexivity.
Qed.

Lemma C8_totalPages_witness :
  App.totalPages (repeat Sample.bmwPresent 120) = 3
  /\ App.pageBoundsEffect (App.totalPages (repeat Sample.bmwPresent 120)) 5 = 3.
Proof.
  apply (C8_totalPages_is_clamped_ceiling (repeat Sample.bmwPresent 120) 5).
  reflexivity.
Defined.

(** ** Strings *)

Lemma append_cons (c : ascii) (s t : string) :
  String c s +:+ t = String c (s +:+ t).
Proof. reflexivity. Qed.

Lemma append_empty_l (t : string) : "" +:+ t = t.
Proof. reflexivity. Qed.

Lemma existsb_append (p : ascii -> bool) (s t : string) :
  Str.existsb p (s +:+ t) = Str.existsb p s || Str.existsb p t.
Proof.
  induction s as [|c s IH]; [reflexivity|].
  rewrite append_cons. simpl. rewrite IH, orb_assoc. reflexivity.
Qed.

Lemma splitNE_free (c : ascii) (s : string) :
  freeOf c s -> Str.splitNE c s = (s, []).
Proof.
  unfold freeOf. induction s as [|d s IH]; simpl; [reflexivity|].
  intros H. apply orb_false_elim in H as [Hd H].
  rewrite (IH H). rewrite Ascii.eqb_sym, Hd. reflexivity.
Qed.

Lemma splitNE_free_then (c : ascii) (s rest : string) :
  freeOf c s ->
  Str.splitNE c (s +:+ String c rest) = (s, Str.split c rest).
Proof.
  unfold freeOf, Str.split. induction s as [|d s IH]; intros H.
  - rewrite append_empty_l. simpl. rewrite Ascii.eqb_refl.
    destruct (Str.splitNE c rest). reflexivity.
  - rewrite append_cons. simpl in *. apply orb_false_elim in H as [Hd H].
    rewrite (IH H). rewrite Ascii.eqb_sym, Hd.
    destruct (Str.splitNE c rest). reflexivity.
Qed.

(** Splitting a joined list of separator-free pieces gives the pieces. *)
Lemma split_join (c : ascii) (first : string) (parts : list string) :
  Forall (freeOf c) (first :: parts) ->
  Str.split c (Str.join (String c EmptyString) (first :: parts))
  = first :: parts.
Proof.
  revert first. induction parts as [|second parts IH]; intros first Hfree.
  - inversion Hfree; subst. unfold Str.split, Str.join. simpl.
    rewrite splitNE_free; auto.
  - inversion Hfree; subst. unfold Str.join in *.
    change (String.concat (String c "") (first :: second :: parts))
      with (first +:+ String c (String.concat (String c "")
                                               (second :: parts))).
    unfold Str.split at 1. rewrite splitNE_free_then by assumption.
    rewrite IH by assumption. reflexivity.
Qed.

Lemma trimEnd_no_space (s : string) :
  Str.existsb CodeUnit.isWhiteSpace s = false -> Str.trimEnd s = s.
Proof.
  induction s as [|c s IH]; simpl; [reflexivity|].
  intros H. apply orb_false_elim in H as [Hc H].
  rewrite Hc, (IH H). reflexivity.
Qed.

Lemma trim_no_space (s : string) :
  Str.existsb CodeUnit.isWhiteSpace s = false -> Str.trim s = s.
Proof.
  intros H. unfold Str.trim.
  assert (Hs : Str.trimStart s = s).
  { destruct s as [|c s]; simpl in *; [reflexivity|].
    apply orb_false_elim in H as [-> _]. reflexivity. }
  rewrite Hs. apply trimEnd_no_space, H.
Qed.

(** A text holding a code unit that is not white space is not blank. *)
Lemma trim_not_empty (s : string) :
  Str.existsb (fun c => negb (CodeUnit.isWhiteSpace c)) s = true ->
  Str.isEmpty (Str.trim s) = false.
Proof.
  unfold Str.trim. induction s as [|c s IH]; simpl; [discriminate|].
  destruct (CodeUnit.isWhiteSpace c) eqn:Hc; simpl.
  - exact IH.
  - intros _. rewrite Hc. reflexivity.
Qed.

(** ** Numbers *)

Lemma ofUint_no_space (u : uint) :
  Str.existsb CodeUnit.isWhiteSpace (Str.ofUint u) = false.
Proof. induction u; simpl; auto. Qed.

Lemma ofUint_free (c : ascii) (u : uint) :
  CodeUnit.isDigit c = false -> freeOf c (Str.ofUint u).
Proof.
  intros Hc. unfold freeOf.
  induction u; simpl; auto; rewrite IHu, orb_false_r;
    apply Ascii.eqb_neq; intros ->; discriminate.
Qed.

Lemma digitPrefix_ofUint (u : uint) : Str.digitPrefix (Str.ofUint u) = u.
Proof. induction u; simpl; [reflexivity|..]; unfold Str.digitOf; simpl; f_equal; exact IHu. Qed.

Lemma parseDigits_ofUint (u : uint) :
  u <> Nil -> Num.parseDigits (Str.ofUint u) = Some (Z.of_uint u).
Proof.
  intros Hu. unfold Num.parseDigits. rewrite digitPrefix_ofUint.
  destruct u; congruence.
Qed.

Lemma toString_no_space (n : Z) :
  Str.existsb CodeUnit.isWhiteSpace (Num.toString n) = false.
Proof.
  unfold Num.toString. destruct (Z.to_int n); simpl;
    apply ofUint_no_space.
Qed.

Lemma toString_free (c : ascii) (n : Z) :
  CodeUnit.isDigit c = false -> c <> "-"%char ->
  freeOf c (Num.toString n).
Proof.
  intros Hc Hm. unfold Num.toString.
  destruct (Z.to_int n).
  - apply ofUint_free, Hc.
  - unfold freeOf. simpl. rewrite (ofUint_free c _ Hc), orb_false_r.
    apply Ascii.eqb_neq. exact Hm.
Qed.

(** [parseInt(String(n), 10)] is [n]. *)
Lemma parseInt_toString (n : Z) : Num.parseInt (Num.toString n) = Some n.
Proof.
  unfold Num.parseInt, Num.toString.
  pose proof (DecimalZ.of_to n) as Hn.
  destruct (Z.to_int n) as [u|u] eqn:Hu.
  - assert (Hnil : u <> Nil).
    { destruct n; simpl in Hu; try discriminate; injection Hu as <-;
        [discriminate|apply DecimalPos.Unsigned.to_uint_nonnil]. }
    assert (Hs : Str.trimStart (Str.ofUint u) = Str.ofUint u).
    { destruct u; reflexivity. }
    rewrite Hs. simpl in Hn. rewrite <- Hn.
    rewrite <- (parseDigits_ofUint u Hnil).
    destruct u; try congruence; reflexivity.
  - assert (Hnil : u <> Nil).
    { destruct n; simpl in Hu; try discriminate.
      injection Hu as <-. apply DecimalPos.Unsigned.to_uint_nonnil. }
    simpl. rewrite (parseDigits_ofUint u Hnil). simpl in Hn.
    rewrite <- Hn. reflexivity.
Qed.

(** ** Generation normalisation *)

Lemma takeWhile_split (p : ascii -> bool) (s : string) :
  exists rest,
    s = Str.takeWhile p s +:+ rest
    /\ Str.forallb p (Str.takeWhile p s) = true
    /\ Str.headSatisfies p rest = false.
Proof.
  induction s as [|c s IH]; simpl.
  - exists "". auto.
  - destruct (p c) eqn:Hc.
    + destruct IH as (rest & Heq & Hall & Hhead).
      exists rest. simpl. rewrite Hc, Hall. repeat split; auto.
      rewrite append_cons. f_equal. exact Heq.
    + exists (String c s). simpl. auto.
Qed.

Lemma takeWhile_run (p : ascii -> bool) (run rest : string) :
  Str.forallb p run = true -> Str.headSatisfies p rest = false ->
  Str.takeWhile p (run +:+ rest) = run.
Proof.
  induction run as [|c run IH]; simpl; intros Hall Hhead.
  - destruct rest as [|d rest]; simpl in *; [reflexivity|].
    rewrite Hhead. reflexivity.
  - apply andb_prop in Hall as [Hc Hall]. rewrite Hc.
    f_equal. apply IH; assumption.
Qed.

Lemma matchDigits_no_digit (val : string) :
  Str.existsb CodeUnit.isDigit val = false -> Utils.matchDigits val = None.
Proof.
  induction val as [|c val IH]; simpl; [reflexivity|].
  intros H. apply orb_false_elim in H as [Hc H]. rewrite Hc. auto.
Qed.

Lemma matchDigits_first_run (pre run rest : string) :
  Str.existsb CodeUnit.isDigit pre = false ->
  run <> "" ->
  Str.forallb CodeUnit.isDigit run = true ->
  Str.headSatisfies CodeUnit.isDigit rest = false ->
  Utils.matchDigits (pre +:+ run +:+ rest) = Some run.
Proof.
  intros Hpre Hne Hrun Hrest.
  induction pre as [|c pre IH]; rewrite ?append_cons, ?append_empty_l;
    simpl in *.
  - destruct run as [|d run]; [congruence|].
    rewrite append_cons.
    pose proof (takeWhile_run CodeUnit.isDigit (String d run) rest Hrun Hrest)
      as Htw.
    simpl in *. apply andb_prop in Hrun as [Hd Hrun]. rewrite Hd in *.
    f_equal. exact Htw.
  - apply orb_false_elim in Hpre as [Hc Hpre]. rewrite Hc. auto.
Qed.

Lemma digit_run_exists (val : string) :
  Str.existsb CodeUnit.isDigit val = true ->
  exists pre run rest,
    val = pre +:+ run +:+ rest
    /\ Str.existsb CodeUnit.isDigit pre = false
    /\ run <> ""
    /\ Str.forallb CodeUnit.isDigit run = true
    /\ Str.headSatisfies CodeUnit.isDigit rest = false.
Proof.
  induction val as [|c val IH]; simpl; [discriminate|].
  destruct (CodeUnit.isDigit c) eqn:Hc; simpl.
  - intros _.
    destruct (takeWhile_split CodeUnit.isDigit (String c val))
      as (rest & Heq & Hall & Hhead).
    exists "", (Str.takeWhile CodeUnit.isDigit (String c val)), rest.
    repeat split; auto.
    simpl. rewrite Hc. discriminate.
  - intros H. destruct (IH H) as (pre & run & rest & Heq & Hpre & Hne & Hrun & Hrest).
    exists (String c pre), run, rest. simpl. rewrite Hc, Hpre.
    repeat split; auto. rewrite append_cons. f_equal. exact Heq.
Qed.

(** C9: [cleanGeneration] returns the first maximal run of decimal
    digits of its input (the digits that follow a digit-free prefix, up
    to the first non-digit or the end), such a run exists as soon as the
    input holds a digit, and an input without digits is returned
    unchanged; ["Mk5"] gives ["5"], ["Generation V"] is unchanged. *)
Theorem C9_cleanGeneration_first_digit_run :
  forall val : string,
    (forall pre run rest,
        val = pre +:+ run +:+ rest ->
        Str.existsb CodeUnit.isDigit pre = false ->
        run <> "" ->
        Str.forallb CodeUnit.isDigit run = true ->
        Str.headSatisfies CodeUnit.isDigit rest = false ->
        Utils.cleanGeneration val = run)
    /\ (Str.existsb CodeUnit.isDigit val = true ->
        exists pre run rest,
          val = pre +:+ run +:+ rest
          /\ Str.existsb CodeUnit.isDigit pre = false
          /\ run <> ""
          /\ Str.forallb CodeUnit.isDigit run = true
          /\ Str.headSatisfies CodeUnit.isDigit rest = false
          /\ Utils.cleanGeneration val = run)
    /\ (Str.existsb CodeUnit.isDigit val = false ->
        Utils.cleanGeneration val = val)
    /\ Utils.cleanGeneration "Mk5" = "5"
    /\ Utils.cleanGeneration "Generation V" = "Generation V".
Proof.
  intros val. repeat split.
  - intros pre run rest -> Hpre Hne Hrun Hrest.
    unfold Utils.cleanGeneration.
    rewrite (matchDigits_first_run pre run rest); auto.
  - intros H.
    destruct (digit_run_exists val H)
      as (pre & run & rest & Heq & Hpre & Hne & Hrun & Hrest).
    exists pre, run, rest. repeat split; auto.
    subst val. unfold Utils.cleanGeneration.
    rewrite (matchDigits_first_run pre run rest); auto.
  - intros H. unfold Utils.cleanGeneration.
    rewrite (matchDigits_no_digit val H). reflexivity.
Qed.

Lemma C9_cleanGeneration_witness :
  Utils.cleanGeneration "Mark 12 (E210)" = "12"
  /\ Utils.cleanGeneration "Generation V" = "Generation V".
Proof.
  split.
  - apply (proj1 (C9_cleanGeneration_first_digit_run "Mark 12 (E210)")
             "Mark " "12" " (E210)"); try reflexivity.
    discriminate.
  - apply (proj1 (proj2 (proj2
             (C9_cleanGeneration_first_digit_run "Generation V")))).
    reflexivity.
Defined.

(** ** The duplicate predicate *)

Lemma sameVehicle_spec (item record : VehicleRecord) :
  Utils.sameVehicle item record = true <->
  Str.toLowerCase (Manufacturer item) = Str.toLowerCase (Manufacturer record)
  /\ Str.toLowerCase (Model item) = Str.toLowerCase (Model record)
  /\ Str.toLowerCase (Generation item) = Str.toLowerCase (Generation record)
  /\ Str.toLowerCase (Model_Code item) = Str.toLowerCase (Model_Code record)
  /\ Start_Year item = Start_Year record.
Proof.
  unfold Utils.sameVehicle.
  rewrite !andb_true_iff, !bool_decide_eq_true. tauto.
Qed.

Lemma isDuplicate_spec (existing : list VehicleRecord) (record : VehicleRecord) :
  Utils.isDuplicate existing record = true <->
  exists item, item ∈ existing /\ Utils.sameVehicle item record = true.
Proof.
  unfold Utils.isDuplicate. rewrite existsb_exists.
  split; intros (item & Hin & Hsame); exists item; split; auto;
    apply list_elem_of_In; assumption.
Qed.

Lemma sameVehicle_withEndYear_r (e : string) (item record : VehicleRecord) :
  Utils.sameVehicle item (withEndYear e record) = Utils.sameVehicle item record.
Proof. reflexivity. Qed.

Lemma sameVehicle_withEndYear_l (e : string) (item record : VehicleRecord) :
  Utils.sameVehicle (withEndYear e item) record = Utils.sameVehicle item record.
Proof. reflexivity. Qed.

(** C4: [isDuplicate existing candidate] holds exactly when [existing]
    has a record whose Manufacturer, Model, Generation and Model_Code
    equal the candidate's after lower-casing and whose Start_Year is
    the candidate's; the End_Year of the candidate and of the existing
    records plays no part; the BMW 3 Series / 7 / G20 / 2018 records
    ending "Present" and "2023" are duplicates of each other. *)
Theorem C4_isDuplicate_iff_match_ignoring_End_Year :
  forall (existing : list VehicleRecord) (candidate : VehicleRecord),
    (Utils.isDuplicate existing candidate = true <->
     exists item,
       item ∈ existing
       /\ Str.toLowerCase (Manufacturer item)
          = Str.toLowerCase (Manufacturer candidate)
       /\ Str.toLowerCase (Model item) = Str.toLowerCase (Model candidate)
       /\ Str.toLowerCase (Generation item)
          = Str.toLowerCase (Generation candidate)
       /\ Str.toLowerCase (Model_Code item)
          = Str.toLowerCase (Model_Code candidate)
       /\ Start_Year item = Start_Year candidate)
    /\ (forall e,
          Utils.isDuplicate existing (withEndYear e candidate)
          = Utils.isDuplicate existing candidate)
    /\ (forall f : VehicleRecord -> string,
          Utils.isDuplicate (map (fun r => withEndYear (f r) r) existing)
                            candidate
          = Utils.isDuplicate existing candidate)
    /\ Utils.isDuplicate [Sample.bmwPresent] Sample.bmw2023 = true
    /\ Utils.isDuplicate [Sample.bmw2023] Sample.bmwPresent = true.
Proof.
  intros existing candidate. repeat split.
  - intros H. apply isDuplicate_spec in H as (item & Hin & Hsame).
    exists item. split; [exact Hin|]. apply sameVehicle_spec, Hsame.
  - intros (item & Hin & Hsame). apply isDuplicate_spec.
    exists item. split; [exact Hin|]. apply sameVehicle_spec, Hsame.
  - intros f. unfold Utils.isDuplicate.
    induction existing as [|r existing IH]; simpl; [reflexivity|].
    rewrite IH, sameVehicle_withEndYear_l. reflexivity.
Qed.

Lemma C4_isDuplicate_witness :
  Utils.isDuplicate [Sample.bmwPresent]
    (mkVehicle "bmw" "3 SERIES" "7" "g20" 2018 "2019") = true.
Proof.
  apply (proj1 (C4_isDuplicate_iff_match_ignoring_End_Year
                  [Sample.bmwPresent]
                  (mkVehicle "bmw" "3 SERIES" "7" "g20" 2018 "2019"))).
  exists Sample.bmwPresent. repeat split. apply list_elem_of_In. simpl. auto.
Defined.

(** ** The identity key *)

Lemma orEmpty_string (s : string) :
  Js.toString (App.orEmpty (JsString s)) = s.
Proof. destruct s; reflexivity. Qed.

Lemma keyPart_string (s : string) :
  App.keyPart (JsString s) = normalizedText s.
Proof. unfold App.keyPart. rewrite orEmpty_string. reflexivity. Qed.

Lemma keyPart_number (n : Z) :
  n <> 0 -> App.keyPart (JsNumber n) = normalizedText (Num.toString n).
Proof. intros Hn. destruct n; [congruence| |]; reflexivity. Qed.

(** C5, as the claim words it, fails on a record whose Start_Year is 0:
    [p || ''] turns the number 0 into the empty text, so the key holds
    an empty fifth part where the field's value reads "0". *)
Lemma C5_key_of_year_zero_differs :
  App.getRecordKey (Some Sample.bmwYearZero)
  <> identityKeyAsSpecified Sample.bmwYearZero.
Proof. vm_compute. discriminate. Qed.

(** C5 (amended): the identity key joins with ["##"], in the fixed
    order Manufacturer, Model, Generation, Model_Code, Start_Year,
    End_Year, the trimmed lower-case text of the six fields, a
    Start_Year of 0 giving the empty text; it is the empty string for a
    null argument; the two BMW records that differ only in End_Year
    have different keys. *)
Theorem C5_getRecordKey_joins_six_fields :
  forall v : VehicleRecord,
    (Start_Year v <> 0 ->
     App.getRecordKey (Some v) = identityKeyAsSpecified v)
    /\ (Start_Year v = 0 ->
        App.getRecordKey (Some v)
        = Str.join "##"
            [ normalizedText (Manufacturer v); normalizedText (Model v);
              normalizedText (Generation v); normalizedText (Model_Code v);
              ""; normalizedText (End_Year v) ])
    /\ App.getRecordKey None = ""
    /\ App.getRecordKey (Some Sample.bmwPresent)
       <> App.getRecordKey (Some Sample.bmw2023).
Proof.
  intros v. repeat split.
  - intros Hn. unfold App.getRecordKey, identityKeyAsSpecified.
    cbn [map]. rewrite !keyPart_string, (keyPart_number _ Hn). reflexivity.
  - intros Hz. unfold App.getRecordKey.
    cbn [map]. rewrite !keyPart_string, Hz. reflexivity.
  - vm_compute. discriminate.
Qed.

Lemma C5_getRecordKey_witness :
  App.getRecordKey (Some Sample.bmwPresent)
  = "bmw##3 series##7##g20##2018##present".
Proof.
  rewrite (proj1 (C5_getRecordKey_joins_six_fields Sample.bmwPresent)).
  - reflexivity.
  - discriminate.
Defined.

(** ** Bulk deletion *)

Lemma filter_bool_sublist {A} (p : A -> bool) (l : list A) :
  List.filter p l `sublist_of` l.
Proof.
  induction l as [|x l IH]; simpl; [constructor|].
  destruct (p x); constructor; exact IH.
Qed.

Lemma filter_bool_all {A} (p : A -> bool) (l : list A) :
  (forall x, p x = true) -> List.filter p l = l.
Proof.
  intros Hp. induction l as [|x l IH]; simpl; [reflexivity|].
  rewrite Hp, IH. reflexivity.
Qed.

Lemma filter_bool_elem_of {A} (p : A -> bool) (l : list A) (x : A) :
  x ∈ List.filter p l <-> x ∈ l /\ p x = true.
Proof. rewrite !list_elem_of_In. apply filter_In. Qed.

Lemma keyNotIn_true (keys : gset string) (record : VehicleRecord) :
  keyNotIn keys record = true <-> App.getRecordKey (Some record) ∉ keys.
Proof.
  unfold keyNotIn. rewrite negb_true_iff, bool_decide_eq_false. tauto.
Qed.

Lemma handleDeleteSelected_database (st : App.State) :
  App.database (App.handleDeleteSelected true st)
  = List.filter (keyNotIn (App.selectedRowKeys st)) (App.database st).
Proof.
  unfold App.handleDeleteSelected.
  destruct (Nat.eqb_spec (size (App.selectedRowKeys st)) 0) as [Hz|Hnz].
  - symmetry. apply filter_bool_all. intros r. apply keyNotIn_true.
    apply size_empty_inv in Hz. set_solver.
  - unfold App.setSelectedRowKeys, App.setDatabase, App.autoSave. simpl.
    destruct (_ <? _)%nat; reflexivity.
Qed.

(** C10: a confirmed bulk deletion leaves exactly the records whose key
    is not selected, unchanged and in their original order (the result
    is the dataset filtered by that test, a subsequence of it); a
    record goes exactly when its key is selected, so records sharing
    the key of a selected record go with it; a declined deletion
    changes nothing. *)
Theorem C10_delete_keeps_unselected_subsequence :
  forall st : App.State,
    let keys := App.selectedRowKeys st in
    let db := App.database st in
    let db' := App.database (App.handleDeleteSelected true st) in
    db' = List.filter
            (fun record =>
               negb (bool_decide (App.getRecordKey (Some record) ∈ keys)))
            db
    /\ db' `sublist_of` db
    /\ (forall r, r ∈ db' <-> r ∈ db /\ App.getRecordKey (Some r) ∉ keys)
    /\ (forall r r',
          r ∈ db -> r' ∈ db ->
          App.getRecordKey (Some r) ∈ keys ->
          App.getRecordKey (Some r') = App.getRecordKey (Some r) ->
          (r ∉ db') /\ (r' ∉ db'))
    /\ App.handleDeleteSelected false st = st.
Proof.
  intros st keys db db'.
  assert (Hdb : db' = List.filter (keyNotIn keys) db)
    by apply handleDeleteSelected_database.
  assert (Hmem : forall r,
             r ∈ db' <-> r ∈ db /\ App.getRecordKey (Some r) ∉ keys).
  { intros r. rewrite Hdb, filter_bool_elem_of, keyNotIn_true. tauto. }
  split; [exact Hdb|].
  split; [rewrite Hdb; apply filter_bool_sublist|].
  split; [exact Hmem|].
  split.
  - intros r r' _ _ Hsel Hsame. rewrite !Hmem, Hsame. tauto.
  - unfold App.handleDeleteSelected. destruct (_ =? _)%nat; reflexivity.
Qed.

Lemma C10_delete_witness :
  Sample.bmwPresent
    ∉ App.database
        (App.handleDeleteSelected true
           (App.mkState [Sample.bmwPresent; Sample.bmw2023; Sample.bmwPresent]
                        None []
                        {[ App.getRecordKey (Some Sample.bmwPresent) ]} 1)).
Proof.
  refine (proj1 (proj1 (proj2 (proj2 (proj2
    (C10_delete_keeps_unselected_subsequence
       (App.mkState [Sample.bmwPresent; Sample.bmw2023; Sample.bmwPresent]
                    None []
                    {[ App.getRecordKey (Some Sample.bmwPresent) ]} 1)))))
    Sample.bmwPresent Sample.bmwPresent _ _ _ _)).
  - apply list_elem_of_In. simpl. auto.
  - apply list_elem_of_In. simpl. auto.
  - simpl. set_solver.
  - reflexivity.
Defined.

(** ** Persistence *)

Lemma setDatabase_database (db : list VehicleRecord) (st : App.State) :
  App.database (App.setDatabase db st) = db.
Proof.
  unfold App.setDatabase, App.autoSave. simpl.
  destruct (_ <? _)%nat; reflexivity.
Qed.

Lemma setDatabase_saves_non_empty (db : list VehicleRecord) (st : App.State) :
  db <> [] -> App.storage (App.setDatabase db st) = Some (App.Snapshot db).
Proof.
  intros Hne. unfold App.setDatabase, App.autoSave. simpl.
  destruct db; [congruence|reflexivity].
Qed.

Lemma setDatabase_skips_empty (st : App.State) :
  App.storage (App.setDatabase [] st) = App.storage st.
Proof. reflexivity. Qed.

Lemma handleCreateNew_clears_storage (st : App.State) :
  App.storage (App.handleCreateNew true st) = None.
Proof. reflexivity. Qed.

(** ** Sorting and merging *)

Section SortFacts.

Variable localeCompare : string -> string -> Z.

Lemma insertSorted_perm (a : VehicleRecord) (l : list VehicleRecord) :
  Utils.insertSorted localeCompare a l ≡ₚ a :: l.
Proof.
  induction l as [|b l IH]; simpl; [reflexivity|].
  destruct (_ >? _); [|reflexivity].
  rewrite IH. apply Permutation_swap.
Qed.

Lemma sortDatabase_perm (data : list VehicleRecord) :
  Utils.sortDatabase localeCompare data ≡ₚ data.
Proof.
  unfold Utils.sortDatabase.
  induction data as [|a data IH]; simpl; [reflexivity|].
  rewrite insertSorted_perm, IH. reflexivity.
Qed.

Lemma sortDatabase_length (data : list VehicleRecord) :
  length (Utils.sortDatabase localeCompare data) = length data.
Proof. apply Permutation_length, sortDatabase_perm. Qed.

Lemma sortDatabase_nil_inv (data : list VehicleRecord) :
  Utils.sortDatabase localeCompare data = [] -> data = [].
Proof.
  intros H. apply Permutation_nil. rewrite <- H.
  apply sortDatabase_perm.
Qed.

End SortFacts.

Lemma sameVehicle_trans (a b c : VehicleRecord) :
  Utils.sameVehicle a b = true -> Utils.sameVehicle b c = true ->
  Utils.sameVehicle a c = true.
Proof.
  rewrite !sameVehicle_spec.
  intros (-> & -> & -> & -> & ->) H. exact H.
Qed.

Lemma isDuplicate_app (l1 l2 : list VehicleRecord) (c : VehicleRecord) :
  Utils.isDuplicate (l1 ++ l2) c
  = Utils.isDuplicate l1 c || Utils.isDuplicate l2 c.
Proof. apply existsb_app. Qed.

Lemma isDuplicate_absorbs (existing : list VehicleRecord)
  (c x : VehicleRecord) :
  Utils.isDuplicate existing c = true ->
  Utils.sameVehicle c x = true ->
  Utils.isDuplicate existing x = true.
Proof.
  rewrite !isDuplicate_spec. intros (item & Hin & Hsame) Hcx.
  exists item. split; [exact Hin|].
  eapply sameVehicle_trans; eassumption.
Qed.

Lemma newRecords_from (database : list VehicleRecord)
  (suggestions acc : list VehicleRecord) :
  fold_left
    (fun newRecords s =>
       if negb (Utils.isDuplicate database s) then newRecords ++ [s]
       else newRecords)
    suggestions acc
  = acc ++ List.filter (fun s => negb (Utils.isDuplicate database s))
                       suggestions.
Proof.
  revert acc. induction suggestions as [|s suggestions IH]; intros acc; simpl.
  - rewrite app_nil_r. reflexivity.
  - rewrite IH. destruct (negb _); [|reflexivity].
    rewrite <- app_assoc. reflexivity.
Qed.

Lemma newRecords_filter (database suggestions : list VehicleRecord) :
  App.newRecords database suggestions
  = List.filter (fun s => negb (Utils.isDuplicate database s)) suggestions.
Proof. unfold App.newRecords. rewrite newRecords_from. reflexivity. Qed.

(** The import loop keeps [mergedData] equivalent, as a set to test
    duplicates against, to the dataset followed by every candidate
    passed so far. *)
Lemma mergeImported_from (importedData mergedData seen : list VehicleRecord)
  (addedCount : Z) :
  (forall x, Utils.isDuplicate mergedData x = Utils.isDuplicate seen x) ->
  fold_left
    (fun '(mergedData, addedCount) record =>
       if negb (Utils.isDuplicate mergedData record) then
         (mergedData ++ [record], addedCount + 1)
       else (mergedData, addedCount))
    importedData (mergedData, addedCount)
  = (mergedData ++ firstOfKind seen importedData,
     addedCount + Z.of_nat (length (firstOfKind seen importedData))).
Proof.
  revert mergedData seen addedCount.
  induction importedData as [|c importedData IH];
    intros mergedData seen addedCount Hsame; simpl.
  - rewrite app_nil_r, Z.add_0_r. reflexivity.
  - rewrite <- (Hsame c).
    destruct (Utils.isDuplicate mergedData c) eqn:Hdup; simpl.
    + apply IH. intros x. rewrite isDuplicate_app, <- Hsame.
      unfold Utils.isDuplicate at 3. simpl. rewrite orb_false_r.
      destruct (Utils.sameVehicle c x) eqn:Hcx.
      * rewrite orb_true_r. eapply isDuplicate_absorbs; eassumption.
      * rewrite orb_false_r. reflexivity.
    + rewrite (IH (mergedData ++ [c]) (seen ++ [c]) (addedCount + 1)).
      * rewrite <- app_assoc. simpl. f_equal. lia.
      * intros x. rewrite !isDuplicate_app, Hsame. reflexivity.
Qed.

Lemma mergeImported_firstOfKind (database importedData : list VehicleRecord) :
  App.mergeImported database importedData
  = (database ++ firstOfKind database importedData,
     Z.of_nat (length (firstOfKind database importedData))).
Proof.
  unfold App.mergeImported.
  rewrite (mergeImported_from importedData database database 0); auto.
Qed.

(** C1, as the claim words it, fails on the import path: the loop of
    [handleImportCSV] tests each candidate against [mergedData], which
    already holds the candidates accepted before it.  Importing the same
    record twice into an empty dataset gives one record, not two. *)
Lemma C1_import_cross_checks_the_batch :
  length (App.importSorted Sample.codeUnitCompare []
            [Sample.bmwPresent; Sample.bmwPresent])
  <> (length (@nil VehicleRecord)
      + length (List.filter (fun c => negb (Utils.isDuplicate [] c))
                            [Sample.bmwPresent; Sample.bmwPresent]))%nat.
Proof. vm_compute. discriminate. Qed.

(** C1 (amended): the merge on confirmation tests each candidate, in
    input order, against the dataset as it stood before the batch, and
    the result is the dataset followed by the accepted candidates,
    sorted; its size is |D| plus the number of candidates that are not
    duplicates of D.  The merge on import tests each candidate against
    the dataset and the candidates accepted before it in the batch; its
    result is the dataset followed by the candidates that duplicate
    neither a record of D nor an earlier candidate, sorted, and its size
    is |D| plus their number, which is [addedCount]. *)
Theorem C1_merge_sizes :
  forall (localeCompare : string -> string -> Z)
         (D C : list VehicleRecord),
    let fresh := List.filter (fun c => negb (Utils.isDuplicate D c)) C in
    App.updatedDb localeCompare D C
      = Utils.sortDatabase localeCompare (D ++ fresh)
    /\ App.updatedDb localeCompare D C ≡ₚ D ++ fresh
    /\ length (App.updatedDb localeCompare D C)
       = (length D + length fresh)%nat
    /\ App.importSorted localeCompare D C
       = Utils.sortDatabase localeCompare (D ++ firstOfKind D C)
    /\ App.importSorted localeCompare D C ≡ₚ D ++ firstOfKind D C
    /\ length (App.importSorted localeCompare D C)
       = (length D + length (firstOfKind D C))%nat
    /\ (App.mergeImported D C).2 = Z.of_nat (length (firstOfKind D C)).
Proof.
  intros localeCompare D C fresh.
  assert (Hup : App.updatedDb localeCompare D C
                = Utils.sortDatabase localeCompare (D ++ fresh)).
  { unfold App.updatedDb. rewrite newRecords_filter. reflexivity. }
  assert (Him : App.importSorted localeCompare D C
                = Utils.sortDatabase localeCompare (D ++ firstOfKind D C)).
  { unfold App.importSorted. rewrite mergeImported_firstOfKind. reflexivity. }
  repeat split.
  - exact Hup.
  - rewrite Hup. apply sortDatabase_perm.
  - rewrite Hup, sortDatabase_length, length_app. reflexivity.
  - exact Him.
  - rewrite Him. apply sortDatabase_perm.
  - rewrite Him, sortDatabase_length, length_app. reflexivity.
  - rewrite mergeImported_firstOfKind. reflexivity.
Qed.

(** ** The codec *)

Lemma fieldValue_plain (i : Z) (header : string) (val : JsValue) :
  header <> "Start_Year" -> header <> "Generation" ->
  Utils.fieldValue i header val = Ok val.
Proof.
  intros Hy Hg. unfold Utils.fieldValue.
  destruct (decide (header = "Start_Year")); [congruence|]. simpl.
  destruct (decide (header = "Generation")); [congruence|]. reflexivity.
Qed.

Lemma fieldValue_year (i : Z) (val : JsValue) :
  Utils.fieldValue i "Start_Year" val
  = match Num.parseInt (Js.toString val) with
    | None => Err (RowParseError (i + 1) (Js.toString val))
    | Some parsedYear => Ok (JsNumber parsedYear)
    end.
Proof.
  unfold Utils.fieldValue.
  destruct (decide ("Start_Year" = "Start_Year")); [|congruence].
  destruct (Num.parseInt (Js.toString val)); reflexivity.
Qed.

Lemma fieldValue_generation (i : Z) (val : JsValue) :
  Utils.fieldValue i "Generation" val
  = match val with
    | JsString s => Ok (JsString (Utils.cleanGeneration s))
    | _ => Err TypeError
    end.
Proof. destruct val; reflexivity. Qed.

Lemma csvRow_fields (r : VehicleRecord) :
  Utils.csvRow r
  = Str.join ","
      [ Manufacturer r; Model r; Generation r; Model_Code r;
        Num.toString (Start_Year r); End_Year r ].
Proof. destruct r. reflexivity. Qed.

Lemma cells_csvRow (r : VehicleRecord) :
  roundTrips r ->
  Utils.cells (Utils.csvRow r)
  = [ Manufacturer r; Model r; Generation r; Model_Code r;
      Num.toString (Start_Year r); End_Year r ].
Proof.
  intros ((Hm1 & _ & Hm3) & (Ho1 & _ & Ho3) & (Hg1 & _ & Hg3)
          & (Hc1 & _ & Hc3) & (He1 & _ & He3) & _ & _).
  unfold Utils.cells. rewrite csvRow_fields, split_join.
  - simpl. rewrite Hm3, Ho3, Hg3, Hc3, He3.
    rewrite (trim_no_space _ (toString_no_space _)). reflexivity.
  - repeat constructor; auto.
    apply toString_free; [reflexivity|discriminate].
Qed.

Lemma join_cons2 (sep first second : string) (parts : list string) :
  Str.join sep (first :: second :: parts)
  = first +:+ sep +:+ Str.join sep (second :: parts).
Proof. reflexivity. Qed.

Lemma nonBlank_csvRow (r : VehicleRecord) :
  Utils.nonBlank (Utils.csvRow r) = true.
Proof.
  unfold Utils.nonBlank. rewrite trim_not_empty; [reflexivity|].
  rewrite csvRow_fields, join_cons2, !existsb_append.
  apply orb_true_iff. right. reflexivity.
Qed.

Lemma csvRow_one_line (r : VehicleRecord) :
  roundTrips r -> freeOf Str.lineFeed (Utils.csvRow r).
Proof.
  intros ((_ & Hm & _) & (_ & Ho & _) & (_ & Hg & _)
          & (_ & Hc & _) & (_ & He & _) & _ & _).
  pose proof (toString_free Str.lineFeed (Start_Year r) eq_refl
                ltac:(discriminate)) as Hy.
  unfold freeOf in *. rewrite csvRow_fields.
  rewrite !join_cons2, !existsb_append.
  unfold Str.join. simpl String.concat.
  rewrite Hm, Ho, Hg, Hc, He, Hy. reflexivity.
Qed.

Lemma fillRecord_csvRow (i : Z) (r : VehicleRecord) :
  roundTrips r ->
  Utils.fillRecord i (Utils.cells (Utils.csvRow r)) Utils.expectedHeaders 0 ∅
  = Ok (Js.ofVehicle r).
Proof.
  intros Hr. rewrite (cells_csvRow r Hr).
  destruct Hr as (_ & _ & _ & _ & _ & Hgen & _).
  unfold Utils.expectedHeaders. cbn [Utils.fillRecord].
  rewrite !fieldValue_plain by discriminate.
  rewrite fieldValue_generation, fieldValue_year.
  cbn [Js.element lookup list_lookup Js.toString bindResult].
  rewrite parseInt_toString, Hgen. reflexivity.
Qed.

Lemma parseRows_csvRows (i : Z) (D : list VehicleRecord) :
  Forall roundTrips D ->
  Utils.parseRows Utils.expectedHeaders (map Utils.csvRow D) i
  = Ok (map Js.ofVehicle D).
Proof.
  intros HD. revert i. induction HD as [|r D Hr HD IH]; intros i.
  - reflexivity.
  - cbn [map Utils.parseRows].
    rewrite (fillRecord_csvRow i r Hr), (cells_csvRow r Hr), IH.
    reflexivity.
Qed.

Lemma filter_bool_Forall {A} (p : A -> bool) (l : list A) :
  Forall (fun x => p x = true) l -> List.filter p l = l.
Proof.
  induction 1 as [|x l Hx _ IH]; simpl; [reflexivity|].
  rewrite Hx, IH. reflexivity.
Qed.

Lemma nonBlankLines_convertToCSV (D : list VehicleRecord) :
  Forall roundTrips D ->
  Utils.nonBlankLines (Utils.convertToCSV D)
  = Str.join "," Utils.expectedHeaders :: map Utils.csvRow D.
Proof.
  intros HD. unfold Utils.nonBlankLines, Utils.convertToCSV.
  rewrite split_join.
  - apply filter_bool_Forall. constructor; [reflexivity|].
    apply Forall_map, Forall_forall. intros r _. apply nonBlank_csvRow.
  - constructor; [reflexivity|].
    apply Forall_map. eapply Forall_impl; [exact HD|].
    intros r Hr. apply csvRow_one_line, Hr.
Qed.

(** C3, as the claim words it, fails: a sorted, duplicate-free dataset
    with comma-free fields and a normalised Generation whose
    Manufacturer ends in a space comes back with the space trimmed. *)
Lemma C3_padded_field_is_not_reproduced :
  conformsAsClaimed Sample.codeUnitCompare [Sample.bmwPadded]
  /\ Utils.parseCSV (Utils.convertToCSV [Sample.bmwPadded])
     <> Ok (map Js.ofVehicle [Sample.bmwPadded]).
Proof.
  split.
  - repeat split.
    + repeat constructor. set_solver.
    + repeat constructor.
    + repeat constructor.
  - intros H.
    apply (f_equal (fun result =>
                      match result with
                      | Ok (o :: _) => (o : gmap string JsValue) !! "Manufacturer"
                      | _ => None
                      end)) in H.
    vm_compute in H. discriminate.
Qed.

(** C3 (amended): for every dataset whose text fields hold no comma, no
    line feed and no white space at either end, whose Generation is
    left alone by the normalisation and whose Start_Year is an exactly
    represented integer, decoding the encoded dataset gives the records
    of the dataset, in order and field for field.  Being sorted or free
    of duplicates is not needed. *)
Theorem C3_parseCSV_convertToCSV_round_trip :
  forall D : list VehicleRecord,
    Forall roundTrips D ->
    Utils.parseCSV (Utils.convertToCSV D) = Ok (map Js.ofVehicle D)
    /\ (forall objects,
          Utils.parseCSV (Utils.convertToCSV D) = Ok objects ->
          mapM Js.asVehicle objects = Some D).
Proof.
  intros D HD.
  assert (Hparse : Utils.parseCSV (Utils.convertToCSV D)
                   = Ok (map Js.ofVehicle D)).
  { unfold Utils.parseCSV. rewrite (nonBlankLines_convertToCSV D HD).
    destruct D as [|r D]; [reflexivity|].
    cbn [map].
    change (Utils.cells (Str.join "," Utils.expectedHeaders))
      with Utils.expectedHeaders.
    change (Utils.isValidHeader Utils.expectedHeaders) with true.
    cbn iota.
    apply (parseRows_csvRows 1 (r :: D) HD). }
  split; [exact Hparse|].
  intros objects Hobj. rewrite Hparse in Hobj. injection Hobj as <-.
  apply mapM_Some. clear. induction D as [|r D IH]; constructor; auto.
  destruct r. reflexivity.
Qed.

Lemma C3_round_trip_witness :
  Utils.parseCSV (Utils.convertToCSV INTERNAL_DB_PREMIUM)
  = Ok (map Js.ofVehicle INTERNAL_DB_PREMIUM).
Proof.
  apply (C3_parseCSV_convertToCSV_round_trip INTERNAL_DB_PREMIUM).
  repeat constructor; vm_compute; congruence.
Defined.

(** *** Errors of the decoder *)

(** The loop index of row [S k] counted from [i] is that of row [k]
    counted from [i + 1]. *)
Ltac next_row :=
  match goal with
  | |- context [?i + Z.of_nat (S ?k)] =>
      replace (i + Z.of_nat (S k)) with (i + 1 + Z.of_nat k) by lia
  end.

Ltac next_row_in H :=
  match type of H with
  | context [?i + Z.of_nat (S ?k)] =>
      replace (i + Z.of_nat (S k)) with (i + 1 + Z.of_nat k) in H by lia
  end.

Lemma fieldValue_error (i : Z) (header : string) (val : JsValue) (e : Error) :
  Utils.fieldValue i header val = Err e ->
  (header = "Start_Year"
   /\ Num.parseInt (Js.toString val) = None
   /\ e = RowParseError (i + 1) (Js.toString val))
  \/ (header = "Generation"
      /\ (forall s, val <> JsString s)
      /\ e = TypeError).
Proof.
  destruct (decide (header = "Start_Year")) as [->|Hy].
  - rewrite fieldValue_year.
    destruct (Num.parseInt (Js.toString val)) eqn:Hp; [discriminate|].
    intros [= <-]. left. auto.
  - destruct (decide (header = "Generation")) as [->|Hg].
    + rewrite fieldValue_generation.
      destruct val; try discriminate; intros [= <-]; right;
        repeat split; congruence.
    + rewrite fieldValue_plain by assumption. discriminate.
Qed.

Lemma fillRecord_error (i : Z) (values headers : list string) (index : nat)
  (record : gmap string JsValue) (e : Error) :
  Utils.fillRecord i values headers index record = Err e ->
  exists j header,
    headers !! j = Some header
    /\ Utils.fieldValue i header (Js.element values (index + j)) = Err e.
Proof.
  revert index record.
  induction headers as [|header headers IH]; intros index record; simpl.
  - discriminate.
  - destruct (Utils.fieldValue i header (Js.element values index)) as [val|e']
      eqn:Hval; simpl.
    + intros H. apply IH in H as (j & h & Hj & Hf).
      exists (S j), h. split; [exact Hj|].
      rewrite Nat.add_succ_r. exact Hf.
    + intros [= <-]. exists 0%nat, header. split; [reflexivity|].
      rewrite Nat.add_0_r. exact Hval.
Qed.

Lemma fillRecord_bad_year (i : Z) (values headers : list string)
  (index j : nat) (record : gmap string JsValue) :
  headers !! j = Some "Start_Year" ->
  Num.parseInt (Js.toString (Js.element values (index + j))) = None ->
  exists e, Utils.fillRecord i values headers index record = Err e.
Proof.
  revert index j record.
  induction headers as [|header headers IH]; intros index j record Hj Hp.
  - discriminate.
  - simpl.
    destruct (Utils.fieldValue i header (Js.element values index)) as [val|e']
      eqn:Hval; simpl; [|eauto].
    destruct j as [|j].
    + injection Hj as ->. rewrite Nat.add_0_r in Hp.
      rewrite fieldValue_year, Hp in Hval. discriminate.
    + apply (IH (S index) j); [exact Hj|].
      rewrite Nat.add_succ_comm. exact Hp.
Qed.

(** The error of a row loop that meets a failing row is the error of
    the first failing row. *)
Lemma parseRows_first_error (headers rows : list string) (i : Z) (k : nat)
  (row : string) (e0 : Error) :
  rows !! k = Some row ->
  accepted row = true ->
  Utils.fillRecord (i + Z.of_nat k) (Utils.cells row) headers 0 ∅ = Err e0 ->
  exists e k' row',
    (k' <= k)%nat
    /\ rows !! k' = Some row'
    /\ accepted row' = true
    /\ Utils.fillRecord (i + Z.of_nat k') (Utils.cells row') headers 0 ∅
       = Err e
    /\ Utils.parseRows headers rows i = Err e.
Proof.
  revert i k. induction rows as [|line rows IH]; intros i k Hk Hacc Hfail.
  - discriminate.
  - cbn [Utils.parseRows].
    destruct k as [|k].
    + injection Hk as ->. unfold accepted in Hacc.
      apply negb_true_iff in Hacc. rewrite Hacc.
      rewrite Z.add_0_r in Hfail. rewrite Hfail.
      exists e0, 0%nat, row. repeat split; auto.
      * unfold accepted. rewrite Hacc. reflexivity.
      * rewrite Z.add_0_r. exact Hfail.
    + assert (Hrec : exists e k' row',
                 (k' <= k)%nat /\ rows !! k' = Some row'
                 /\ accepted row' = true
                 /\ Utils.fillRecord (i + 1 + Z.of_nat k') (Utils.cells row')
                                     headers 0 ∅ = Err e
                 /\ Utils.parseRows headers rows (i + 1) = Err e).
      { apply (IH (i + 1) k); auto.
        next_row_in Hfail. exact Hfail. }
      destruct Hrec as (e & k' & row' & Hle & Hk' & Hacc' & Hfill & Hrows).
      destruct (length (Utils.cells line) <? length Utils.expectedHeaders)%nat
        eqn:Hshort.
      * exists e, (S k'), row'. repeat split; auto; [lia|].
        next_row.
        exact Hfill.
      * destruct (Utils.fillRecord i (Utils.cells line) headers 0 ∅)
          as [record|e1] eqn:Hline; simpl.
        -- rewrite Hrows. simpl.
           exists e, (S k'), row'. repeat split; auto; [lia|].
           next_row.
           exact Hfill.
        -- exists e1, 0%nat, line. repeat split; auto; [lia| |].
           ++ unfold accepted. rewrite Hshort. reflexivity.
           ++ rewrite Z.add_0_r. exact Hline.
Qed.

Lemma parseRows_error (headers rows : list string) (i : Z) (e : Error) :
  Utils.parseRows headers rows i = Err e ->
  exists k row,
    rows !! k = Some row
    /\ accepted row = true
    /\ Utils.fillRecord (i + Z.of_nat k) (Utils.cells row) headers 0 ∅ = Err e.
Proof.
  revert i. induction rows as [|line rows IH]; intros i; cbn [Utils.parseRows].
  - discriminate.
  - destruct (length (Utils.cells line) <? length Utils.expectedHeaders)%nat
      eqn:Hshort.
    + intros H. apply IH in H as (k & row & Hk & Hacc & Hfill).
      exists (S k), row. repeat split; auto.
      next_row.
      exact Hfill.
    + destruct (Utils.fillRecord i (Utils.cells line) headers 0 ∅)
        as [record|e1] eqn:Hline; simpl.
      * destruct (Utils.parseRows headers rows (i + 1)) as [results|e2]
          eqn:Hrows; simpl; [discriminate|].
        intros [= <-].
        destruct (IH (i + 1) Hrows) as (k & row & Hk & Hacc & Hfill).
        exists (S k), row. repeat split; auto.
        next_row.
        exact Hfill.
      * intros [= <-]. exists 0%nat, line. repeat split; auto.
        -- unfold accepted. rewrite Hshort. reflexivity.
        -- rewrite Z.add_0_r. exact Hline.
Qed.

Lemma parseRows_not_FormatError (headers rows : list string) (i : Z) :
  Utils.parseRows headers rows i <> Err FormatError.
Proof.
  intros H. apply parseRows_error in H as (k & row & _ & _ & H).
  apply fillRecord_error in H as (j & header & _ & H).
  apply fieldValue_error in H as [(_ & _ & H)|(_ & _ & H)]; discriminate.
Qed.

Lemma filter_lookup_unskipped {A} (p : A -> bool) (l : list A) (m : nat)
  (x : A) :
  List.filter p l !! m = Some x ->
  forallb p (take (S m) l) = true ->
  l !! m = Some x.
Proof.
  revert m. induction l as [|a l IH]; intros m Hm Hall; [discriminate|].
  simpl in Hall. apply andb_prop in Hall as [Ha Hall].
  simpl in Hm. rewrite Ha in Hm.
  destruct m as [|m]; [exact Hm|].
  apply IH; assumption.
Qed.

Lemma handleImportCSV_error (localeCompare : string -> string -> Z)
  (content : string) (st : App.State) (e : Error) :
  Utils.parseCSV content = Err e ->
  App.handleImportCSV localeCompare content st = Some st.
Proof. intros H. unfold App.handleImportCSV. rewrite H. reflexivity. Qed.

(** X27: when the header is valid and a data row of at least six cells
    has a Start_Year cell that [parseInt] cannot read, the decode
    fails, the import is aborted and the dataset (with the rest of the
    state) is left as it was.  The error is that of the first
    failing row, at or before the given one.  A RowParseError carries
    the failing cell's text and the row's number, counted from 1 over
    the non-blank lines: the row's line number in the text when no
    blank line precedes it.  A TypeError arises only from a row that
    ends before a Generation column of the header. *)
Theorem X27_bad_year_aborts_import :
  forall (localeCompare : string -> string -> Z) (content : string)
         (st : App.State) (line0 : string) (rows : list string)
         (k : nat) (row text : string),
    Utils.nonBlankLines content = line0 :: rows ->
    Utils.isValidHeader (Utils.cells line0) = true ->
    rows !! k = Some row ->
    badYear (Utils.cells line0) row text ->
    exists e,
      Utils.parseCSV content = Err e
      /\ App.handleImportCSV localeCompare content st = Some st
      /\ exists k' row',
           (k' <= k)%nat
           /\ rows !! k' = Some row'
           /\ match e with
              | FormatError => False
              | RowParseError line text' =>
                  badYear (Utils.cells line0) row' text'
                  /\ line = Z.of_nat k' + 2
                  /\ (forallb Utils.nonBlank
                              (take (k' + 2) (Str.split Str.lineFeed content))
                      = true ->
                      Str.split Str.lineFeed content !! (k' + 1)%nat
                      = Some row')
              | TypeError => lacksGeneration (Utils.cells line0) row'
              end.
Proof.
  intros localeCompare content st line0 rows k row text
         Hlines Hvalid Hk (Hacc & j & Hj & Hnan & _).
  destruct (fillRecord_bad_year (1 + Z.of_nat k) (Utils.cells row)
              (Utils.cells line0) 0 j ∅ Hj Hnan) as (e0 & Hfail).
  destruct (parseRows_first_error (Utils.cells line0) rows 1 k row e0
              Hk Hacc Hfail)
    as (e & k' & row' & Hle & Hk' & Hacc' & Hfill & Hrows).
  assert (Hparse : Utils.parseCSV content = Err e).
  { unfold Utils.parseCSV. rewrite Hlines.
    destruct rows as [|r rows]; [discriminate|].
    rewrite Hvalid. exact Hrows. }
  exists e. split; [exact Hparse|].
  split; [exact (handleImportCSV_error _ _ _ _ Hparse)|].
  exists k', row'. split; [exact Hle|]. split; [exact Hk'|].
  apply fillRecord_error in Hfill as (j' & header & Hj' & Hfield).
  apply fieldValue_error in Hfield
    as [(-> & Hnan' & ->)|(-> & Hundef & ->)].
  - split; [|split].
    + split; [exact Hacc'|]. exists j'. auto.
    + lia.
    + intros Hall.
      apply (filter_lookup_unskipped Utils.nonBlank).
      * fold (Utils.nonBlankLines content). rewrite Hlines.
        rewrite Nat.add_1_r. exact Hk'.
      * rewrite <- Hall. f_equal. f_equal. lia.
  - split; [exact Hacc'|]. exists j'. split; [exact Hj'|].
    simpl in Hundef. unfold Js.element in Hundef.
    destruct (Utils.cells row' !! j') eqn:Hcell.
    + exfalso. eapply Hundef. reflexivity.
    + apply lookup_ge_None. exact Hcell.
Qed.

Lemma X27_bad_year_witness :
  exists e,
    Utils.parseCSV Sample.badYearText = Err e
    /\ App.handleImportCSV Sample.codeUnitCompare Sample.badYearText
         Sample.oneSelected
       = Some Sample.oneSelected
    /\ exists k' row',
         (k' <= 0)%nat
         /\ ["Toyota,Corolla,Mk5,E210,abc,Present"] !! k' = Some row'
         /\ match e with
            | FormatError => False
            | RowParseError line text' =>
                badYear (Utils.cells Sample.header) row' text'
                /\ line = Z.of_nat k' + 2
                /\ (forallb Utils.nonBlank
                            (take (k' + 2)
                               (Str.split Str.lineFeed Sample.badYearText))
                    = true ->
                    Str.split Str.lineFeed Sample.badYearText !! (k' + 1)%nat
                    = Some row')
            | TypeError => lacksGeneration (Utils.cells Sample.header) row'
            end.
Proof.
  apply (X27_bad_year_aborts_import Sample.codeUnitCompare Sample.badYearText
           Sample.oneSelected Sample.header
           ["Toyota,Corolla,Mk5,E210,abc,Present"] 0
           "Toyota,Corolla,Mk5,E210,abc,Present" "abc").
  - vm_compute. reflexivity.
  - vm_compute. reflexivity.
  - reflexivity.
  - split; [vm_compute; reflexivity|].
    exists 4%nat. repeat split.
Defined.

(** The row of the specification: line 2, text "abc". *)
Example parseCSV_bad_year_text :
  Utils.parseCSV Sample.badYearText = Err (RowParseError 2 "abc").
Proof. vm_compute. reflexivity. Qed.

(** C6 fails on the code in two ways; in both the import is aborted and
    the state is left as it was.  The number in a RowParseError is the
    row's position among the non-blank lines, not its line number: in
    a text whose second line is blank and whose third line holds the
    year "abc", the error names line 2.  And with a valid header wider
    than a row, the decode can fail in [cleanGeneration] before the bad
    year of a later row is read: the error is then a TypeError, not a
    RowParseError. *)
Theorem C6_error_names_wrong_line_or_kind :
  (Str.split Str.lineFeed Sample.blankLineText !! 2%nat
   = Some "Toyota,Corolla,Mk5,E210,abc,Present"
   /\ Utils.parseCSV Sample.blankLineText = Err (RowParseError 2 "abc")
   /\ App.handleImportCSV Sample.codeUnitCompare Sample.blankLineText
        Sample.oneSelected
      = Some Sample.oneSelected)
  /\ (Utils.isValidHeader (Utils.cells Sample.wideHeader) = true
      /\ Str.split Str.lineFeed Sample.wideHeaderText !! 2%nat
         = Some "Toyota,Corolla,E210,abc,Present,x,Mk5"
      /\ badYear (Utils.cells Sample.wideHeader)
           "Toyota,Corolla,E210,abc,Present,x,Mk5" "abc"
      /\ Utils.parseCSV Sample.wideHeaderText = Err TypeError
      /\ App.handleImportCSV Sample.codeUnitCompare Sample.wideHeaderText
           Sample.oneSelected
         = Some Sample.oneSelected).
Proof.
  split.
  - split; [vm_compute; reflexivity|].
    split; [vm_compute; reflexivity|].
    apply (handleImportCSV_error _ _ _ (RowParseError 2 "abc")).
    vm_compute. reflexivity.
  - split; [vm_compute; reflexivity|].
    split; [vm_compute; reflexivity|].
    split.
    + split; [vm_compute; reflexivity|].
      exists 3%nat. repeat split.
    + split; [vm_compute; reflexivity|].
      apply (handleImportCSV_error _ _ _ TypeError).
      vm_compute. reflexivity.
Qed.

(** *** Decoding by column name *)

Lemma setProperty_lookup_ne (record : gmap string JsValue)
  (header h : string) (val : JsValue) :
  h <> header -> Js.setProperty record header val !! h = record !! h.
Proof.
  intros Hne. unfold Js.setProperty. case_decide; [reflexivity|].
  apply lookup_insert_ne. congruence.
Qed.

Lemma setProperty_lookup_eq (record : gmap string JsValue)
  (header : string) (val : JsValue) :
  header <> "__proto__" ->
  Js.setProperty record header val !! header = Some val.
Proof.
  intros Hne. unfold Js.setProperty. case_decide; [congruence|].
  apply lookup_insert_eq.
Qed.

Lemma fillRecord_preserves (i : Z) (values headers : list string)
  (index : nat) (record r : gmap string JsValue) (h : string) :
  Utils.fillRecord i values headers index record = Ok r ->
  h ∉ headers -> r !! h = record !! h.
Proof.
  revert index record.
  induction headers as [|header headers IH]; intros index record; simpl.
  - intros [= <-] _. reflexivity.
  - destruct (Utils.fieldValue i header (Js.element values index)) as [val|e];
      simpl; [|discriminate].
    intros Hfill Hnotin. apply not_elem_of_cons in Hnotin as [Hne Hnotin].
    rewrite (IH _ _ Hfill Hnotin). apply setProperty_lookup_ne, Hne.
Qed.

Lemma fillRecord_lookup (i : Z) (values headers : list string)
  (index j : nat) (record r : gmap string JsValue) (h : string) :
  Utils.fillRecord i values headers index record = Ok r ->
  headers !! j = Some h -> h ∉ drop (S j) headers -> h <> "__proto__" ->
  exists v,
    Utils.fieldValue i h (Js.element values (index + j)) = Ok v
    /\ r !! h = Some v.
Proof.
  revert index j record.
  induction headers as [|header headers IH]; intros index j record; simpl.
  - discriminate.
  - destruct (Utils.fieldValue i header (Js.element values index)) as [val|e]
      eqn:Hval; simpl; [|discriminate].
    intros Hfill Hj Hlast Hproto. destruct j as [|j].
    + injection Hj as ->. rewrite Nat.add_0_r. exists val.
      split; [exact Hval|]. simpl in Hlast.
      rewrite (fillRecord_preserves _ _ _ _ _ _ _ Hfill Hlast).
      apply setProperty_lookup_eq, Hproto.
    + rewrite Nat.add_succ_r. apply (IH (S index) j _ Hfill Hj Hlast Hproto).
Qed.

Lemma fillRecord_decodedByName (i : Z) (headers : list string) (row : string)
  (o : gmap string JsValue) :
  Utils.fillRecord i (Utils.cells row) headers 0 ∅ = Ok o ->
  decodedByName headers row o.
Proof.
  intros Hfill j h Hj Hlast Hexp cell.
  assert (Hproto : h <> "__proto__").
  { intros ->. apply list_elem_of_In in Hexp. simpl in Hexp.
    intuition discriminate. }
  destruct (fillRecord_lookup _ _ _ _ _ _ _ _ Hfill Hj Hlast Hproto)
    as (v & Hv & Hlook).
  simpl in Hv. fold cell in Hv.
  destruct (decide (h = "Start_Year")) as [->|Hy].
  - rewrite fieldValue_year in Hv.
    destruct (Num.parseInt (Js.toString cell)) as [n|]; [|discriminate].
    injection Hv as <-. eauto.
  - destruct (decide (h = "Generation")) as [->|Hg].
    + rewrite fieldValue_generation in Hv.
      destruct cell as [|s|n]; try discriminate.
      injection Hv as <-. eauto.
    + rewrite fieldValue_plain in Hv by assumption.
      injection Hv as <-. exact Hlook.
Qed.

(** A successful row loop gives one object per accepted row, in order. *)
Lemma parseRows_ok (headers rows : list string) (i : Z)
  (objects : list (gmap string JsValue)) :
  Utils.parseRows headers rows i = Ok objects ->
  Forall2 (decodedByName headers) (List.filter accepted rows) objects.
Proof.
  revert i objects.
  induction rows as [|line rows IH]; intros i objects; cbn [Utils.parseRows].
  - intros [= <-]. constructor.
  - cbn [List.filter]. unfold accepted at 1.
    destruct (length (Utils.cells line) <? length Utils.expectedHeaders)%nat;
      cbn [negb].
    + apply IH.
    + destruct (Utils.fillRecord i (Utils.cells line) headers 0 ∅)
        as [record|e] eqn:Hline; simpl; [|discriminate].
      destruct (Utils.parseRows headers rows (i + 1)) as [results|e]
        eqn:Hrows; simpl; [|discriminate].
      intros [= <-]. constructor.
      * eapply fillRecord_decodedByName, Hline.
      * eapply IH, Hrows.
Qed.

Lemma isValidHeader_spec (headers : list string) :
  Utils.isValidHeader headers = true <->
  forall h, h ∈ Utils.expectedHeaders -> h ∈ headers.
Proof.
  unfold Utils.isValidHeader, Utils.includes. rewrite forallb_forall.
  split; intros H h Hh.
  - apply list_elem_of_In in Hh. apply H in Hh.
    apply bool_decide_eq_true in Hh. exact Hh.
  - apply bool_decide_eq_true, H, list_elem_of_In, Hh.
Qed.

(** C2, as the claim words it, fails for a text with fewer than two
    non-blank lines: the decoder returns the empty list, it does not
    raise a FormatError. *)
Lemma C2_header_alone_decodes_to_nothing :
  (length (Utils.nonBlankLines Sample.header) < 2)%nat
  /\ Utils.parseCSV Sample.header <> Err FormatError
  /\ Utils.parseCSV Sample.header = Ok [].
Proof. vm_compute. repeat split; [lia|discriminate]. Qed.

(** C2 (amended): a text with fewer than two non-blank lines decodes to
    the empty list without an error.  The decode fails with a
    FormatError exactly when the text has at least two non-blank lines
    and the trimmed fields of the first of them do not contain all six
    expected names; the import then leaves the state, and so the
    dataset, as it was.  With a valid header every accepted row gives
    one object whose six fields are read from the columns of those
    names, wherever they stand and whatever other columns there are. *)
Theorem C2_FormatError_iff_header_incomplete :
  forall (localeCompare : string -> string -> Z) (content : string)
         (st : App.State),
    let lines := Utils.nonBlankLines content in
    ((length lines < 2)%nat -> Utils.parseCSV content = Ok [])
    /\ (Utils.parseCSV content = Err FormatError <->
        (2 <= length lines)%nat
        /\ exists line0,
             lines !! 0%nat = Some line0
             /\ ~ (forall h, h ∈ Utils.expectedHeaders ->
                             h ∈ Utils.cells line0))
    /\ (Utils.parseCSV content = Err FormatError ->
        App.handleImportCSV localeCompare content st = Some st)
    /\ (forall objects,
          (2 <= length lines)%nat ->
          Utils.parseCSV content = Ok objects ->
          exists line0 rows,
            lines = line0 :: rows
            /\ (forall h, h ∈ Utils.expectedHeaders -> h ∈ Utils.cells line0)
            /\ Forall2 (decodedByName (Utils.cells line0))
                       (List.filter accepted rows) objects).
Proof.
  intros localeCompare content st lines.
  unfold Utils.parseCSV. fold lines.
  destruct lines as [|line0 [|row rows]] eqn:Hlines.
  - repeat split; simpl; try lia; try discriminate.
  - repeat split; simpl; try lia; try discriminate.
  - destruct (Utils.isValidHeader (Utils.cells line0)) eqn:Hvalid.
    + pose proof (proj1 (isValidHeader_spec _) Hvalid) as Hall.
      split; [simpl; lia|]. split; [split|split].
      * intros H. exfalso. eapply parseRows_not_FormatError, H.
      * intros (_ & l0 & [= <-] & Hnot). contradiction.
      * intros H. exfalso. eapply parseRows_not_FormatError, H.
      * intros objects _ Hok. exists line0, (row :: rows).
        split; [reflexivity|]. split; [exact Hall|].
        apply (parseRows_ok _ _ _ _ Hok).
    + assert (Hnot : ~ (forall h, h ∈ Utils.expectedHeaders ->
                                  h ∈ Utils.cells line0)).
      { intros Hall. apply isValidHeader_spec in Hall. congruence. }
      split; [simpl; lia|]. split; [split|split].
      * intros _. split; [simpl; lia|]. exists line0. auto.
      * reflexivity.
      * intros _. unfold App.handleImportCSV, Utils.parseCSV.
        fold lines. rewrite Hlines, Hvalid. reflexivity.
      * discriminate.
Qed.

Lemma C2_missing_columns_witness :
  Utils.parseCSV Sample.missingColumnsText = Err FormatError
  /\ App.handleImportCSV Sample.codeUnitCompare Sample.missingColumnsText
       Sample.oneSelected
     = Some Sample.oneSelected.
Proof.
  assert (H : Utils.parseCSV Sample.missingColumnsText = Err FormatError).
  { apply (proj1 (proj2 (C2_FormatError_iff_header_incomplete
                           Sample.codeUnitCompare Sample.missingColumnsText
                           Sample.oneSelected))).
    split; [vm_compute; lia|].
    exists "Manufacturer,Model,Start_Year". split; [vm_compute; reflexivity|].
    intros Hall.
    assert (Hin : "End_Year" ∈ Utils.cells "Manufacturer,Model,Start_Year")
      by (apply Hall, list_elem_of_In; simpl; auto 10).
    apply list_elem_of_In in Hin. vm_compute in Hin.
    intuition discriminate. }
  split; [exact H|].
  apply (proj1 (proj2 (proj2 (C2_FormatError_iff_header_incomplete
                                Sample.codeUnitCompare
                                Sample.missingColumnsText
                                Sample.oneSelected)))).
  exact H.
Defined.

(** Columns in another order, with one more column, decode by name. *)
Example parseCSV_reordered_columns :
  (res ← match Utils.parseCSV Sample.reorderedText with
         | Ok objects => Some objects
         | Err _ => None
         end;
   mapM Js.asVehicle res)
  = Some [Sample.bmwPresent].
Proof. vm_compute. reflexivity. Qed.

(** ** Persistence along a run *)

Section WriteThrough.

Variable localeCompare : string -> string -> Z.

Lemma setDatabase_saved (db : list VehicleRecord) (st : App.State) :
  savedWhenNonEmpty (App.setDatabase db st).
Proof.
  intros Hne. unfold App.writtenThrough.
  rewrite setDatabase_database in *.
  apply setDatabase_saves_non_empty, Hne.
Qed.

Lemma step_saved (ev : App.Event) (st st' : App.State) :
  savedWhenNonEmpty st ->
  App.step localeCompare ev st = Some st' ->
  savedWhenNonEmpty st'.
Proof.
  intros Hst Hstep. destruct ev as [|l| |content|key|confirmed|confirmed];
    simpl in Hstep.
  - injection Hstep as <-. unfold App.initialLoad.
    destruct (App.storage (App.freshState st)) as [[parsed|]|];
      apply setDatabase_saved.
  - injection Hstep as <-. exact Hst.
  - injection Hstep as <-. unfold App.confirmAddition.
    intros Hne. apply (setDatabase_saved _ st Hne).
  - unfold App.handleImportCSV in Hstep.
    destruct (Utils.parseCSV content) as [importedData|e].
    + destruct (mapM Js.asVehicle importedData) as [records|];
        [|discriminate].
      injection Hstep as <-. apply setDatabase_saved.
    + injection Hstep as <-. exact Hst.
  - injection Hstep as <-. exact Hst.
  - injection Hstep as <-. unfold App.handleDeleteSelected.
    destruct (_ =? _)%nat; [exact Hst|].
    destruct confirmed; [|exact Hst].
    intros Hne. apply (setDatabase_saved _ st Hne).
  - injection Hstep as <-. destruct confirmed; [|exact Hst].
    intros Hne. simpl in Hne. congruence.
Qed.

Lemma run_saved (evs : list App.Event) (st st' : App.State) :
  savedWhenNonEmpty st ->
  App.run localeCompare evs st = Some st' ->
  savedWhenNonEmpty st'.
Proof.
  revert st. induction evs as [|ev evs IH]; intros st Hst; simpl.
  - intros [= <-]. exact Hst.
  - destruct (App.step localeCompare ev st) as [st1|] eqn:Hstep;
      [|discriminate].
    apply IH. eapply step_saved; eassumption.
Qed.

End WriteThrough.

(** C7 fails when a deletion empties the dataset.  The auto-save effect
    writes only a non-empty dataset: after the user has cleared the
    seeds, imported one record, ticked it and deleted the selection,
    the dataset is empty while the stored item still holds the deleted
    record, and the next mount loads it again. *)
Theorem C7_delete_all_keeps_stale_snapshot :
  exists st,
    App.run Sample.codeUnitCompare Sample.deleteTheOnlyRecord App.initialState
    = Some st
    /\ App.database st = []
    /\ App.storage st = Some (App.Snapshot [Sample.bmwPresent])
    /\ ~ App.writtenThrough st
    /\ App.database (App.initialLoad Sample.codeUnitCompare st)
       = [Sample.bmwPresent].
Proof.
  eexists. split; [vm_compute; reflexivity|].
  repeat split. intros H. unfold App.writtenThrough in H. simpl in H.
  discriminate.
Qed.


(** * Further properties *)

#[local] Set Warnings "-clear-no-such-hyp".

(** ** The sort *)

Lemma codeUnitCompare_antisym : signAntisymmetric Sample.codeUnitCompare.
Proof.
  intros a b. unfold Sample.codeUnitCompare.
  rewrite (String.compare_antisym a b).
  destruct (String.compare b a); reflexivity.
Qed.

Section SortOrder.

Variable localeCompare : string -> string -> Z.

Lemma compareRecords_swap (a b : VehicleRecord) :
  signAntisymmetric localeCompare ->
  Utils.compareRecords localeCompare a b > 0 ->
  Utils.compareRecords localeCompare b a <= 0.
Proof.
  intros Hanti. unfold Utils.compareRecords.
  pose proof (Hanti (Manufacturer a) (Manufacturer b)) as Hm.
  pose proof (Hanti (Model a) (Model b)) as Ho.
  pose proof (Z.sgn_spec (localeCompare (Manufacturer a) (Manufacturer b))).
  pose proof (Z.sgn_spec (localeCompare (Manufacturer b) (Manufacturer a))).
  pose proof (Z.sgn_spec (localeCompare (Model a) (Model b))).
  pose proof (Z.sgn_spec (localeCompare (Model b) (Model a))).
  repeat match goal with
         | |- context [?x =? 0] => destruct (Z.eqb_spec x 0)
         end; simpl; lia.
Qed.

Lemma insertSorted_ordered (a : VehicleRecord) (l : list VehicleRecord) :
  signAntisymmetric localeCompare ->
  Sorted (inOrder localeCompare) l ->
  Sorted (inOrder localeCompare) (Utils.insertSorted localeCompare a l).
Proof.
  intros Hanti. induction l as [|b l IH]; intros Hl; simpl.
  - repeat constructor.
  - apply Sorted_inv in Hl as [Hl Hb].
    destruct (Z.gtb_spec (Utils.compareRecords localeCompare a b) 0) as [Hgt|Hle].
    + constructor; [apply IH, Hl|].
      destruct l as [|c l]; simpl.
      * constructor. apply compareRecords_swap; [exact Hanti|lia].
      * destruct (Utils.compareRecords localeCompare a c >? 0).
        -- constructor. apply HdRel_inv in Hb. exact Hb.
        -- constructor. apply compareRecords_swap; [exact Hanti|lia].
    + constructor; [constructor; assumption|].
      constructor. exact Hle.
Qed.

Lemma sortDatabase_ordered (data : list VehicleRecord) :
  signAntisymmetric localeCompare ->
  Sorted (inOrder localeCompare) (Utils.sortDatabase localeCompare data).
Proof.
  intros Hanti. unfold Utils.sortDatabase.
  induction data as [|a data IH]; simpl; [constructor|].
  apply insertSorted_ordered; assumption.
Qed.

Lemma sortDatabase_keeps_ordered (data : list VehicleRecord) :
  Sorted (inOrder localeCompare) data ->
  Utils.sortDatabase localeCompare data = data.
Proof.
  unfold Utils.sortDatabase.
  induction data as [|a data IH]; intros Hs; simpl; [reflexivity|].
  apply Sorted_inv in Hs as [Hs Ha]. rewrite (IH Hs).
  destruct data as [|b data]; simpl; [reflexivity|].
  apply HdRel_inv in Ha. unfold inOrder in Ha.
  destruct (Z.gtb_spec (Utils.compareRecords localeCompare a b) 0);
    [lia|reflexivity].
Qed.

End SortOrder.

(** X1: when the collation changes sign with the order of its
    arguments, [sortDatabase] returns the records of its input, each as
    often as in the input, with every record in order before the next:
    Manufacturer first, then Model, then Start_Year. *)
Theorem X1_sortDatabase_orders_a_rearrangement :
  forall (localeCompare : string -> string -> Z) (data : list VehicleRecord),
    signAntisymmetric localeCompare ->
    Sorted (inOrder localeCompare) (Utils.sortDatabase localeCompare data)
    /\ Utils.sortDatabase localeCompare data ≡ₚ data.
Proof.
  intros localeCompare data Hanti. split.
  - apply sortDatabase_ordered, Hanti.
  - apply sortDatabase_perm.
Qed.

Lemma X1_sortDatabase_witness :
  Sorted (inOrder Sample.codeUnitCompare)
    (Utils.sortDatabase Sample.codeUnitCompare
       (INTERNAL_DB_MAIN ++ INTERNAL_DB_PREMIUM))
  /\ Utils.sortDatabase Sample.codeUnitCompare
       (INTERNAL_DB_MAIN ++ INTERNAL_DB_PREMIUM)
     ≡ₚ INTERNAL_DB_MAIN ++ INTERNAL_DB_PREMIUM.
Proof.
  apply (X1_sortDatabase_orders_a_rearrangement Sample.codeUnitCompare
           (INTERNAL_DB_MAIN ++ INTERNAL_DB_PREMIUM)).
  exact codeUnitCompare_antisym.
Defined.

(** X2: [sortDatabase] returns an input that is already in order
    unchanged, and, when the collation changes sign with the order of
    its arguments, sorting a second time changes nothing. *)
Theorem X2_sortDatabase_idempotent :
  forall (localeCompare : string -> string -> Z) (data : list VehicleRecord),
    (Sorted (inOrder localeCompare) data ->
     Utils.sortDatabase localeCompare data = data)
    /\ (signAntisymmetric localeCompare ->
        Utils.sortDatabase localeCompare
          (Utils.sortDatabase localeCompare data)
        = Utils.sortDatabase localeCompare data).
Proof.
  intros localeCompare data. split.
  - apply sortDatabase_keeps_ordered.
  - intros Hanti.
    apply sortDatabase_keeps_ordered, sortDatabase_ordered, Hanti.
Qed.

Lemma X2_sortDatabase_witness :
  Utils.sortDatabase Sample.codeUnitCompare
    (Utils.sortDatabase Sample.codeUnitCompare
       (INTERNAL_DB_MAIN ++ INTERNAL_DB_PREMIUM))
  = Utils.sortDatabase Sample.codeUnitCompare
      (INTERNAL_DB_MAIN ++ INTERNAL_DB_PREMIUM).
Proof.
  apply (proj2 (X2_sortDatabase_idempotent Sample.codeUnitCompare
                  (INTERNAL_DB_MAIN ++ INTERNAL_DB_PREMIUM))).
  exact codeUnitCompare_antisym.
Defined.

(** ** Generation and year texts *)

Lemma takeWhile_all (p : ascii -> bool) (s : string) :
  Str.forallb p s = true -> Str.takeWhile p s = s.
Proof.
  induction s as [|c s IH]; simpl; [reflexivity|].
  intros H. apply andb_prop in H as [Hc H]. rewrite Hc, (IH H). reflexivity.
Qed.

Lemma matchDigits_digits (run : string) :
  run <> "" -> Str.forallb CodeUnit.isDigit run = true ->
  Utils.matchDigits run = Some run.
Proof.
  intros Hne Hall. destruct run as [|c run]; [congruence|].
  pose proof (takeWhile_all _ _ Hall) as Htw.
  simpl in *. apply andb_prop in Hall as [Hc _]. rewrite Hc in *.
  f_equal. exact Htw.
Qed.

Lemma cleanGeneration_shape (val : string) :
  (Utils.cleanGeneration val <> ""
   /\ Str.forallb CodeUnit.isDigit (Utils.cleanGeneration val) = true)
  \/ (Utils.cleanGeneration val = val
      /\ Str.existsb CodeUnit.isDigit val = false).
Proof.
  destruct (Str.existsb CodeUnit.isDigit val) eqn:Hd.
  - destruct (digit_run_exists val Hd)
      as (pre & run & rest & -> & Hpre & Hne & Hrun & Hrest).
    left. unfold Utils.cleanGeneration.
    rewrite (matchDigits_first_run pre run rest); auto.
  - right. unfold Utils.cleanGeneration.
    rewrite (matchDigits_no_digit val Hd). auto.
Qed.

(** X3: normalising a Generation twice is normalising it once, and a
    normalised Generation is either a non-empty text of digits only or
    the unchanged input, which then holds no digit. *)
Theorem X3_cleanGeneration_idempotent :
  forall val : string,
    Utils.cleanGeneration (Utils.cleanGeneration val)
    = Utils.cleanGeneration val
    /\ ((Utils.cleanGeneration val <> ""
         /\ Str.forallb CodeUnit.isDigit (Utils.cleanGeneration val) = true)
        \/ (Utils.cleanGeneration val = val
            /\ Str.existsb CodeUnit.isDigit val = false)).
Proof.
  intros val. destruct (Str.existsb CodeUnit.isDigit val) eqn:Hd.
  - destruct (digit_run_exists val Hd)
      as (pre & run & rest & -> & Hpre & Hne & Hrun & Hrest).
    assert (Hc : Utils.cleanGeneration (pre +:+ run +:+ rest) = run).
    { unfold Utils.cleanGeneration.
      rewrite (matchDigits_first_run pre run rest); auto. }
    rewrite Hc. split; [|left; auto].
    unfold Utils.cleanGeneration. rewrite matchDigits_digits; auto.
  - assert (Hc : Utils.cleanGeneration val = val).
    { unfold Utils.cleanGeneration.
      rewrite (matchDigits_no_digit val Hd). reflexivity. }
    rewrite !Hc. split; [reflexivity|right; auto].
Qed.

Lemma digitOf_not_digit (c : ascii) :
  CodeUnit.isDigit c = false -> Str.digitOf c = None.
Proof.
  destruct c as [[] [] [] [] [] [] [] []]; vm_compute; congruence.
Qed.

Lemma digitPrefix_then (u : uint) (rest : string) :
  Str.headSatisfies CodeUnit.isDigit rest = false ->
  Str.digitPrefix (Str.ofUint u +:+ rest) = u.
Proof.
  intros Hrest. induction u; rewrite ?append_cons, ?append_empty_l;
    try (simpl; unfold Str.digitOf; simpl; f_equal; exact IHu).
  destruct rest as [|c rest]; [reflexivity|]. simpl in *.
  rewrite (digitOf_not_digit c Hrest). reflexivity.
Qed.

Lemma trimStart_pad (pad s : string) :
  Str.forallb CodeUnit.isWhiteSpace pad = true ->
  Str.trimStart (pad +:+ s) = Str.trimStart s.
Proof.
  induction pad as [|c pad IH]; [reflexivity|].
  rewrite append_cons. simpl. intros H.
  apply andb_prop in H as [-> H]. apply IH, H.
Qed.

Lemma parseInt_year_then (n : Z) (rest : string) :
  Str.headSatisfies CodeUnit.isDigit rest = false ->
  Num.parseInt (Num.toString n +:+ rest) = Some n.
Proof.
  intros Hrest. unfold Num.parseInt, Num.toString.
  pose proof (DecimalZ.of_to n) as Hn.
  destruct (Z.to_int n) as [u|u] eqn:Hu.
  - assert (Hnil : u <> Nil).
    { destruct n; simpl in Hu; try discriminate; injection Hu as <-;
        [discriminate|apply DecimalPos.Unsigned.to_uint_nonnil]. }
    assert (Hp : Num.parseDigits (Str.ofUint u +:+ rest) = Some n).
    { unfold Num.parseDigits. rewrite (digitPrefix_then u rest Hrest).
      simpl in Hn. rewrite <- Hn. destruct u; congruence. }
    destruct u; try congruence; cbn [Str.ofUint] in *;
      rewrite append_cons in *; exact Hp.
  - assert (Hnil : u <> Nil).
    { destruct n; simpl in Hu; try discriminate.
      injection Hu as <-. apply DecimalPos.Unsigned.to_uint_nonnil. }
    rewrite append_cons. simpl.
    unfold Num.parseDigits. rewrite (digitPrefix_then u rest Hrest).
    simpl in Hn. rewrite <- Hn. destruct u; try congruence; reflexivity.
Qed.

(** X4: [parseInt] reads an integer numeral and ignores what follows
    it, and white space before it: for every safe integer [n] (an
    integer a number holds exactly), a text made of white space, the
    decimal text of [n] and any text that does not start with a digit
    parses to [n].  So the decoder accepts a Start_Year cell such as
    "2018abc" or "2018-2020" as the year in front. *)
Theorem X4_parseInt_ignores_trailing_text :
  forall (pad : string) (n : Z) (rest : string) (i : Z),
    Num.isSafeInteger n ->
    Str.forallb CodeUnit.isWhiteSpace pad = true ->
    Str.headSatisfies CodeUnit.isDigit rest = false ->
    Num.parseInt (pad +:+ Num.toString n +:+ rest) = Some n
    /\ Utils.fieldValue i "Start_Year" (JsString (Num.toString n +:+ rest))
       = Ok (JsNumber n).
Proof.
  intros pad n rest i _ Hpad Hrest.
  assert (Hp : Num.parseInt (pad +:+ Num.toString n +:+ rest) = Some n).
  { pose proof (parseInt_year_then n rest Hrest) as H.
    unfold Num.parseInt in *. rewrite trimStart_pad by exact Hpad. exact H. }
  split; [exact Hp|].
  rewrite fieldValue_year. simpl.
  rewrite (parseInt_year_then n rest Hrest). reflexivity.
Qed.

Lemma X4_parseInt_witness :
  Num.isSafeInteger 2018
  /\ Num.parseInt "  2018-2020" = Some 2018
  /\ Utils.fieldValue 1 "Start_Year" (JsString "2018-2020")
     = Ok (JsNumber 2018).
Proof.
  assert (Hsafe : Num.isSafeInteger 2018)
    by (unfold Num.isSafeInteger; vm_compute; discriminate).
  split; [exact Hsafe|].
  apply (X4_parseInt_ignores_trailing_text "  " 2018 "-2020" 1 Hsafe);
    reflexivity.
Defined.

(** ** Duplicates *)

Lemma sameVehicle_refl (a : VehicleRecord) : Utils.sameVehicle a a = true.
Proof. apply sameVehicle_spec. auto. Qed.

Lemma sameVehicle_sym (a b : VehicleRecord) :
  Utils.sameVehicle a b = Utils.sameVehicle b a.
Proof.
  apply eq_true_iff_eq. rewrite !sameVehicle_spec.
  split; intros (-> & -> & -> & -> & ->); auto.
Qed.

Lemma isDuplicate_perm (l l' : list VehicleRecord) (x : VehicleRecord) :
  l ≡ₚ l' -> Utils.isDuplicate l x = Utils.isDuplicate l' x.
Proof.
  intros Hp. apply eq_true_iff_eq. rewrite !isDuplicate_spec.
  split; intros (item & Hin & Hs); exists item; split; auto.
  - rewrite <- Hp. exact Hin.
  - rewrite Hp. exact Hin.
Qed.

Lemma isDuplicate_member (l : list VehicleRecord) (x : VehicleRecord) :
  x ∈ l -> Utils.isDuplicate l x = true.
Proof.
  intros Hin. apply isDuplicate_spec. exists x.
  split; [exact Hin|apply sameVehicle_refl].
Qed.

Lemma isDuplicate_same (l : list VehicleRecord) (x y : VehicleRecord) :
  Utils.sameVehicle x y = true ->
  Utils.isDuplicate l x = Utils.isDuplicate l y.
Proof.
  intros Hxy. apply eq_true_iff_eq. split; intros H.
  - eapply isDuplicate_absorbs; eassumption.
  - eapply isDuplicate_absorbs; [exact H|].
    rewrite sameVehicle_sym. exact Hxy.
Qed.

(** X5: being duplicates is an equivalence between records (every
    record duplicates itself, in both directions, through a third
    record), and [isDuplicate] respects it: its answer is the same for
    two duplicates, does not depend on the order of the existing
    records, and stays true when records are added. *)
Theorem X5_duplicates_form_an_equivalence :
  forall (a b c : VehicleRecord) (l l' : list VehicleRecord),
    Utils.sameVehicle a a = true
    /\ Utils.sameVehicle a b = Utils.sameVehicle b a
    /\ (Utils.sameVehicle a b = true -> Utils.sameVehicle b c = true ->
        Utils.sameVehicle a c = true)
    /\ (Utils.sameVehicle a b = true ->
        Utils.isDuplicate l a = Utils.isDuplicate l b)
    /\ (l ≡ₚ l' -> Utils.isDuplicate l a = Utils.isDuplicate l' a)
    /\ (Utils.isDuplicate l a = true ->
        Utils.isDuplicate (l ++ l') a = true).
Proof.
  intros a b c l l'.
  split; [apply sameVehicle_refl|].
  split; [apply sameVehicle_sym|].
  split; [apply sameVehicle_trans|].
  split; [apply isDuplicate_same|].
  split; [apply isDuplicate_perm|].
  intros H. rewrite isDuplicate_app, H. reflexivity.
Qed.

Lemma X5_duplicates_witness :
  Utils.isDuplicate [Sample.bmwYearZero; Sample.bmw2023] Sample.bmwPresent
  = Utils.isDuplicate [Sample.bmw2023; Sample.bmwYearZero] Sample.bmwPresent.
Proof.
  apply (proj1 (proj2 (proj2 (proj2 (proj2
           (X5_duplicates_form_an_equivalence Sample.bmwPresent
              Sample.bmwPresent Sample.bmwPresent
              [Sample.bmwYearZero; Sample.bmw2023]
              [Sample.bmw2023; Sample.bmwYearZero])))))).
  apply Permutation_swap.
Defined.

Lemma isDuplicate_cons (a : VehicleRecord) (l : list VehicleRecord)
  (x : VehicleRecord) :
  Utils.isDuplicate (a :: l) x
  = Utils.sameVehicle a x || Utils.isDuplicate l x.
Proof. reflexivity. Qed.

Lemma isDuplicate_one (c x : VehicleRecord) :
  Utils.isDuplicate [c] x = Utils.sameVehicle c x.
Proof. rewrite isDuplicate_cons. apply orb_false_r. Qed.

Lemma duplicateFree_snoc (l : list VehicleRecord) (c : VehicleRecord) :
  duplicateFree (l ++ [c]) = duplicateFree l && negb (Utils.isDuplicate l c).
Proof.
  induction l as [|a l IH]; [reflexivity|].
  cbn [app duplicateFree].
  rewrite IH, isDuplicate_app, isDuplicate_one, isDuplicate_cons.
  rewrite (sameVehicle_sym c a).
  destruct (Utils.isDuplicate l a), (Utils.sameVehicle a c),
    (duplicateFree l), (Utils.isDuplicate l c); reflexivity.
Qed.

Lemma duplicateFree_firstOfKind (C M seen : list VehicleRecord) :
  (forall x, Utils.isDuplicate M x = Utils.isDuplicate seen x) ->
  duplicateFree M = true ->
  duplicateFree (M ++ firstOfKind seen C) = true.
Proof.
  revert M seen. induction C as [|c C IH]; intros M seen Hsame HM; simpl.
  - rewrite app_nil_r. exact HM.
  - destruct (Utils.isDuplicate seen c) eqn:Hdup.
    + apply IH; [|exact HM].
      intros x. rewrite isDuplicate_app, <- Hsame, isDuplicate_one.
      destruct (Utils.sameVehicle c x) eqn:Hcx.
      * rewrite orb_true_r. rewrite <- Hsame in Hdup.
        eapply isDuplicate_absorbs; eassumption.
      * rewrite orb_false_r. reflexivity.
    + change (M ++ c :: firstOfKind (seen ++ [c]) C)
        with (M ++ [c] ++ firstOfKind (seen ++ [c]) C).
      rewrite app_assoc. apply IH.
      * intros x. rewrite !isDuplicate_app, Hsame. reflexivity.
      * rewrite duplicateFree_snoc, HM, Hsame, Hdup. reflexivity.
Qed.

Lemma duplicateFree_insertSorted (localeCompare : string -> string -> Z)
  (a : VehicleRecord) (l : list VehicleRecord) :
  duplicateFree (Utils.insertSorted localeCompare a l)
  = duplicateFree (a :: l).
Proof.
  induction l as [|b l IH]; [reflexivity|].
  cbn [Utils.insertSorted].
  destruct (_ >? _); [|reflexivity].
  cbn [duplicateFree]. rewrite IH.
  rewrite (isDuplicate_perm _ (a :: l) b) by apply insertSorted_perm.
  cbn [duplicateFree]. rewrite !isDuplicate_cons, (sameVehicle_sym b a).
  destruct (Utils.sameVehicle a b), (Utils.isDuplicate l a),
    (Utils.isDuplicate l b), (duplicateFree l); reflexivity.
Qed.

Lemma duplicateFree_sortDatabase (localeCompare : string -> string -> Z)
  (l : list VehicleRecord) :
  duplicateFree (Utils.sortDatabase localeCompare l) = duplicateFree l.
Proof.
  induction l as [|a l IH]; [reflexivity|].
  change (Utils.sortDatabase localeCompare (a :: l))
    with (Utils.insertSorted localeCompare a
            (Utils.sortDatabase localeCompare l)).
  rewrite duplicateFree_insertSorted. simpl. rewrite IH.
  rewrite (isDuplicate_perm _ l a) by apply sortDatabase_perm.
  reflexivity.
Qed.

Lemma duplicateFree_filter (p : VehicleRecord -> bool)
  (l : list VehicleRecord) :
  duplicateFree l = true -> duplicateFree (List.filter p l) = true.
Proof.
  induction l as [|a l IH]; simpl; [auto|].
  intros H. apply andb_prop in H as [Ha Hl].
  destruct (p a); simpl; [|auto].
  rewrite (IH Hl), andb_true_r.
  apply negb_true_iff. apply negb_true_iff in Ha.
  destruct (Utils.isDuplicate (List.filter p l) a) eqn:Hd; [|reflexivity].
  apply isDuplicate_spec in Hd as (item & Hin & Hs).
  apply filter_bool_elem_of in Hin as [Hin _].
  rewrite <- Ha. symmetry. apply isDuplicate_spec. eauto.
Qed.

Lemma decodesToRecords_intro (content : string) (objects : list JsObject)
  (records : list VehicleRecord) :
  Utils.parseCSV content = Ok objects ->
  mapM Js.asVehicle objects = Some records ->
  safeYears records ->
  decodesToRecords content.
Proof.
  intros Hp Hm Hs. unfold decodesToRecords. rewrite Hp, Hm. exact Hs.
Qed.

(** X6: an import and a deletion keep a dataset free of duplicates:
    when no record of the dataset duplicates another one, the import of
    a text that decodes to records (every decoded object has the six
    fields and a safe-integer year, or the decode fails) goes through
    and leaves a dataset with the same property, also when the text
    repeats a vehicle or brings one the dataset has; and so does
    [handleDeleteSelected], confirmed or not. *)
Theorem X6_import_and_delete_keep_duplicate_free :
  forall (localeCompare : string -> string -> Z) (content : string)
         (confirmed : bool) (st : App.State),
    duplicateFree (App.database st) = true ->
    (decodesToRecords content ->
     exists st',
       App.handleImportCSV localeCompare content st = Some st'
       /\ duplicateFree (App.database st') = true)
    /\ duplicateFree (App.database (App.handleDeleteSelected confirmed st))
       = true.
Proof.
  intros localeCompare content confirmed st Hfree. split.
  - unfold decodesToRecords, App.handleImportCSV.
    destruct (Utils.parseCSV content) as [importedData|e];
      [|intros _; exists st; auto].
    destruct (mapM Js.asVehicle importedData) as [records|]; simpl;
      [|contradiction].
    intros _. eexists. split; [reflexivity|].
    rewrite setDatabase_database.
    unfold App.importSorted.
    rewrite mergeImported_firstOfKind, duplicateFree_sortDatabase.
    apply duplicateFree_firstOfKind; auto.
  - destruct confirmed.
    + rewrite handleDeleteSelected_database.
      apply duplicateFree_filter, Hfree.
    + unfold App.handleDeleteSelected. destruct (_ =? _)%nat; exact Hfree.
Qed.

Lemma X6_duplicate_free_witness :
  duplicateFree (App.database Sample.oneSelected) = true
  /\ decodesToRecords Sample.repeatedRowText
  /\ (exists st',
        App.handleImportCSV Sample.codeUnitCompare Sample.repeatedRowText
          Sample.oneSelected
        = Some st'
        /\ App.database st' = [Sample.bmwPresent; Sample.toyotaCorolla]
        /\ duplicateFree (App.database st') = true)
  /\ duplicateFree
       (App.database (App.handleDeleteSelected true Sample.oneSelected))
     = true.
Proof.
  assert (Hfree : duplicateFree (App.database Sample.oneSelected) = true)
    by reflexivity.
  assert (Hdec : decodesToRecords Sample.repeatedRowText).
  { eapply decodesToRecords_intro;
      [vm_compute; reflexivity|vm_compute; reflexivity|].
    repeat (constructor; [vm_compute; discriminate|]). constructor. }
  destruct (X6_import_and_delete_keep_duplicate_free Sample.codeUnitCompare
              Sample.repeatedRowText true Sample.oneSelected Hfree)
    as [Himport Hdelete].
  destruct (Himport Hdec) as (st' & Hst' & Hfree').
  split; [exact Hfree|]. split; [exact Hdec|]. split; [|exact Hdelete].
  exists st'. split; [exact Hst'|]. split; [|exact Hfree'].
  revert Hst'. vm_compute. intros [= <-]. reflexivity.
Defined.

(** ** Imports that add nothing *)

Lemma mergeImported_all_duplicates (M C : list VehicleRecord) :
  (forall c, c ∈ C -> Utils.isDuplicate M c = true) ->
  App.mergeImported M C = (M, 0).
Proof.
  unfold App.mergeImported. generalize 0 as n.
  induction C as [|c C IH]; intros n Hall; simpl; [reflexivity|].
  rewrite (Hall c) by (left). simpl. apply IH.
  intros x Hx. apply Hall. right. exact Hx.
Qed.

(** Every candidate of a batch duplicates a record seen before the
    batch or a candidate the batch accepts. *)
Lemma firstOfKind_covers (C seen : list VehicleRecord) (c : VehicleRecord) :
  c ∈ C ->
  Utils.isDuplicate (seen ++ firstOfKind seen C) c = true.
Proof.
  revert seen. induction C as [|c0 C IH]; intros seen Hin.
  - inversion Hin.
  - apply elem_of_cons in Hin as [->|Hin]; simpl.
    + destruct (Utils.isDuplicate seen c0) eqn:Hd.
      * rewrite isDuplicate_app, Hd. reflexivity.
      * rewrite isDuplicate_app, isDuplicate_cons, sameVehicle_refl.
        rewrite orb_true_r. reflexivity.
    + specialize (IH (seen ++ [c0]) Hin).
      rewrite !isDuplicate_app, isDuplicate_one in IH.
      destruct (Utils.isDuplicate seen c0) eqn:Hd.
      * rewrite isDuplicate_app.
        destruct (Utils.sameVehicle c0 c) eqn:Hc0.
        -- rewrite (isDuplicate_absorbs seen c0 c Hd Hc0). reflexivity.
        -- rewrite orb_false_r in IH. exact IH.
      * rewrite isDuplicate_app, isDuplicate_cons.
        destruct (Utils.isDuplicate seen c), (Utils.sameVehicle c0 c),
          (Utils.isDuplicate (firstOfKind (seen ++ [c0]) C) c);
          simpl in *; congruence.
Qed.

Lemma mapM_asVehicle_ofVehicle (D : list VehicleRecord) :
  mapM Js.asVehicle (map Js.ofVehicle D) = Some D.
Proof.
  apply mapM_Some. induction D as [|r D IH]; constructor; auto.
  destruct r. reflexivity.
Qed.

Lemma parseCSV_convertToCSV (D : list VehicleRecord) :
  Forall roundTrips D ->
  Utils.parseCSV (Utils.convertToCSV D) = Ok (map Js.ofVehicle D).
Proof.
  intros HD. unfold Utils.parseCSV.
  rewrite (nonBlankLines_convertToCSV D HD).
  destruct D as [|r D]; [reflexivity|].
  cbn [map].
  change (Utils.cells (Str.join "," Utils.expectedHeaders))
    with Utils.expectedHeaders.
  change (Utils.isValidHeader Utils.expectedHeaders) with true.
  cbn iota.
  apply (parseRows_csvRows 1 (r :: D) HD).
Qed.

(** X7: importing the same text a second time adds no record: for a
    text that decodes to records (every decoded object has the six
    fields and a safe-integer year, or the decode fails), the import
    goes through, a second import of that text goes through as well and
    leaves a dataset with the records of the first result; it is that
    very dataset when the collation changes sign with the order of its
    arguments. *)
Theorem X7_second_import_adds_nothing :
  forall (localeCompare : string -> string -> Z) (content : string)
         (st : App.State),
    decodesToRecords content ->
    exists st1 st2,
      App.handleImportCSV localeCompare content st = Some st1
      /\ App.handleImportCSV localeCompare content st1 = Some st2
      /\ App.database st2 ≡ₚ App.database st1
      /\ (signAntisymmetric localeCompare ->
          App.database st2 = App.database st1).
Proof.
  intros localeCompare content st.
  unfold decodesToRecords, App.handleImportCSV.
  destruct (Utils.parseCSV content) as [importedData|e].
  - destruct (mapM Js.asVehicle importedData) as [records|]; simpl;
      [|contradiction].
    intros _. eexists. eexists. split; [reflexivity|].
    split; [reflexivity|].
    rewrite !setDatabase_database.
    set (db1 := App.importSorted localeCompare (App.database st) records).
    assert (Hmerge : App.mergeImported db1 records = (db1, 0)).
    { apply mergeImported_all_duplicates. intros c Hc.
      unfold db1, App.importSorted.
      rewrite mergeImported_firstOfKind. cbn [fst].
      rewrite (isDuplicate_perm _ _ c (sortDatabase_perm _ _)).
      apply firstOfKind_covers, Hc. }
    fold db1. unfold App.importSorted at 1 2. rewrite Hmerge. cbn [fst].
    split; [apply sortDatabase_perm|].
    intros Hanti. apply sortDatabase_keeps_ordered.
    unfold db1, App.importSorted. apply sortDatabase_ordered, Hanti.
  - intros _. exists st, st. auto.
Qed.

Lemma X7_second_import_witness :
  decodesToRecords Sample.oneRowText
  /\ exists st1 st2,
       App.handleImportCSV Sample.codeUnitCompare Sample.oneRowText
         App.initialState
       = Some st1
       /\ App.handleImportCSV Sample.codeUnitCompare Sample.oneRowText st1
          = Some st2
       /\ App.database App.initialState = []
       /\ App.database st1 = [Sample.bmwPresent]
       /\ App.database st2 = [Sample.bmwPresent].
Proof.
  assert (Hdec : decodesToRecords Sample.oneRowText).
  { eapply decodesToRecords_intro;
      [vm_compute; reflexivity|vm_compute; reflexivity|].
    repeat (constructor; [vm_compute; discriminate|]). constructor. }
  split; [exact Hdec|].
  destruct (X7_second_import_adds_nothing Sample.codeUnitCompare
              Sample.oneRowText App.initialState Hdec)
    as (st1 & st2 & Hst1 & Hst2 & _ & Hsame).
  exists st1, st2.
  assert (Hdb1 : App.database st1 = [Sample.bmwPresent]).
  { revert Hst1. vm_compute. intros [= <-]. reflexivity. }
  split; [exact Hst1|]. split; [exact Hst2|]. split; [reflexivity|].
  split; [exact Hdb1|].
  rewrite <- Hdb1. apply Hsame, codeUnitCompare_antisym.
Defined.

(** X8: importing the text just exported adds nothing: for a dataset
    whose records the codec carries unchanged, the import of
    [convertToCSV] of the dataset goes through and sets the dataset to
    its own sorted copy, which is the dataset itself when it is in
    order. *)
Theorem X8_import_of_export_changes_nothing :
  forall (localeCompare : string -> string -> Z) (st : App.State),
    Forall roundTrips (App.database st) ->
    App.handleImportCSV localeCompare (Utils.convertToCSV (App.database st)) st
    = Some (App.setDatabase
              (Utils.sortDatabase localeCompare (App.database st)) st)
    /\ (Sorted (inOrder localeCompare) (App.database st) ->
        App.handleImportCSV localeCompare
          (Utils.convertToCSV (App.database st)) st
        = Some (App.setDatabase (App.database st) st)).
Proof.
  intros localeCompare st HD.
  assert (H : App.handleImportCSV localeCompare
                (Utils.convertToCSV (App.database st)) st
              = Some (App.setDatabase
                        (Utils.sortDatabase localeCompare (App.database st))
                        st)).
  { unfold App.handleImportCSV.
    rewrite (parseCSV_convertToCSV _ HD), mapM_asVehicle_ofVehicle. simpl.
    unfold App.importSorted.
    rewrite mergeImported_all_duplicates; [reflexivity|].
    intros c Hc. apply isDuplicate_member, Hc. }
  split; [exact H|].
  intros Hs. rewrite H, (sortDatabase_keeps_ordered _ _ Hs). reflexivity.
Qed.

Lemma X8_import_of_export_witness :
  App.handleImportCSV Sample.codeUnitCompare
    (Utils.convertToCSV (App.database Sample.oneSelected)) Sample.oneSelected
  = Some (App.setDatabase
            (Utils.sortDatabase Sample.codeUnitCompare
               (App.database Sample.oneSelected))
            Sample.oneSelected).
Proof.
  apply (proj1 (X8_import_of_export_changes_nothing Sample.codeUnitCompare
                  Sample.oneSelected
                  ltac:(repeat constructor; vm_compute; congruence))).
Defined.

(** ** Imports stay within the record type *)

Lemma last_occurrence (h : string) (l : list string) :
  h ∈ l -> exists j, l !! j = Some h /\ h ∉ drop (S j) l.
Proof.
  induction l as [|a l IH]; intros Hin; [inversion Hin|].
  destruct (decide (h ∈ l)) as [Hl|Hl].
  - destruct (IH Hl) as (j & Hj & Hlast). exists (S j). auto.
  - apply elem_of_cons in Hin as [->|Hin]; [|contradiction].
    exists 0%nat. auto.
Qed.

Lemma element_in_range (values : list string) (j : nat) :
  (j < length values)%nat -> exists s, Js.element values j = JsString s.
Proof.
  intros Hj. unfold Js.element.
  destruct (lookup_lt_is_Some_2 values j Hj) as [s ->]. eauto.
Qed.

Lemma decodedByName_typed (headers : list string) (row : string)
  (o : gmap string JsValue) :
  decodedByName headers row o ->
  (forall h, h ∈ Utils.expectedHeaders -> h ∈ headers) ->
  (length headers <= length (Utils.cells row))%nat ->
  is_Some (Js.asVehicle o).
Proof.
  intros Hdec Hvalid Hwide.
  assert (Htext : forall h,
             h ∈ Utils.expectedHeaders -> h <> "Start_Year" ->
             exists s, Js.stringProperty o h = Some s).
  { intros h Hh Hy.
    destruct (last_occurrence h headers (Hvalid h Hh)) as (j & Hj & Hlast).
    pose proof (Hdec j h Hj Hlast Hh) as Hd. simpl in Hd.
    destruct (element_in_range (Utils.cells row) j) as [s Hs].
    { apply lookup_lt_Some in Hj. lia. }
    unfold Js.stringProperty.
    destruct (decide (h = "Start_Year")); [congruence|].
    destruct (decide (h = "Generation")).
    - destruct Hd as (s' & _ & ->). eauto.
    - rewrite Hd, Hs. eauto. }
  assert (Hyear : exists n, Js.numberProperty o "Start_Year" = Some n).
  { assert (Hh : "Start_Year" ∈ Utils.expectedHeaders)
      by (apply list_elem_of_In; simpl; auto 10).
    destruct (last_occurrence _ headers (Hvalid _ Hh)) as (j & Hj & Hlast).
    pose proof (Hdec j _ Hj Hlast Hh) as Hd. simpl in Hd.
    destruct (decide ("Start_Year" = "Start_Year")); [|congruence].
    destruct Hd as (n & _ & Hn). unfold Js.numberProperty.
    rewrite Hn. eauto. }
  destruct (Htext "Manufacturer") as [m Hm];
    [apply list_elem_of_In; simpl; auto 10|discriminate|].
  destruct (Htext "Model") as [md Hmd];
    [apply list_elem_of_In; simpl; auto 10|discriminate|].
  destruct (Htext "Generation") as [g Hg];
    [apply list_elem_of_In; simpl; auto 10|discriminate|].
  destruct (Htext "Model_Code") as [mc Hmc];
    [apply list_elem_of_In; simpl; auto 10|discriminate|].
  destruct (Htext "End_Year") as [ey Hey];
    [apply list_elem_of_In; simpl; auto 10|discriminate|].
  destruct Hyear as [sy Hsy].
  unfold Js.asVehicle. rewrite Hm, Hmd, Hg, Hmc, Hsy, Hey. simpl. eauto.
Qed.

Lemma handleImportCSV_typed (localeCompare : string -> string -> Z)
  (content : string) (st : App.State) (line0 : string) (rows : list string) :
  Utils.nonBlankLines content = line0 :: rows ->
  (forall row, row ∈ rows -> accepted row = true ->
               (length (Utils.cells line0) <= length (Utils.cells row))%nat) ->
  is_Some (App.handleImportCSV localeCompare content st).
Proof.
  intros Hlines Hwide.
  unfold App.handleImportCSV.
  destruct (Utils.parseCSV content) as [objects|e] eqn:Hparse; [|eauto].
  assert (Htyped : is_Some (mapM Js.asVehicle objects)).
  { unfold Utils.parseCSV in Hparse. rewrite Hlines in Hparse.
    destruct rows as [|row rows].
    { injection Hparse as <-. eexists. reflexivity. }
    destruct (Utils.isValidHeader (Utils.cells line0)) eqn:Hvalid;
      [|discriminate].
    pose proof (proj1 (isValidHeader_spec _) Hvalid) as Hnames.
    apply parseRows_ok in Hparse.
    apply mapM_is_Some, Forall_forall. intros o Ho.
    apply list_elem_of_lookup in Ho as [i Hi].
    destruct (Forall2_lookup_r _ _ _ _ _ Hparse Hi) as (r & Hr & Hdec).
    apply list_elem_of_lookup_2, filter_bool_elem_of in Hr as [Hr Hacc].
    eapply decodedByName_typed; eauto. }
  destruct Htyped as [records ->]. simpl. eauto.
Qed.

Lemma asVehicle_year (o : JsObject) (r : VehicleRecord) :
  Js.asVehicle o = Some r ->
  o !! "Start_Year" = Some (JsNumber (Start_Year r)).
Proof.
  unfold Js.asVehicle, Js.numberProperty. intros H.
  destruct (Js.stringProperty o "Manufacturer"); [|discriminate].
  destruct (Js.stringProperty o "Model"); [|discriminate].
  destruct (Js.stringProperty o "Generation"); [|discriminate].
  destruct (Js.stringProperty o "Model_Code"); [|discriminate].
  simpl in H.
  destruct (o !! "Start_Year") as [[| |n]|]; try discriminate.
  simpl in H.
  destruct (Js.stringProperty o "End_Year"); [|discriminate].
  injection H as <-. reflexivity.
Qed.

Lemma mapM_asVehicle_safeYears (content : string) (objects : list JsObject)
  (records : list VehicleRecord) :
  decodedYearsSafe content ->
  Utils.parseCSV content = Ok objects ->
  mapM Js.asVehicle objects = Some records ->
  safeYears records.
Proof.
  intros Hsafe Hparse Hrecords. apply mapM_Some in Hrecords.
  apply Forall_forall. intros r Hr.
  apply list_elem_of_lookup in Hr as [i Hi].
  destruct (Forall2_lookup_r _ _ _ _ _ Hrecords Hi) as (o & Ho & Hor).
  apply (Hsafe objects o _ Hparse); [|apply asVehicle_year, Hor].
  eapply list_elem_of_lookup_2, Ho.
Qed.

(** X9: an import stays within the record type as long as the header
    has exactly six columns or no accepted row is narrower than the
    header: the import then goes through; when the decode fails it
    leaves the state as it was, and when the decode yields objects,
    each of them is a record with five text fields and a numeric
    Start_Year, and the dataset is set to the sorted merge of those
    records.  The years decoded are taken to be safe integers, where a
    number is exact; the text then decodes to records in the sense of
    [decodesToRecords]. *)
Theorem X9_import_is_well_typed :
  forall (localeCompare : string -> string -> Z) (content : string)
         (st : App.State) (line0 : string) (rows : list string),
    Utils.nonBlankLines content = line0 :: rows ->
    (length (Utils.cells line0) = 6%nat
     \/ forall row, row ∈ rows -> accepted row = true ->
                    (length (Utils.cells line0)
                     <= length (Utils.cells row))%nat) ->
    decodedYearsSafe content ->
    decodesToRecords content
    /\ exists st',
         App.handleImportCSV localeCompare content st = Some st'
         /\ ((exists e, Utils.parseCSV content = Err e) -> st' = st)
         /\ (forall objects,
               Utils.parseCSV content = Ok objects ->
               exists records,
                 mapM Js.asVehicle objects = Some records
                 /\ safeYears records
                 /\ App.database st'
                    = App.importSorted localeCompare (App.database st)
                        records).
Proof.
  intros localeCompare content st line0 rows Hlines Hwide Hsafe.
  assert (Hrows : forall row, row ∈ rows -> accepted row = true ->
                    (length (Utils.cells line0)
                     <= length (Utils.cells row))%nat).
  { destruct Hwide as [Hsix|Hwide]; [|exact Hwide].
    intros row _ Hacc. unfold accepted in Hacc.
    apply negb_true_iff, Nat.ltb_ge in Hacc. rewrite Hsix. exact Hacc. }
  destruct (handleImportCSV_typed localeCompare content st line0 rows
              Hlines Hrows) as [st' Hst'].
  pose proof (mapM_asVehicle_safeYears content) as Hyears.
  unfold decodesToRecords. unfold App.handleImportCSV in Hst'.
  destruct (Utils.parseCSV content) as [objects|e] eqn:Hparse.
  - destruct (mapM Js.asVehicle objects) as [records|] eqn:Hrecords;
      [|discriminate].
    simpl in Hst'. injection Hst' as <-.
    pose proof (Hyears objects records Hsafe eq_refl Hrecords) as Hr.
    split; [exact Hr|].
    eexists. split; [unfold App.handleImportCSV; rewrite Hparse, Hrecords;
                     reflexivity|].
    split; [intros [e He]; discriminate|].
    intros objects' [= <-]. exists records.
    split; [exact Hrecords|]. split; [exact Hr|].
    apply setDatabase_database.
  - injection Hst' as <-. split; [exact I|].
    exists st. split; [apply (handleImportCSV_error _ _ _ e Hparse)|].
    split; [reflexivity|]. intros objects; discriminate.
Qed.

Lemma X9_import_witness :
  Utils.nonBlankLines Sample.reorderedText
  = [ "End_Year,Note,Start_Year,Model_Code,Generation,Model,Manufacturer";
      "Present,x,2018,G20,Mk7,3 Series,BMW" ]
  /\ length (Utils.cells
               "End_Year,Note,Start_Year,Model_Code,Generation,Model,Manufacturer")
     = 7%nat
  /\ decodedYearsSafe Sample.reorderedText
  /\ decodesToRecords Sample.reorderedText
  /\ exists st',
       App.handleImportCSV Sample.codeUnitCompare Sample.reorderedText
         App.initialState
       = Some st'
       /\ App.database st' = [Sample.bmwPresent].
Proof.
  assert (Hlines :
            Utils.nonBlankLines Sample.reorderedText
            = [ "End_Year,Note,Start_Year,Model_Code,Generation,Model,Manufacturer";
                "Present,x,2018,G20,Mk7,3 Series,BMW" ])
    by (vm_compute; reflexivity).
  assert (Hsafe : decodedYearsSafe Sample.reorderedText).
  { intros objects o n Hparse Ho Hn.
    vm_compute in Hparse. injection Hparse as <-.
    apply list_elem_of_singleton in Ho as ->.
    vm_compute in Hn. injection Hn as <-.
    unfold Num.isSafeInteger. vm_compute. discriminate. }
  split; [exact Hlines|]. split; [vm_compute; reflexivity|].
  split; [exact Hsafe|].
  destruct (Utils.parseCSV Sample.reorderedText) as [objects|e] eqn:Hparse;
    [|vm_compute in Hparse; discriminate].
  destruct (X9_import_is_well_typed Sample.codeUnitCompare
              Sample.reorderedText App.initialState _ _ Hlines)
    as (Hdec & st' & Hst' & _ & Hok).
  { right. intros row Hrow _.
    apply list_elem_of_singleton in Hrow as ->. vm_compute. lia. }
  { exact Hsafe. }
  split; [exact Hdec|].
  exists st'. split; [exact Hst'|].
  destruct (Hok objects Hparse) as (records & Hrecords & _ & ->).
  vm_compute in Hparse. injection Hparse as <-.
  vm_compute in Hrecords. injection Hrecords as <-.
  vm_compute. reflexivity.
Defined.

(** ** Line endings *)

Lemma trimEnd_snoc_space (s : string) (c : ascii) :
  CodeUnit.isWhiteSpace c = true ->
  Str.trimEnd (s +:+ String c "") = Str.trimEnd s.
Proof.
  intros Hc. induction s as [|d s IH].
  - simpl. rewrite Hc. reflexivity.
  - rewrite append_cons. simpl. rewrite IH. reflexivity.
Qed.

Lemma trim_snoc_space (s : string) (c : ascii) :
  CodeUnit.isWhiteSpace c = true ->
  Str.trim (s +:+ String c "") = Str.trim s.
Proof.
  intros Hc. unfold Str.trim. induction s as [|d s IH].
  - simpl. rewrite Hc. reflexivity.
  - rewrite append_cons. simpl.
    destruct (CodeUnit.isWhiteSpace d); [exact IH|].
    apply (trimEnd_snoc_space (String d s) c Hc).
Qed.

Lemma split_snoc (sep c : ascii) (s : string) :
  c <> sep ->
  Str.split sep (s +:+ String c "")
  = mapLast (fun x => x +:+ String c "") (Str.split sep s).
Proof.
  intros Hne. unfold Str.split. induction s as [|d s IH].
  - simpl. rewrite (proj2 (Ascii.eqb_neq c sep) Hne). reflexivity.
  - rewrite append_cons. simpl.
    destruct (Str.splitNE sep (s +:+ String c "")) as [h' t'].
    destruct (Str.splitNE sep s) as [h t].
    destruct (Ascii.eqb d sep).
    + cbn [mapLast]. rewrite IH. reflexivity.
    + destruct t as [|x t]; simpl in IH |- *.
      * injection IH as -> ->. reflexivity.
      * injection IH as -> ->. reflexivity.
Qed.

Lemma map_trim_mapLast (c : ascii) (l : list string) :
  CodeUnit.isWhiteSpace c = true ->
  map Str.trim (mapLast (fun x => x +:+ String c "") l) = map Str.trim l.
Proof.
  intros Hc. induction l as [|x [|y l] IH]; [reflexivity| |].
  - simpl. rewrite trim_snoc_space by exact Hc. reflexivity.
  - change (mapLast (fun x => x +:+ String c "") (x :: y :: l))
      with (x :: mapLast (fun x => x +:+ String c "") (y :: l)).
    cbn [map]. rewrite IH. reflexivity.
Qed.

Lemma cells_withCR (line : string) :
  Utils.cells (withCR line) = Utils.cells line.
Proof.
  unfold Utils.cells, withCR.
  rewrite split_snoc by discriminate.
  apply map_trim_mapLast. reflexivity.
Qed.

Lemma nonBlank_withCR (line : string) :
  Utils.nonBlank (withCR line) = Utils.nonBlank line.
Proof.
  unfold Utils.nonBlank, withCR.
  rewrite trim_snoc_space by reflexivity. reflexivity.
Qed.

Lemma sameLine_cells (line' line : string) :
  sameLine line' line ->
  Utils.cells line' = Utils.cells line
  /\ Utils.nonBlank line' = Utils.nonBlank line.
Proof.
  intros [->| ->]; [auto|].
  split; [apply cells_withCR|apply nonBlank_withCR].
Qed.

Lemma sameLine_one_line (line' line : string) :
  sameLine line' line -> freeOf Str.lineFeed line ->
  freeOf Str.lineFeed line'.
Proof.
  intros [->| ->] Hfree; [exact Hfree|].
  unfold freeOf, withCR in *. rewrite existsb_append, Hfree. reflexivity.
Qed.

Lemma parseRows_same_cells (headers rows' rows : list string) (i : Z) :
  Forall2 (fun r' r => Utils.cells r' = Utils.cells r) rows' rows ->
  Utils.parseRows headers rows' i = Utils.parseRows headers rows i.
Proof.
  intros H. revert i. induction H as [|r' r rows' rows Hr _ IH]; intros i.
  - reflexivity.
  - cbn [Utils.parseRows]. rewrite Hr, !IH. reflexivity.
Qed.

Lemma filter_nonBlank_same (ls' ls : list string) :
  Forall2 sameLine ls' ls ->
  Forall2 (fun r' r => Utils.cells r' = Utils.cells r)
          (List.filter Utils.nonBlank ls') (List.filter Utils.nonBlank ls).
Proof.
  induction 1 as [|l' l ls' ls Hl _ IH]; simpl; [constructor|].
  destruct (sameLine_cells _ _ Hl) as [Hc ->].
  destruct (Utils.nonBlank l); [constructor; assumption|exact IH].
Qed.

(** X10: a carriage return at the end of a line is not seen by the
    decoder: two texts whose lines differ only by carriage returns
    before the line feeds (as the line endings CRLF and LF do) decode
    to the same result, records or error. *)
Theorem X10_parseCSV_ignores_carriage_returns :
  forall lines' lines : list string,
    Forall2 sameLine lines' lines ->
    Forall (freeOf Str.lineFeed) lines ->
    Utils.parseCSV (Str.join (String Str.lineFeed "") lines')
    = Utils.parseCSV (Str.join (String Str.lineFeed "") lines).
Proof.
  intros lines' lines Hsame Hfree.
  destruct Hsame as [|l' l ls' ls Hl Hls]; [reflexivity|].
  assert (Hfree' : Forall (freeOf Str.lineFeed) (l' :: ls')).
  { assert (H2 : Forall2 sameLine (l' :: ls') (l :: ls))
      by (constructor; assumption).
    clear Hl Hls. induction H2 as [|a' a t' t Ha _ IH]; [constructor|].
    apply Forall_cons in Hfree as [Ha0 Hfree].
    constructor; [eapply sameLine_one_line; eassumption|apply IH, Hfree]. }
  unfold Utils.parseCSV, Utils.nonBlankLines.
  rewrite !split_join by assumption.
  pose proof (filter_nonBlank_same (l' :: ls') (l :: ls)
                ltac:(constructor; assumption)) as Hrows.
  destruct Hrows as [|h' h [|r' rs'] rs Hh Hrs]; [reflexivity| |].
  - apply Forall2_nil_inv_l in Hrs as ->. reflexivity.
  - destruct rs as [|r rs]; [inversion Hrs|].
    rewrite Hh. destruct (Utils.isValidHeader (Utils.cells h));
      [|reflexivity].
    apply parseRows_same_cells, Hrs.
Qed.

Lemma X10_carriage_return_witness :
  Utils.parseCSV
    (Str.join (String Str.lineFeed "")
       [withCR Sample.header; withCR "BMW,3 Series,7,G20,2018,Present"; ""])
  = Utils.parseCSV
      (Str.join (String Str.lineFeed "")
         [Sample.header; "BMW,3 Series,7,G20,2018,Present"; ""]).
Proof.
  apply (X10_parseCSV_ignores_carriage_returns
           [withCR Sample.header; withCR "BMW,3 Series,7,G20,2018,Present"; ""]
           [Sample.header; "BMW,3 Series,7,G20,2018,Present"; ""]).
  - repeat constructor; (right; reflexivity) || (left; reflexivity).
  - repeat constructor.
Defined.

(** ** Keys *)

Lemma trimStart_free (c : ascii) (s : string) :
  freeOf c s -> freeOf c (Str.trimStart s).
Proof.
  unfold freeOf. induction s as [|d s IH]; simpl; [auto|].
  intros H. destruct (CodeUnit.isWhiteSpace d); [|exact H].
  apply orb_false_elim in H as [_ H]. auto.
Qed.

Lemma trimEnd_free (c : ascii) (s : string) :
  freeOf c s -> freeOf c (Str.trimEnd s).
Proof.
  unfold freeOf. induction s as [|d s IH]; simpl; [auto|].
  intros H. apply orb_false_elim in H as [Hd H].
  destruct (CodeUnit.isWhiteSpace d && Str.isEmpty (Str.trimEnd s));
    [reflexivity|].
  simpl. rewrite Hd, (IH H). reflexivity.
Qed.

Lemma toLower_hash (d : ascii) :
  Ascii.eqb "#" (CodeUnit.toLower d) = Ascii.eqb "#" d.
Proof. destruct d as [[] [] [] [] [] [] [] []]; reflexivity. Qed.

Lemma toLowerCase_hash_free (s : string) :
  freeOf "#" s -> freeOf "#" (Str.toLowerCase s).
Proof.
  unfold freeOf, Str.toLowerCase.
  induction s as [|d s IH]; cbn [Str.map Str.existsb]; [auto|].
  intros H. apply orb_false_elim in H as [Hd H].
  rewrite toLower_hash, Hd, (IH H). reflexivity.
Qed.

Lemma normalizedText_hash_free (s : string) :
  freeOf "#" s -> freeOf "#" (normalizedText s).
Proof.
  intros H. unfold normalizedText, Str.trim.
  apply toLowerCase_hash_free, trimEnd_free, trimStart_free, H.
Qed.

Lemma toLowerCase_ofUint (u : uint) :
  Str.toLowerCase (Str.ofUint u) = Str.ofUint u.
Proof.
  unfold Str.toLowerCase.
  induction u; simpl; [reflexivity|..]; f_equal; exact IHu.
Qed.

Lemma normalizedText_toString (n : Z) :
  normalizedText (Num.toString n) = Num.toString n.
Proof.
  unfold normalizedText.
  rewrite (trim_no_space _ (toString_no_space n)).
  unfold Num.toString. destruct (Z.to_int n).
  - apply toLowerCase_ofUint.
  - unfold Str.toLowerCase. simpl. f_equal. apply toLowerCase_ofUint.
Qed.

Lemma toString_inj (n m : Z) : Num.toString n = Num.toString m -> n = m.
Proof.
  intros H. pose proof (parseInt_toString n) as Hn.
  rewrite H, parseInt_toString in Hn. congruence.
Qed.

Lemma toString_not_empty (n : Z) : Num.toString n <> "".
Proof.
  intros H. pose proof (parseInt_toString n) as Hn.
  rewrite H in Hn. discriminate.
Qed.

Lemma keyPart_year_inj (n m : Z) :
  App.keyPart (JsNumber n) = App.keyPart (JsNumber m) -> n = m.
Proof.
  destruct (Z.eq_dec n 0) as [->|Hn], (Z.eq_dec m 0) as [->|Hm];
    [reflexivity|..];
    rewrite ?(keyPart_number _ Hn), ?(keyPart_number _ Hm),
      ?normalizedText_toString; intros H.
  - symmetry in H. apply toString_not_empty in H. contradiction.
  - apply toString_not_empty in H. contradiction.
  - apply toString_inj, H.
Qed.

Lemma keyPart_year_hash_free (n : Z) : freeOf "#" (App.keyPart (JsNumber n)).
Proof.
  destruct (Z.eq_dec n 0) as [->|Hn]; [reflexivity|].
  rewrite (keyPart_number _ Hn), normalizedText_toString.
  apply toString_free; [reflexivity|discriminate].
Qed.

(** The key, cut at every ["#"], gives the six parts with an empty
    piece between two neighbours. *)
Lemma getRecordKey_pieces (v : VehicleRecord) :
  hashFree v ->
  Str.split "#" (App.getRecordKey (Some v))
  = [ normalizedText (Manufacturer v); ""; normalizedText (Model v); "";
      normalizedText (Generation v); "";
      normalizedText (Model_Code v); "";
      App.keyPart (JsNumber (Start_Year v)); "";
      normalizedText (End_Year v) ].
Proof.
  intros (Hm & Ho & Hg & Hc & He).
  unfold App.getRecordKey. cbn [map]. rewrite !keyPart_string.
  set (y := App.keyPart (JsNumber (Start_Year v))).
  assert (Hy : freeOf "#" y) by apply keyPart_year_hash_free.
  apply normalizedText_hash_free in Hm, Ho, Hg, Hc, He.
  revert Hm Ho Hg Hc He Hy.
  generalize (normalizedText (Manufacturer v)) as p1.
  generalize (normalizedText (Model v)) as p2.
  generalize (normalizedText (Generation v)) as p3.
  generalize (normalizedText (Model_Code v)) as p4.
  generalize (normalizedText (End_Year v)) as p6.
  generalize y as p5. clear. intros p5 p6 p4 p3 p2 p1 H1 H2 H3 H4 H6 H5.
  change (Str.join "##" [p1; p2; p3; p4; p5; p6])
    with (Str.join (String "#" "")
            [p1; ""; p2; ""; p3; ""; p4; ""; p5; ""; p6]).
  apply split_join. repeat constructor; assumption.
Qed.

(** X11: for records whose text fields hold no ["#"], the identity key
    is the same for two records exactly when their Start_Year is the
    same number and each of their five text fields is the same text up
    to case and surrounding white space. *)
Theorem X11_getRecordKey_separates_records :
  forall v w : VehicleRecord,
    hashFree v -> hashFree w ->
    (App.getRecordKey (Some v) = App.getRecordKey (Some w) <->
     normalizedText (Manufacturer v) = normalizedText (Manufacturer w)
     /\ normalizedText (Model v) = normalizedText (Model w)
     /\ normalizedText (Generation v) = normalizedText (Generation w)
     /\ normalizedText (Model_Code v) = normalizedText (Model_Code w)
     /\ Start_Year v = Start_Year w
     /\ normalizedText (End_Year v) = normalizedText (End_Year w)).
Proof.
  intros v w Hv Hw. split.
  - intros Hkey. apply (f_equal (Str.split "#")) in Hkey.
    rewrite (getRecordKey_pieces v Hv), (getRecordKey_pieces w Hw) in Hkey.
    injection Hkey as Hm Ho Hg Hc Hy He.
    apply keyPart_year_inj in Hy. repeat split; assumption.
  - intros (Hm & Ho & Hg & Hc & Hy & He).
    unfold App.getRecordKey. cbn [map].
    rewrite !keyPart_string, Hm, Ho, Hg, Hc, Hy, He. reflexivity.
Qed.

Lemma X11_getRecordKey_witness :
  App.getRecordKey (Some Sample.bmwPadded)
  = App.getRecordKey (Some (mkVehicle "bmw" " 3 SERIES" "7" "g20" 2018
                                      "PRESENT")).
Proof.
  apply (X11_getRecordKey_separates_records Sample.bmwPadded
           (mkVehicle "bmw" " 3 SERIES" "7" "g20" 2018 "PRESENT")).
  - repeat split.
  - repeat split.
  - repeat split.
Defined.

(** ** The filtered view *)

Lemma isEmpty_toLowerCase (s : string) :
  Str.isEmpty (Str.toLowerCase s) = Str.isEmpty s.
Proof. destruct s; reflexivity. Qed.

Lemma matchesFilter_lower (f f' : View.FilterState) (r : VehicleRecord) :
  Str.toLowerCase (View.searchTerm f) = Str.toLowerCase (View.searchTerm f') ->
  View.filterManufacturers f = View.filterManufacturers f' ->
  View.filterYearRange f = View.filterYearRange f' ->
  View.matchesFilter f r = View.matchesFilter f' r.
Proof.
  intros Ht Hm Hy. unfold View.matchesFilter.
  rewrite <- (isEmpty_toLowerCase (View.searchTerm f)),
          <- (isEmpty_toLowerCase (View.searchTerm f')).
  rewrite Ht, Hm, Hy. reflexivity.
Qed.

(** X12: the filtered view is a subsequence of the dataset (records
    are neither added, changed nor reordered), and it depends on the
    search term only up to case: two filter states with the same
    manufacturers and years whose terms agree after lower-casing give
    the same view. *)
Theorem X12_filteredData_subsequence_ignoring_term_case :
  forall (database : list VehicleRecord) (f f' : View.FilterState),
    View.filteredData database f `sublist_of` database
    /\ (Str.toLowerCase (View.searchTerm f)
        = Str.toLowerCase (View.searchTerm f') ->
        View.filterManufacturers f = View.filterManufacturers f' ->
        View.filterYearRange f = View.filterYearRange f' ->
        View.filteredData database f = View.filteredData database f').
Proof.
  intros database f f'. split.
  - apply filter_bool_sublist.
  - intros Ht Hm Hy. unfold View.filteredData.
    induction database as [|r database IH]; simpl; [reflexivity|].
    rewrite (matchesFilter_lower f f' r Ht Hm Hy), IH. reflexivity.
Qed.

Lemma X12_filteredData_witness :
  View.filteredData INTERNAL_DB_MAIN (View.mkFilter "COROLLA" [] (1950, 2025))
  = View.filteredData INTERNAL_DB_MAIN
      (View.mkFilter "corolla" [] (1950, 2025)).
Proof.
  apply (X12_filteredData_subsequence_ignoring_term_case INTERNAL_DB_MAIN
           (View.mkFilter "COROLLA" [] (1950, 2025))
           (View.mkFilter "corolla" [] (1950, 2025)));
    reflexivity.
Defined.

Lemma matchesFilter_clear (r : VehicleRecord) :
  View.matchesFilter View.clearFilters r
  = (1950 <=? Start_Year r) && (Start_Year r <=? 2025).
Proof.
  unfold View.matchesFilter. simpl. rewrite Z.geb_leb. reflexivity.
Qed.

(** X13: with the filters cleared, the view still holds only the
    records whose Start_Year lies from 1950 to 2025: a record outside
    these years is in no cleared view, and the cleared view is the whole
    dataset exactly when every record lies within them. *)
Theorem X13_cleared_filters_keep_the_year_window :
  forall database : list VehicleRecord,
    (forall r,
        r ∈ View.filteredData database View.clearFilters <->
        r ∈ database /\ 1950 <= Start_Year r <= 2025)
    /\ (View.filteredData database View.clearFilters = database <->
        Forall (fun r => 1950 <= Start_Year r <= 2025) database).
Proof.
  intros database.
  assert (Hmem : forall r,
             r ∈ View.filteredData database View.clearFilters <->
             r ∈ database /\ 1950 <= Start_Year r <= 2025).
  { intros r. unfold View.filteredData.
    rewrite filter_bool_elem_of, matchesFilter_clear, andb_true_iff.
    rewrite !Z.leb_le. tauto. }
  split; [exact Hmem|]. split.
  - intros Heq. apply Forall_forall. intros r Hr.
    rewrite <- Heq in Hr. apply Hmem in Hr. tauto.
  - intros Hall. apply filter_bool_Forall.
    eapply Forall_impl; [exact Hall|]. intros r Hr. cbv beta in Hr.
    rewrite matchesFilter_clear, andb_true_iff, !Z.leb_le. lia.
Qed.

Lemma X13_cleared_filters_witness :
  mkVehicle "Ford" "Model T" "1" "T" 1908 "1927"
    ∉ View.filteredData
        [mkVehicle "Ford" "Model T" "1" "T" 1908 "1927"] View.clearFilters.
Proof.
  intros Hin.
  apply (proj1 (X13_cleared_filters_keep_the_year_window
                  [mkVehicle "Ford" "Model T" "1" "T" 1908 "1927"])) in Hin.
  simpl in Hin. lia.
Defined.

(** ** Pages *)

Lemma slice_prefix {A} (l : list A) (n : nat) :
  View.slice l 0 (Z.of_nat n) = take n l.
Proof.
  unfold View.slice, View.sliceIndex.
  destruct (Z.ltb_spec 0 0); [lia|].
  destruct (Z.ltb_spec (Z.of_nat n) 0); [lia|].
  rewrite (Z.min_l 0) by lia. rewrite Z.sub_0_r.
  change (drop (Z.to_nat 0) l) with l.
  destruct (Z.min_spec (Z.of_nat n) (Z.of_nat (length l))) as [[? ->]|[? ->]];
    rewrite Nat2Z.id; [reflexivity|].
  rewrite !take_ge; [reflexivity|lia|lia].
Qed.

Lemma paginatedData_chunk (view : list VehicleRecord) (p : nat) :
  View.paginatedData view (Z.of_nat (S p)) = take 50 (drop (50 * p) view).
Proof.
  unfold View.paginatedData, View.slice, View.sliceIndex, App.RECORDS_PER_PAGE.
  set (len := length view).
  destruct (Z.ltb_spec ((Z.of_nat (S p) - 1) * 50) 0); [lia|].
  destruct (Z.ltb_spec ((Z.of_nat (S p) - 1) * 50 + 50) 0); [lia|].
  destruct (Nat.le_gt_cases len (50 * p)) as [Hout|Hin].
  - rewrite !Z.min_r by lia. rewrite Z.sub_diag.
    change (Z.to_nat 0) with 0%nat. rewrite take_0.
    rewrite (drop_ge view (50 * p)) by (fold len; lia).
    symmetry. apply take_nil.
  - rewrite (Z.min_l ((Z.of_nat (S p) - 1) * 50)) by lia.
    replace (Z.to_nat ((Z.of_nat (S p) - 1) * 50)) with (50 * p)%nat by lia.
    destruct (Nat.le_gt_cases len (50 * p + 50)) as [Hlast|Hfull].
    + rewrite Z.min_r by lia.
      rewrite !take_ge; [reflexivity| |];
        rewrite length_drop; fold len; lia.
    + rewrite Z.min_l by lia. f_equal. lia.
Qed.

Lemma pages_concat (view : list VehicleRecord) (n : nat) :
  concat (map (fun p => View.paginatedData view (Z.of_nat p)) (seq 1 n))
  = take (50 * n) view.
Proof.
  induction n as [|n IH]; [reflexivity|].
  rewrite seq_S, map_app, concat_app, IH. cbn [map concat Nat.add].
  rewrite app_nil_r, paginatedData_chunk.
  replace (50 * S n)%nat with (50 * n + 50)%nat by lia.
  apply take_take_drop.
Qed.

(** X14: the pages cut the view into consecutive pieces: page after
    page, from 1 to the page count, give back the view, and no page
    holds more than 50 records. *)
Theorem X14_pages_partition_the_view :
  forall view : list VehicleRecord,
    concat (map (fun p => View.paginatedData view (Z.of_nat p))
                (seq 1 (Z.to_nat (App.totalPages view))))
    = view
    /\ (forall currentPage,
          (length (View.paginatedData view currentPage) <= 50)%nat).
Proof.
  intros view. split.
  - rewrite pages_concat. apply take_ge.
    destruct (ceilDiv_spec (Z.of_nat (length view)) App.RECORDS_PER_PAGE
                ltac:(reflexivity)) as [_ Hup].
    unfold App.totalPages, App.RECORDS_PER_PAGE in *. lia.
  - intros currentPage. unfold View.paginatedData, View.slice.
    rewrite length_take.
    unfold View.sliceIndex, App.RECORDS_PER_PAGE.
    repeat match goal with
           | |- context [?a <? ?b] => destruct (Z.ltb_spec a b)
           end; lia.
Qed.

Lemma totalPages_covers (view : list VehicleRecord) (p : Z) :
  view <> [] -> 1 <= p <= App.totalPages view ->
  (p - 1) * 50 < Z.of_nat (length view).
Proof.
  intros Hne Hp.
  destruct (ceilDiv_spec (Z.of_nat (length view)) App.RECORDS_PER_PAGE
              ltac:(reflexivity)) as [Hlow _].
  assert (0 < Z.of_nat (length view)) by (destruct view; [congruence|simpl; lia]).
  unfold App.totalPages, App.RECORDS_PER_PAGE in *. lia.
Qed.

Lemma paginatedData_in_range (view : list VehicleRecord) (p : Z) :
  view <> [] -> 1 <= p <= App.totalPages view ->
  View.paginatedData view p
  = take (Z.to_nat (View.endRange view p - View.startRange view p + 1))
         (drop (Z.to_nat (View.startRange view p - 1)) view)
  /\ Z.of_nat (length (View.paginatedData view p))
     = View.endRange view p - View.startRange view p + 1
  /\ 1 <= View.startRange view p <= View.endRange view p
  /\ View.endRange view p <= Z.of_nat (length view).
Proof.
  intros Hne Hp. pose proof (totalPages_covers view p Hne Hp) as Hcov.
  unfold View.startRange, View.endRange, App.RECORDS_PER_PAGE.
  destruct (Nat.eqb_spec (length view) 0) as [Hz|_];
    [destruct view; [congruence|discriminate]|].
  set (q := Z.to_nat (p - 1)). assert (Hq : p = Z.of_nat q + 1) by lia.
  assert (Hchunk : View.paginatedData view p = take 50 (drop (50 * q) view)).
  { rewrite <- paginatedData_chunk. f_equal. lia. }
  rewrite Hchunk.
  replace (Z.to_nat ((p - 1) * 50 + 1 - 1)) with (50 * q)%nat by lia.
  assert (Hlen : length (take 50 (drop (50 * q) view))
                 = Z.to_nat (Z.min (p * 50) (Z.of_nat (length view))
                             - ((p - 1) * 50 + 1) + 1)).
  { rewrite length_take, length_drop. lia. }
  split; [|split; [|lia]].
  - rewrite <- Hlen, length_take.
    destruct (Nat.le_gt_cases 50 (length (drop (50 * q) view))).
    + rewrite Nat.min_l by lia. reflexivity.
    + rewrite Nat.min_r by lia. rewrite !take_ge by lia. reflexivity.
  - rewrite Hlen. lia.
Qed.

(** X15: on a page within the page count of a non-empty view, the
    displayed range is right: the page holds the records number
    [startRange] to [endRange] of the view, counted from 1, so
    [endRange - startRange + 1] records, at least one. *)
Theorem X15_page_is_the_displayed_range :
  forall (view : list VehicleRecord) (currentPage : Z),
    view <> [] ->
    1 <= currentPage <= App.totalPages view ->
    let first := View.startRange view currentPage in
    let last := View.endRange view currentPage in
    View.paginatedData view currentPage
    = take (Z.to_nat (last - first + 1)) (drop (Z.to_nat (first - 1)) view)
    /\ Z.of_nat (length (View.paginatedData view currentPage))
       = last - first + 1
    /\ 1 <= first <= last
    /\ last <= Z.of_nat (length view).
Proof. intros view currentPage Hne Hp. apply paginatedData_in_range; auto. Qed.

Lemma X15_page_range_witness :
  Z.of_nat (length (View.paginatedData (repeat Sample.bmwPresent 120) 3))
  = View.endRange (repeat Sample.bmwPresent 120) 3
    - View.startRange (repeat Sample.bmwPresent 120) 3 + 1.
Proof.
  apply (X15_page_is_the_displayed_range (repeat Sample.bmwPresent 120) 3).
  - discriminate.
  - vm_compute. split; discriminate.
Defined.

(** X16: the current page stays on a page that exists: from a page
    within 1 and the page count both page buttons lead to such a page,
    and once the page-bounds effect has run on any page from 1 on, the
    page lies within 1 and the page count and, unless the view is
    empty, shows at least one record. *)
Theorem X16_current_page_stays_valid :
  forall (view : list VehicleRecord) (currentPage : Z),
    1 <= currentPage ->
    let pages := App.totalPages view in
    let settled := App.pageBoundsEffect pages currentPage in
    1 <= settled <= pages
    /\ (view <> [] -> View.paginatedData view settled <> [])
    /\ (currentPage <= pages ->
        settled = currentPage
        /\ 1 <= View.previousPage currentPage <= pages
        /\ 1 <= View.nextPage pages currentPage <= pages).
Proof.
  intros view currentPage Hcp pages settled.
  assert (Hpages : 1 <= pages) by (unfold pages, App.totalPages; lia).
  assert (Hsettled : 1 <= settled <= pages).
  { unfold settled, App.pageBoundsEffect.
    destruct (Z.gtb_spec currentPage pages), (Z.gtb_spec pages 0);
      simpl; lia. }
  split; [exact Hsettled|]. split.
  - intros Hne Hnil.
    destruct (paginatedData_in_range view settled Hne Hsettled)
      as (_ & Hlen & Hrange & _).
    rewrite Hnil in Hlen. simpl in Hlen. lia.
  - intros Hle. unfold settled, App.pageBoundsEffect, View.previousPage,
      View.nextPage.
    destruct (Z.gtb_spec currentPage pages); [lia|]. simpl. lia.
Qed.

Lemma X16_current_page_witness :
  1 <= App.pageBoundsEffect (App.totalPages (repeat Sample.bmwPresent 120)) 5
    <= App.totalPages (repeat Sample.bmwPresent 120).
Proof.
  exact (proj1 (X16_current_page_stays_valid (repeat Sample.bmwPresent 120) 5
                  ltac:(lia))).
Defined.

(** ** Selection *)

(** X17: ticking a row flips the membership of its key in the
    selection and of no other key, and ticking the same row twice gives
    back the state. *)
Theorem X17_toggle_row_flips_one_key :
  forall (key : string) (st : App.State),
    (key ∈ App.selectedRowKeys (App.handleToggleRow key st) <->
     key ∉ App.selectedRowKeys st)
    /\ (forall k, k <> key ->
          (k ∈ App.selectedRowKeys (App.handleToggleRow key st) <->
           k ∈ App.selectedRowKeys st))
    /\ App.handleToggleRow key (App.handleToggleRow key st) = st.
Proof.
  intros key st. destruct st as [db sto sug sel page].
  unfold App.handleToggleRow, App.setSelectedRowKeys. simpl.
  destruct (decide (key ∈ sel)) as [Hin|Hout].
  - rewrite (bool_decide_eq_true_2 _ Hin).
    split; [set_solver|]. split; [set_solver|].
    rewrite bool_decide_eq_false_2 by set_solver.
    f_equal. apply set_eq. intros k.
    destruct (decide (k = key)); set_solver.
  - rewrite (bool_decide_eq_false_2 _ Hout).
    split; [set_solver|]. split; [set_solver|].
    rewrite bool_decide_eq_true_2 by set_solver.
    f_equal. set_solver.
Qed.

Lemma X17_toggle_row_witness :
  "b" ∈ App.selectedRowKeys (App.handleToggleRow "a" (App.mkState [] None [] {[ "b" ]} 1)).
Proof.
  apply (proj1 (proj2 (X17_toggle_row_flips_one_key "a"
                         (App.mkState [] None [] {[ "b" ]} 1)))).
  - discriminate.
  - simpl. set_solver.
Defined.

Lemma fold_add_keys (keys : list string) (sel : gset string) (k : string) :
  k ∈ fold_left (fun next k => next ∪ {[ k ]}) keys sel <->
  k ∈ sel \/ k ∈ keys.
Proof.
  revert sel. induction keys as [|x keys IH]; intros sel; simpl.
  - set_solver.
  - rewrite IH. set_solver.
Qed.

Lemma fold_delete_keys (keys : list string) (sel : gset string) (k : string) :
  k ∈ fold_left (fun next k => next ∖ {[ k ]}) keys sel <->
  k ∈ sel /\ k ∉ keys.
Proof.
  revert sel. induction keys as [|x keys IH]; intros sel; simpl.
  - set_solver.
  - rewrite IH. set_solver.
Qed.

(** X18: the page checkbox touches only the keys of the page: a key of
    no record on the page keeps its place in or out of the selection;
    when some record of the page was not selected every key of the page
    ends selected (the page then counts as all selected if it has a
    record), otherwise every key of the page ends unselected. *)
Theorem X18_toggle_page_selects_or_clears_the_page :
  forall (page : list VehicleRecord) (selected : gset string),
    let pageKeys := map (fun v => App.getRecordKey (Some v)) page in
    let after := View.handleToggleSelectPage page selected in
    (forall k, k ∉ pageKeys -> (k ∈ after <-> k ∈ selected))
    /\ ((exists k, k ∈ pageKeys /\ k ∉ selected) ->
        (forall k, k ∈ pageKeys -> k ∈ after)
        /\ View.allOnPageSelected page after = true)
    /\ ((forall k, k ∈ pageKeys -> k ∈ selected) ->
        forall k, k ∈ pageKeys -> k ∉ after).
Proof.
  intros page selected pageKeys after.
  unfold after, View.handleToggleSelectPage. fold pageKeys.
  destruct (forallb (fun k => bool_decide (k ∈ selected)) pageKeys) eqn:Hall.
  - rewrite forallb_forall in Hall.
    assert (Hall' : forall k, k ∈ pageKeys -> k ∈ selected).
    { intros k Hk. apply list_elem_of_In, Hall in Hk.
      apply bool_decide_eq_true in Hk. exact Hk. }
    split; [intros k Hk; rewrite fold_delete_keys; tauto|].
    split.
    + intros (k & Hk & Hout). exfalso. apply Hout, Hall', Hk.
    + intros _ k Hk. rewrite fold_delete_keys. tauto.
  - assert (Hsome : exists k, k ∈ pageKeys /\ k ∉ selected).
    { apply not_true_iff_false in Hall.
      destruct (decide (Forall (fun k => k ∈ selected) pageKeys))
        as [HF|HF].
      - exfalso. apply Hall, forallb_forall. intros k Hk.
        apply bool_decide_eq_true. rewrite Forall_forall in HF.
        apply HF, list_elem_of_In, Hk.
      - apply not_Forall_Exists in HF; [|apply _].
        apply Exists_exists in HF. exact HF. }
    split; [intros k Hk; rewrite fold_add_keys; tauto|].
    split.
    + intros _.
      assert (Hin : forall k, k ∈ pageKeys ->
                k ∈ fold_left (fun next k => next ∪ {[ k ]}) pageKeys selected)
        by (intros k Hk; rewrite fold_add_keys; tauto).
      split; [exact Hin|].
      unfold View.allOnPageSelected. apply andb_true_iff. split.
      * destruct Hsome as (k & Hk & _). unfold pageKeys in Hk.
        destruct page; [inversion Hk|reflexivity].
      * apply forallb_forall. intros v Hv. apply bool_decide_eq_true.
        apply Hin. unfold pageKeys.
        apply list_elem_of_In.
        apply (in_map (fun v => App.getRecordKey (Some v))), Hv.
    + intros Hall'. destruct Hsome as (k & Hk & Hout).
      exfalso. apply Hout, Hall', Hk.
Qed.

Lemma X18_toggle_page_witness :
  View.allOnPageSelected [Sample.bmwPresent; Sample.bmw2023]
    (View.handleToggleSelectPage [Sample.bmwPresent; Sample.bmw2023]
       {[ App.getRecordKey (Some Sample.bmwPresent) ]})
  = true.
Proof.
  apply (proj1 (proj2 (X18_toggle_page_selects_or_clears_the_page
                         [Sample.bmwPresent; Sample.bmw2023]
                         {[ App.getRecordKey (Some Sample.bmwPresent) ]}))).
  exists (App.getRecordKey (Some Sample.bmw2023)). split.
  - apply list_elem_of_In. simpl. auto.
  - vm_compute. set_solver.
Defined.

(** ** Manufacturer filter and facets *)

Lemma filter_ne_elem_of (m x : string) (l : list string) :
  x ∈ List.filter (fun item => negb (bool_decide (item = m))) l <->
  x ∈ l /\ x <> m.
Proof.
  rewrite filter_bool_elem_of, negb_true_iff, bool_decide_eq_false. tauto.
Qed.

Lemma filter_bool_NoDup {A} (p : A -> bool) (l : list A) :
  NoDup l -> NoDup (List.filter p l).
Proof.
  induction 1 as [|x l Hx _ IH]; simpl; [constructor|].
  destruct (p x); [|exact IH]. constructor; [|exact IH].
  rewrite filter_bool_elem_of. tauto.
Qed.

(** X19: clicking a manufacturer in the facet list flips its
    membership in the manufacturer filter, leaves every other
    manufacturer in or out as it was, and keeps a filter without
    repetitions free of repetitions. *)
Theorem X19_toggleFilterManufacturer_flips_one_name :
  forall (m : string) (prev : list string),
    let next := View.toggleFilterManufacturer m prev in
    (m ∈ next <-> m ∉ prev)
    /\ (forall x, x <> m -> (x ∈ next <-> x ∈ prev))
    /\ (NoDup prev -> NoDup next).
Proof.
  intros m prev next. unfold next, View.toggleFilterManufacturer.
  destruct (decide (m ∈ prev)) as [Hin|Hout].
  - rewrite (bool_decide_eq_true_2 _ Hin).
    split; [rewrite filter_ne_elem_of; tauto|].
    split; [intros x Hx; rewrite filter_ne_elem_of; tauto|].
    apply filter_bool_NoDup.
  - rewrite (bool_decide_eq_false_2 _ Hout).
    split; [rewrite elem_of_app, list_elem_of_singleton; tauto|].
    split.
    + intros x Hx. rewrite elem_of_app, list_elem_of_singleton. tauto.
    + intros Hnd. apply NoDup_app. split; [exact Hnd|].
      split; [|apply NoDup_singleton].
      intros x Hx Hx'. apply list_elem_of_singleton in Hx'. congruence.
Qed.

Lemma X19_toggleFilterManufacturer_witness :
  NoDup (View.toggleFilterManufacturer "BMW" ["Toyota"; "BMW"; "Skoda"]).
Proof.
  apply (X19_toggleFilterManufacturer_flips_one_name "BMW"
           ["Toyota"; "BMW"; "Skoda"]).
  repeat constructor; set_solver.
Defined.

Lemma countOf_snoc (m : string) (l : list VehicleRecord) (v : VehicleRecord) :
  countOf m (l ++ [v])
  = countOf m l + (if bool_decide (Manufacturer v = m) then 1 else 0).
Proof.
  unfold countOf. rewrite List.filter_app, length_app. simpl.
  destruct (bool_decide (Manufacturer v = m)); simpl; lia.
Qed.

Lemma countOf_nonneg (m : string) (l : list VehicleRecord) : 0 <= countOf m l.
Proof. unfold countOf. lia. Qed.

Lemma manufacturerCounts_from (database seen : list VehicleRecord)
  (counts : gmap string Z) :
  (forall m, counts !! m
             = if countOf m seen =? 0 then None else Some (countOf m seen)) ->
  Forall (fun v => Manufacturer v ∉ View.inheritedNames) database ->
  exists counts',
    fold_left
      (fun counts v =>
         counts ← counts;
         if bool_decide (Manufacturer v ∈ View.inheritedNames) then None
         else
           Some (<[Manufacturer v := default 0 (counts !! Manufacturer v) + 1]>
                   counts))
      database (Some counts)
    = Some counts'
    /\ forall m, counts' !! m
                 = if countOf m (seen ++ database) =? 0 then None
                   else Some (countOf m (seen ++ database)).
Proof.
  revert seen counts.
  induction database as [|v database IH]; intros seen counts Hc Hok.
  - exists counts. rewrite app_nil_r. auto.
  - apply Forall_cons in Hok as [Hv Hok]. cbn [fold_left]. simpl.
    rewrite (bool_decide_eq_false_2 _ Hv).
    destruct (IH (seen ++ [v])
                 (<[Manufacturer v := default 0 (counts !! Manufacturer v) + 1]>
                    counts)) as (counts' & Hfold & Hlook).
    + intros m. rewrite countOf_snoc.
      pose proof (countOf_nonneg m seen).
      destruct (decide (Manufacturer v = m)) as [<-|Hne].
      * rewrite lookup_insert_eq, bool_decide_eq_true_2 by reflexivity.
        rewrite Hc.
        set (c := countOf (Manufacturer v) seen) in *.
        destruct (Z.eqb_spec c 0) as [Hz|Hnz];
          destruct (Z.eqb_spec (c + 1) 0) as [Hz'|_]; try lia; simpl;
          [rewrite Hz|]; reflexivity.
      * rewrite lookup_insert_ne by exact Hne.
        rewrite (bool_decide_eq_false_2 _ Hne), Z.add_0_r. apply Hc.
    + exact Hok.
    + exists counts'. split; [exact Hfold|].
      intros m. rewrite (Hlook m), <- app_assoc. reflexivity.
Qed.

(** X20: when no Manufacturer is a name objects inherit, the facet
    counts hold, for every manufacturer with a record, the number of
    records whose Manufacturer is exactly that text, and no entry for
    any other text: the counts tell spellings apart. *)
Theorem X20_manufacturerCounts_count_exact_spellings :
  forall database : list VehicleRecord,
    Forall (fun v => Manufacturer v ∉ View.inheritedNames) database ->
    exists counts,
      View.manufacturerCounts database = Some counts
      /\ forall m,
           counts !! m
           = if countOf m database =? 0 then None
             else Some (countOf m database).
Proof.
  intros database Hok.
  destruct (manufacturerCounts_from database [] ∅) as (counts & Hfold & Hlook).
  - intros m. rewrite lookup_empty. reflexivity.
  - exact Hok.
  - exists counts. split; [exact Hfold|exact Hlook].
Qed.

Lemma X20_manufacturerCounts_witness :
  exists counts,
    View.manufacturerCounts INTERNAL_DB_PREMIUM = Some counts
    /\ forall m,
         counts !! m
         = if countOf m INTERNAL_DB_PREMIUM =? 0 then None
           else Some (countOf m INTERNAL_DB_PREMIUM).
Proof.
  apply (X20_manufacturerCounts_count_exact_spellings INTERNAL_DB_PREMIUM).
  repeat constructor; intros H; apply list_elem_of_In in H; simpl in H;
    intuition discriminate.
Defined.

Lemma uniqueNames_elem_of (names : list string) (x : string) :
  x ∈ View.uniqueNames names <-> x ∈ names.
Proof.
  induction names as [|y names IH]; simpl; [reflexivity|].
  rewrite !elem_of_cons, filter_ne_elem_of, IH.
  destruct (decide (x = y)); tauto.
Qed.

Lemma uniqueNames_NoDup (names : list string) : NoDup (View.uniqueNames names).
Proof.
  induction names as [|y names IH]; simpl; constructor.
  - rewrite filter_ne_elem_of. tauto.
  - apply filter_bool_NoDup, IH.
Qed.

Section NameSort.

Variable localeCompare : string -> string -> Z.

Lemma insertName_perm (a : string) (l : list string) :
  View.insertName localeCompare a l ≡ₚ a :: l.
Proof.
  induction l as [|b l IH]; simpl; [reflexivity|].
  destruct (_ >? _); [|reflexivity].
  rewrite IH. apply Permutation_swap.
Qed.

Lemma sortNames_perm (names : list string) :
  View.sortNames localeCompare names ≡ₚ names.
Proof.
  unfold View.sortNames.
  induction names as [|a names IH]; simpl; [reflexivity|].
  rewrite insertName_perm, IH. reflexivity.
Qed.

End NameSort.

(** X21: the manufacturer selector lists every predefined manufacturer
    and every Manufacturer of the dataset, nothing else, and each text
    once. *)
Theorem X21_availableManufacturers_lists_each_name_once :
  forall (localeCompare : string -> string -> Z)
         (database : list VehicleRecord),
    NoDup (View.availableManufacturers localeCompare database)
    /\ forall m,
         m ∈ View.availableManufacturers localeCompare database <->
         m ∈ View.PREDEFINED_MANUFACTURERS
         \/ exists v, v ∈ database /\ Manufacturer v = m.
Proof.
  intros localeCompare database. unfold View.availableManufacturers. split.
  - rewrite sortNames_perm. apply uniqueNames_NoDup.
  - intros m. rewrite sortNames_perm, uniqueNames_elem_of, elem_of_app.
    rewrite !list_elem_of_In, in_map_iff.
    split; (intros [H|(v & Hv & Hin)]; [left; exact H|right]).
    + exists v. split; [apply list_elem_of_In, Hin|exact Hv].
    + exists v. split; [exact Hin|apply list_elem_of_In, Hv].
Qed.

(** X22: the model selector is empty for the choices "ALL" and "NEW";
    for any other manufacturer it lists, each once, the Model of every
    record whose Manufacturer is the chosen one up to case, in the
    spelling of the dataset. *)
Theorem X22_availableModels_of_the_chosen_manufacturer :
  forall (localeCompare : string -> string -> Z)
         (database : list VehicleRecord) (selected : string),
    NoDup (View.availableModels localeCompare database selected)
    /\ forall model,
         model ∈ View.availableModels localeCompare database selected <->
         selected <> "ALL" /\ selected <> "NEW"
         /\ exists v,
              v ∈ database
              /\ Str.toLowerCase (Manufacturer v) = Str.toLowerCase selected
              /\ Model v = model.
Proof.
  intros localeCompare database selected. unfold View.availableModels.
  destruct (decide (selected = "ALL")) as [->|Hall].
  { simpl. split; [constructor|]. intros model. split; [inversion 1|].
    intros (H & _). congruence. }
  destruct (decide (selected = "NEW")) as [->|Hnew].
  { simpl. split; [constructor|]. intros model. split; [inversion 1|].
    intros (_ & H & _). congruence. }
  rewrite (bool_decide_eq_false_2 _ Hall), (bool_decide_eq_false_2 _ Hnew).
  simpl. split.
  - rewrite sortNames_perm. apply uniqueNames_NoDup.
  - intros model. rewrite sortNames_perm, uniqueNames_elem_of.
    rewrite list_elem_of_In, in_map_iff. split.
    + intros (v & Hv & Hin). apply filter_In in Hin as [Hin Hm].
      apply bool_decide_eq_true in Hm.
      repeat split; auto. exists v. rewrite list_elem_of_In. auto.
    + intros (_ & _ & v & Hin & Hm & Hv). exists v. split; [exact Hv|].
      apply filter_In. split; [apply list_elem_of_In, Hin|].
      apply bool_decide_eq_true, Hm.
Qed.

(** ** The activity log *)

(** X23: the log never holds more than 50 entries: a new entry goes to
    the front, the 49 most recent earlier entries follow, and older
    ones are dropped. *)
Theorem X23_addLog_keeps_fifty_entries :
  forall (time message : string) (prev : list string),
    View.addLog time message prev
    = ("[" +:+ time +:+ "] " +:+ message) :: take 49 prev
    /\ (length (View.addLog time message prev) <= 50)%nat.
Proof.
  intros time message prev. unfold View.addLog.
  rewrite (slice_prefix _ 50). split; [reflexivity|].
  rewrite length_take. lia.
Qed.

(** ** Persistence *)

Lemma safeYears_sortDatabase (localeCompare : string -> string -> Z)
  (l : list VehicleRecord) :
  safeYears l -> safeYears (Utils.sortDatabase localeCompare l).
Proof.
  unfold safeYears. intros H.
  apply (Permutation_Forall
           (Permutation_sym (sortDatabase_perm localeCompare l))), H.
Qed.

Lemma safeYears_filter (p : VehicleRecord -> bool) (l : list VehicleRecord) :
  safeYears l -> safeYears (List.filter p l).
Proof.
  unfold safeYears. rewrite !Forall_forall. intros H x Hx.
  apply filter_bool_elem_of in Hx as [Hx _]. auto.
Qed.

Lemma firstOfKind_elem_of (seen C : list VehicleRecord) (x : VehicleRecord) :
  x ∈ firstOfKind seen C -> x ∈ C.
Proof.
  revert seen. induction C as [|c C IH]; intros seen; simpl; [auto|].
  destruct (Utils.isDuplicate seen c).
  - intros H. right. eauto.
  - intros [->|H]%elem_of_cons; [left|right; eauto].
Qed.

Lemma safeYears_importSorted (localeCompare : string -> string -> Z)
  (db records : list VehicleRecord) :
  safeYears db -> safeYears records ->
  safeYears (App.importSorted localeCompare db records).
Proof.
  intros Hdb Hrecords. unfold App.importSorted.
  rewrite mergeImported_firstOfKind. cbn [fst].
  apply safeYears_sortDatabase, Forall_app. split; [exact Hdb|].
  unfold safeYears in *. rewrite Forall_forall in *.
  intros x Hx. eauto using firstOfKind_elem_of.
Qed.

Lemma safeYears_updatedDb (localeCompare : string -> string -> Z)
  (db suggestions : list VehicleRecord) :
  safeYears db -> safeYears suggestions ->
  safeYears (App.updatedDb localeCompare db suggestions).
Proof.
  intros Hdb Hs. unfold App.updatedDb.
  apply safeYears_sortDatabase, Forall_app. split; [exact Hdb|].
  rewrite newRecords_filter. apply safeYears_filter, Hs.
Qed.

Lemma safeYears_internal : safeYears (INTERNAL_DB_MAIN ++ INTERNAL_DB_PREMIUM).
Proof.
  unfold safeYears, INTERNAL_DB_MAIN, INTERNAL_DB_PREMIUM. cbn [app].
  repeat (constructor; [vm_compute; discriminate|]). constructor.
Qed.

Lemma setDatabase_inRange (db : list VehicleRecord) (st : App.State) :
  safeYears db -> stateInRange st -> stateInRange (App.setDatabase db st).
Proof.
  intros Hdb (Hd & Hs & Hsto).
  unfold App.setDatabase, App.autoSave. cbn [App.database].
  destruct (0 <? length db)%nat; repeat split; simpl; auto.
Qed.

Lemma step_inRange (localeCompare : string -> string -> Z)
  (ev : App.Event) (st : App.State) :
  stateInRange st -> eventInRange ev ->
  exists st', App.step localeCompare ev st = Some st' /\ stateInRange st'.
Proof.
  intros Hst Hev. pose proof Hst as (Hd & Hs & Hsto).
  destruct ev as [|l| |content|key|confirmed|confirmed]; simpl in Hev.
  - eexists. split; [reflexivity|].
    assert (Hfresh : stateInRange (App.freshState st))
      by (repeat split; simpl; auto; constructor).
    unfold App.initialLoad.
    change (App.storage (App.freshState st)) with (App.storage st).
    destruct (App.storage st) as [[parsed|]|];
      apply setDatabase_inRange; auto;
      apply safeYears_sortDatabase, safeYears_internal.
  - eexists. split; [reflexivity|]. repeat split; simpl; auto.
  - eexists. split; [reflexivity|]. unfold App.confirmAddition.
    destruct (setDatabase_inRange
                (App.updatedDb localeCompare (App.database st)
                   (App.suggestions st)) st) as (Hd' & _ & Hsto');
      [apply safeYears_updatedDb; auto|exact Hst|].
    repeat split; simpl; auto. constructor.
  - unfold decodesToRecords in Hev. simpl. unfold App.handleImportCSV.
    destruct (Utils.parseCSV content) as [importedData|e]; [|eauto].
    destruct (mapM Js.asVehicle importedData) as [records|];
      [|contradiction].
    simpl. eexists. split; [reflexivity|].
    apply setDatabase_inRange; [|exact Hst].
    apply safeYears_importSorted; auto.
  - eexists. split; [reflexivity|]. repeat split; simpl; auto.
  - eexists. split; [reflexivity|]. unfold App.handleDeleteSelected.
    destruct (_ =? _)%nat; [exact Hst|].
    destruct confirmed; [|exact Hst].
    destruct (setDatabase_inRange
                (List.filter
                   (fun record =>
                      negb (bool_decide
                              (App.getRecordKey (Some record)
                               ∈ App.selectedRowKeys st)))
                   (App.database st)) st) as (Hd' & Hs' & Hsto');
      [apply safeYears_filter, Hd|exact Hst|].
    repeat split; simpl; auto.
  - eexists. split; [reflexivity|].
    destruct confirmed; [|exact Hst].
    repeat split; simpl; auto. constructor.
Qed.

Lemma run_inRange (localeCompare : string -> string -> Z)
  (evs : list App.Event) (st : App.State) :
  stateInRange st -> Forall eventInRange evs ->
  exists st', App.run localeCompare evs st = Some st' /\ stateInRange st'.
Proof.
  revert st. induction evs as [|ev evs IH]; intros st Hst Hevs; simpl.
  - eauto.
  - inversion Hevs as [|? ? Hev Hevs']; subst.
    destruct (step_inRange localeCompare ev st Hst Hev)
      as (st1 & -> & Hst1).
    apply IH; assumption.
Qed.

(** X24: along every run of the component from a first load with no
    stored item, a dataset that is not empty is the stored item.  The
    run takes any events (loads of the page, suggestions, confirmations,
    imports, ticks, deletions, clearings) whose data stays within the
    record type and within exact numbers: suggested years are safe
    integers and imported texts decode to records with safe-integer
    years, or fail to decode.  Such a run never leaves the record type,
    every year in the dataset, the suggestions and the stored item stays
    a safe integer, and, unless the dataset is empty, the stored item
    is the dataset in memory and a load of the page brings it back. *)
Theorem X24_non_empty_dataset_is_stored :
  forall (localeCompare : string -> string -> Z) (events : list App.Event),
    Forall eventInRange events ->
    exists st,
      App.run localeCompare events App.initialState = Some st
      /\ stateInRange st
      /\ (App.database st <> [] ->
          App.storage st = Some (App.Snapshot (App.database st))
          /\ App.database (App.initialLoad localeCompare st)
             = App.database st).
Proof.
  intros localeCompare events Hevents.
  destruct (run_inRange localeCompare events App.initialState)
    as (st & Hrun & Hst); [repeat split; constructor|exact Hevents|].
  exists st. split; [exact Hrun|]. split; [exact Hst|].
  intros Hne.
  assert (Hsaved : App.writtenThrough st).
  { apply (run_saved localeCompare events App.initialState st);
      [|exact Hrun|exact Hne].
    intros H. simpl in H. congruence. }
  unfold App.writtenThrough in Hsaved. split; [exact Hsaved|].
  unfold App.initialLoad. rewrite Hsaved. apply setDatabase_database.
Qed.

Lemma X24_stored_witness :
  Forall eventInRange
    [ App.Mount; App.CreateNew true; App.ImportCSV Sample.oneRowText;
      App.Suggested [Sample.toyotaCorolla]; App.ConfirmAddition ]
  /\ exists st,
       App.run Sample.codeUnitCompare
         [ App.Mount; App.CreateNew true; App.ImportCSV Sample.oneRowText;
           App.Suggested [Sample.toyotaCorolla]; App.ConfirmAddition ]
         App.initialState
       = Some st
       /\ App.database st = [Sample.bmwPresent; Sample.toyotaCorolla]
       /\ App.storage st
          = Some (App.Snapshot [Sample.bmwPresent; Sample.toyotaCorolla])
       /\ App.database (App.initialLoad Sample.codeUnitCompare st)
          = [Sample.bmwPresent; Sample.toyotaCorolla].
Proof.
  assert (Hevents :
            Forall eventInRange
              [ App.Mount; App.CreateNew true;
                App.ImportCSV Sample.oneRowText;
                App.Suggested [Sample.toyotaCorolla];
                App.ConfirmAddition ]).
  { constructor; [exact I|]. constructor; [exact I|].
    constructor.
    { eapply decodesToRecords_intro;
        [vm_compute; reflexivity|vm_compute; reflexivity|].
      repeat (constructor; [vm_compute; discriminate|]). constructor. }
    constructor.
    { repeat (constructor; [vm_compute; discriminate|]). constructor. }
    constructor; [exact I|]. constructor. }
  split; [exact Hevents|].
  destruct (X24_non_empty_dataset_is_stored Sample.codeUnitCompare _ Hevents)
    as (st & Hrun & _ & Hsaved).
  exists st. split; [exact Hrun|].
  assert (Hdb : App.database st = [Sample.bmwPresent; Sample.toyotaCorolla]).
  { revert Hrun. vm_compute. intros [= <-]. reflexivity. }
  rewrite Hdb in Hsaved.
  destruct (Hsaved ltac:(discriminate)) as [Hstorage Hload].
  auto.
Defined.

(** X25: an emptied dataset does not outlive the session: after
    [handleCreateNew] is confirmed the stored item is gone, so the next
    mount loads the built-in records again, whatever the state was. *)
Theorem X25_cleared_dataset_is_reseeded_on_mount :
  forall (localeCompare : string -> string -> Z) (st : App.State),
    let cleared := App.handleCreateNew true st in
    App.database cleared = []
    /\ App.storage cleared = None
    /\ App.database (App.initialLoad localeCompare cleared)
       = Utils.sortDatabase localeCompare
           (INTERNAL_DB_MAIN ++ INTERNAL_DB_PREMIUM)
    /\ length (App.database (App.initialLoad localeCompare cleared)) = 10%nat.
Proof.
  intros localeCompare st cleared.
  assert (H : App.database (App.initialLoad localeCompare cleared)
              = Utils.sortDatabase localeCompare
                  (INTERNAL_DB_MAIN ++ INTERNAL_DB_PREMIUM)).
  { unfold App.initialLoad. simpl. apply setDatabase_database. }
  repeat split; [exact H|].
  rewrite H, sortDatabase_length. reflexivity.
Qed.

(** ** What a decode gives *)

Lemma splitNE_pieces_free (c : ascii) (s : string) :
  Forall (freeOf c) ((Str.splitNE c s).1 :: (Str.splitNE c s).2).
Proof.
  induction s as [|d s IH]; simpl.
  - repeat constructor.
  - destruct (Str.splitNE c s) as [h t]. simpl in IH.
    destruct (Ascii.eqb d c) eqn:Hd; simpl.
    + constructor; [reflexivity|exact IH].
    + apply Forall_cons in IH as [Hh Ht]. constructor; [|exact Ht].
      unfold freeOf in *. simpl. rewrite Ascii.eqb_sym, Hd, Hh. reflexivity.
Qed.

Lemma split_pieces_free (c : ascii) (s : string) :
  Forall (freeOf c) (Str.split c s).
Proof.
  pose proof (splitNE_pieces_free c s) as H. unfold Str.split.
  destruct (Str.splitNE c s). exact H.
Qed.

Lemma splitNE_pieces_keep_free (c d : ascii) (s : string) :
  freeOf d s ->
  Forall (freeOf d) ((Str.splitNE c s).1 :: (Str.splitNE c s).2).
Proof.
  unfold freeOf. induction s as [|e s IH]; simpl; intros H.
  - repeat constructor.
  - apply orb_false_elim in H as [He H]. specialize (IH H).
    destruct (Str.splitNE c s) as [h t]. simpl in IH.
    destruct (Ascii.eqb e c); simpl.
    + constructor; [reflexivity|exact IH].
    + apply Forall_cons in IH as [Hh Ht]. constructor; [|exact Ht].
      unfold freeOf in *. simpl. rewrite He, Hh. reflexivity.
Qed.

Lemma split_pieces_keep_free (c d : ascii) (s : string) :
  freeOf d s -> Forall (freeOf d) (Str.split c s).
Proof.
  intros Hs. pose proof (splitNE_pieces_keep_free c d s Hs) as H.
  unfold Str.split. destruct (Str.splitNE c s). exact H.
Qed.

Lemma trim_free (c : ascii) (s : string) : freeOf c s -> freeOf c (Str.trim s).
Proof. intros H. apply trimEnd_free, trimStart_free, H. Qed.

Lemma trimStart_head (s : string) :
  Str.headSatisfies CodeUnit.isWhiteSpace (Str.trimStart s) = false.
Proof.
  induction s as [|c s IH]; simpl; [reflexivity|].
  destruct (CodeUnit.isWhiteSpace c) eqn:Hc; [exact IH|]. simpl. exact Hc.
Qed.

Lemma trimStart_fixed (s : string) :
  Str.headSatisfies CodeUnit.isWhiteSpace s = false -> Str.trimStart s = s.
Proof. destruct s as [|c s]; simpl; [reflexivity|]. intros ->. reflexivity. Qed.

Lemma trimEnd_head (s : string) :
  Str.headSatisfies CodeUnit.isWhiteSpace s = false ->
  Str.headSatisfies CodeUnit.isWhiteSpace (Str.trimEnd s) = false.
Proof.
  destruct s as [|c s]; simpl; [reflexivity|].
  intros Hc. rewrite Hc. simpl. exact Hc.
Qed.

Lemma trimEnd_idempotent (s : string) :
  Str.trimEnd (Str.trimEnd s) = Str.trimEnd s.
Proof.
  induction s as [|c s IH]; simpl; [reflexivity|].
  destruct (CodeUnit.isWhiteSpace c && Str.isEmpty (Str.trimEnd s)) eqn:H;
    [reflexivity|].
  simpl. rewrite IH, H. reflexivity.
Qed.

Lemma trim_idempotent (s : string) : Str.trim (Str.trim s) = Str.trim s.
Proof.
  unfold Str.trim.
  rewrite (trimStart_fixed (Str.trimEnd (Str.trimStart s)))
    by apply trimEnd_head, trimStart_head.
  apply trimEnd_idempotent.
Qed.

Lemma nonBlankLines_one_line (content line : string) :
  line ∈ Utils.nonBlankLines content -> freeOf Str.lineFeed line.
Proof.
  unfold Utils.nonBlankLines. intros H.
  apply filter_bool_elem_of in H as [H _].
  pose proof (split_pieces_free Str.lineFeed content) as Hall.
  rewrite Forall_forall in Hall. apply Hall, H.
Qed.

Lemma cells_plain (row cell : string) :
  freeOf Str.lineFeed row -> cell ∈ Utils.cells row -> plainText cell.
Proof.
  intros Hrow Hcell. unfold Utils.cells in Hcell.
  apply list_elem_of_In, in_map_iff in Hcell as (piece & <- & Hpiece).
  apply list_elem_of_In in Hpiece.
  pose proof (split_pieces_free "," row) as Hcomma.
  pose proof (split_pieces_keep_free "," Str.lineFeed row Hrow) as Hlf.
  rewrite Forall_forall in Hcomma, Hlf.
  split; [apply trim_free, Hcomma, Hpiece|].
  split; [apply trim_free, Hlf, Hpiece|apply trim_idempotent].
Qed.

Lemma digits_plain (s : string) :
  Str.forallb CodeUnit.isDigit s = true -> plainText s.
Proof.
  intros Hd.
  assert (Hfree : forall c, CodeUnit.isDigit c = false -> freeOf c s).
  { intros c Hc. unfold freeOf. induction s as [|d s IH]; [reflexivity|].
    simpl in *. apply andb_prop in Hd as [Hd Hs]. rewrite (IH Hs), orb_false_r.
    apply Ascii.eqb_neq. intros <-. congruence. }
  split; [apply Hfree; reflexivity|].
  split; [apply Hfree; reflexivity|].
  apply trim_no_space. induction s as [|d s IH]; [reflexivity|].
  simpl in *. apply andb_prop in Hd as [Hd Hs].
  rewrite IH by (auto; intros c Hc; specialize (Hfree c Hc);
                 unfold freeOf in Hfree; simpl in Hfree;
                 apply orb_false_elim in Hfree; tauto).
  rewrite orb_false_r.
  destruct d as [[] [] [] [] [] [] [] []]; vm_compute in Hd |- *; congruence.
Qed.

Lemma cleanGeneration_plain (s : string) :
  plainText s -> plainText (Utils.cleanGeneration s).
Proof.
  intros Hs.
  destruct (cleanGeneration_shape s) as [[_ Hd]|[-> _]];
    [apply digits_plain, Hd|exact Hs].
Qed.

Lemma cleanGeneration_idempotent (s : string) :
  Utils.cleanGeneration (Utils.cleanGeneration s) = Utils.cleanGeneration s.
Proof.
  destruct (cleanGeneration_shape s) as [[Hne Hd]|[Hs _]].
  - unfold Utils.cleanGeneration at 1.
    rewrite matchDigits_digits; auto.
  - rewrite !Hs. reflexivity.
Qed.

Lemma element_string (values : list string) (j : nat) (t : string) :
  Js.element values j = JsString t -> t ∈ values.
Proof.
  unfold Js.element. destruct (values !! j) as [s|] eqn:Hj; [|discriminate].
  intros [= <-]. eapply list_elem_of_lookup_2, Hj.
Qed.

Lemma decoded_text_plain (headers : list string) (row : string)
  (o : gmap string JsValue) (h t : string) :
  decodedByName headers row o ->
  (forall h, h ∈ Utils.expectedHeaders -> h ∈ headers) ->
  freeOf Str.lineFeed row ->
  h ∈ Utils.expectedHeaders ->
  Js.stringProperty o h = Some t ->
  plainText t /\ (h = "Generation" -> Utils.cleanGeneration t = t).
Proof.
  intros Hdec Hvalid Hrow Hh Ht.
  destruct (last_occurrence h headers (Hvalid h Hh)) as (j & Hj & Hlast).
  pose proof (Hdec j h Hj Hlast Hh) as Hd. simpl in Hd.
  unfold Js.stringProperty in Ht.
  destruct (decide (h = "Start_Year")) as [->|Hy].
  { destruct Hd as (n & _ & Hn). rewrite Hn in Ht. discriminate. }
  destruct (decide (h = "Generation")) as [->|Hg].
  - destruct Hd as (s & Hs & Ho). rewrite Ho in Ht. injection Ht as <-.
    split; [|intros _; apply cleanGeneration_idempotent].
    apply cleanGeneration_plain.
    eapply cells_plain; [exact Hrow|]. eapply element_string, Hs.
  - rewrite Hd in Ht.
    destruct (Js.element (Utils.cells row) j) as [|s|n] eqn:He;
      try discriminate.
    injection Ht as <-. split; [|congruence].
    eapply cells_plain; [exact Hrow|]. eapply element_string, He.
Qed.

(** X26: what a decode gives is clean: in every record decoded from a
    text, each of the five text fields holds no comma and no line feed
    and has no white space at either end, and the Generation is
    normalised.  With a year in the exact range such a record is
    carried unchanged by an export followed by an import. *)
Theorem X26_decoded_records_are_plain :
  forall (content : string) (objects : list (gmap string JsValue))
         (o : gmap string JsValue) (v : VehicleRecord),
    Utils.parseCSV content = Ok objects ->
    o ∈ objects ->
    Js.asVehicle o = Some v ->
    plainRecord v
    /\ (Num.isSafeInteger (Start_Year v) -> roundTrips v).
Proof.
  intros content objects o v Hparse Ho Hv.
  assert (Hplain : plainRecord v).
  { unfold Utils.parseCSV in Hparse.
    destruct (Utils.nonBlankLines content) as [|line0 [|row rows]] eqn:Hlines;
      try (injection Hparse as <-; inversion Ho).
    destruct (Utils.isValidHeader (Utils.cells line0)) eqn:Hvalid;
      [|discriminate].
    pose proof (proj1 (isValidHeader_spec _) Hvalid) as Hnames.
    apply parseRows_ok in Hparse.
    apply list_elem_of_lookup in Ho as [i Hi].
    destruct (Forall2_lookup_r _ _ _ _ _ Hparse Hi) as (r & Hr & Hdec).
    apply list_elem_of_lookup_2, filter_bool_elem_of in Hr as [Hr _].
    assert (Hrow : freeOf Str.lineFeed r).
    { apply (nonBlankLines_one_line content). rewrite Hlines.
      right. exact Hr. }
    assert (Hfield : forall h t,
               h ∈ Utils.expectedHeaders ->
               Js.stringProperty o h = Some t ->
               plainText t
               /\ (h = "Generation" -> Utils.cleanGeneration t = t))
      by (intros h t; eapply decoded_text_plain; eassumption).
    unfold Js.asVehicle in Hv.
    destruct (Js.stringProperty o "Manufacturer") as [m|] eqn:Hm;
      [|discriminate].
    destruct (Js.stringProperty o "Model") as [md|] eqn:Hmd; [|discriminate].
    destruct (Js.stringProperty o "Generation") as [g|] eqn:Hg;
      [|discriminate].
    destruct (Js.stringProperty o "Model_Code") as [mc|] eqn:Hmc;
      [|discriminate].
    destruct (Js.numberProperty o "Start_Year") as [sy|]; [|discriminate].
    destruct (Js.stringProperty o "End_Year") as [ey|] eqn:Hey;
      [|discriminate].
    injection Hv as <-. unfold plainRecord. simpl.
    assert (Hin : forall h, In h Utils.expectedHeaders ->
                            h ∈ Utils.expectedHeaders)
      by (intros h; apply list_elem_of_In).
    repeat split;
      first [ eapply (Hfield "Manufacturer"); [apply Hin; simpl; auto 10|eassumption]
            | eapply (Hfield "Model"); [apply Hin; simpl; auto 10|eassumption]
            | eapply (Hfield "Generation"); [apply Hin; simpl; auto 10|eassumption]
            | eapply (Hfield "Model_Code"); [apply Hin; simpl; auto 10|eassumption]
            | eapply (Hfield "End_Year"); [apply Hin; simpl; auto 10|eassumption]
            | idtac ].
    eapply (Hfield "Generation"); [apply Hin; simpl; auto 10|eassumption|reflexivity]. }
  split; [exact Hplain|].
  intros Hsafe. unfold plainRecord in Hplain. unfold roundTrips. tauto.
Qed.

Lemma X26_decoded_records_witness :
  plainRecord Sample.bmwPresent.
Proof.
  apply (X26_decoded_records_are_plain Sample.reorderedText
           [ <["Manufacturer" := JsString "BMW"]>
             (<["Model" := JsString "3 Series"]>
             (<["Generation" := JsString "7"]>
             (<["Model_Code" := JsString "G20"]>
             (<["Start_Year" := JsNumber 2018]>
             (<["Note" := JsString "x"]>
             (<["End_Year" := JsString "Present"]> ∅)))))) ]
           (<["Manufacturer" := JsString "BMW"]>
             (<["Model" := JsString "3 Series"]>
             (<["Generation" := JsString "7"]>
             (<["Model_Code" := JsString "G20"]>
             (<["Start_Year" := JsNumber 2018]>
             (<["Note" := JsString "x"]>
             (<["End_Year" := JsString "Present"]> ∅)))))))
           Sample.bmwPresent).
  - vm_compute. reflexivity.
  - left.
  - vm_compute. reflexivity.
Defined.
